(** * Vortran Stradus VersaLase: the serial command/reply protocol engine

    A shallow embedding of [microscope/controllers/vortran.py]: the line
    codec [_command], the connection handshake, the typed parameter
    accessors, the gated writes of [_VersaLaseLaser] and the slot discovery
    of [StradusVersaLase], with the properties the specification states
    about them. *)

From Stdlib Require Import List String Ascii ZArith Lia Bool Arith PeanoNat.
From Stdlib Require Import Permutation DecimalString.
Import ListNotations.

Set Implicit Arguments.

(* ================================================================= *)
(** ** Python [bytes] *)

(** A Python [bytes] object is a list of 8-bit characters. *)
Definition bytes := list ascii.

(** [b "..."] is the literal [b'...'] (no escape is interpreted). *)
Definition b (s : string) : bytes := list_ascii_of_string s.

Definition CR : ascii := "013"%char.
Definition LF : ascii := "010"%char.
Definition CRLF : bytes := [CR; LF].
Definition CRCRLF : bytes := [CR; CR; LF].

(** [x == y] on bytes. *)
Fixpoint bytes_eqb (x y : bytes) : bool :=
  match x, y with
  | [], [] => true
  | c :: x', d :: y' => Ascii.eqb c d && bytes_eqb x' y'
  | _, _ => false
  end.

(** Python's slice [s[i:j]]: a missing bound is [None], a negative bound counts
    from the end, and both are clamped to [0 .. len s]. *)
Definition slice_bound (n : Z) (k : Z) : Z :=
  if (k <? 0)%Z then Z.max (k + n) 0 else Z.min k n.

Definition py_slice (s : bytes) (i j : option Z) : bytes :=
  let n := Z.of_nat (List.length s) in
  let lo := match i with Some k => slice_bound n k | None => 0%Z end in
  let hi := match j with Some k => slice_bound n k | None => n end in
  firstn (Z.to_nat (hi - lo)) (skipn (Z.to_nat lo) s).

Definition len (s : bytes) : Z := Z.of_nat (List.length s).

(** [s.startswith(p)]. *)
Fixpoint startswith (s p : bytes) : bool :=
  match p, s with
  | [], _ => true
  | d :: p', c :: s' => Ascii.eqb c d && startswith s' p'
  | _ :: _, [] => false
  end.

(** [repr] of a bytes object, as [str(b)] and ["%s" % b] print it: quoted with
    ['] unless the value holds a ['] and no double quote. *)
Definition squote : ascii := "039"%char.
Definition dquote : ascii := "034"%char.
Definition backslash : ascii := "092"%char.

Definition hex_digit (n : nat) : ascii :=
  nth n (list_ascii_of_string "0123456789abcdef") "0"%char.

Definition repr_byte (quote c : ascii) : list ascii :=
  let n := nat_of_ascii c in
  if Ascii.eqb c quote || Ascii.eqb c backslash then [backslash; c]
  else if Ascii.eqb c "009"%char then [backslash; "t"%char]
  else if Ascii.eqb c LF then [backslash; "n"%char]
  else if Ascii.eqb c CR then [backslash; "r"%char]
  else if (n <? 32) || (127 <=? n) then
    [backslash; "x"%char; hex_digit (n / 16); hex_digit (n mod 16)]
  else [c].

Definition repr_bytes (s : bytes) : string :=
  let has c := existsb (Ascii.eqb c) s in
  let quote := if has squote && negb (has dquote) then dquote else squote in
  string_of_list_ascii
    ("b"%char :: quote :: flat_map (repr_byte quote) s ++ [quote]).

(** ["%d" % n]. *)
Definition format_d (n : Z) : string := NilZero.string_of_int (Z.to_int n).

(* ================================================================= *)
(** ** Exceptions and results *)

(** The exceptions this module can raise: its own [microscope.DeviceError]
    (the only error class the module raises itself), a failed [assert], and
    the errors of the built-ins [int], [float] and [bytes.decode] (whose
    messages are not modelled). *)
Inductive exn : Type :=
| DeviceError (msg : string)
| AssertionError
| ValueError
| UnicodeDecodeError.

Definition exn_class (e : exn) : string :=
  match e with
  | DeviceError _ => "DeviceError"
  | AssertionError => "AssertionError"
  | ValueError => "ValueError"
  | UnicodeDecodeError => "UnicodeDecodeError"
  end.

Definition exn_message (e : exn) : option string :=
  match e with
  | DeviceError msg => Some msg
  | _ => None
  end.

(** [except microscope.DeviceError]: neither [AssertionError] nor the
    built-ins' errors derive from it. *)
Definition is_DeviceError (e : exn) : bool :=
  match e with
  | DeviceError _ => true
  | _ => false
  end.

Inductive result (A : Type) : Type :=
| Ok (a : A)
| Raise (e : exn).
Arguments Ok {A} a.
Arguments Raise {A} e.

(** A call ends in an exception of class [cls] carrying message [msg]. *)
Definition fails_with {A} (cls msg : string) (r : result A) : Prop :=
  exists e, r = Raise e /\ exn_class e = cls /\ exn_message e = Some msg.

Definition fails_with_class {A} (cls : string) (r : result A) : Prop :=
  exists e, r = Raise e /\ exn_class e = cls.

(* ================================================================= *)
(** ** A state and exception monad

    A computation threads a state and either returns or raises; the state
    survives an exception, so what was written to the wire before a failure
    stays written. *)
Definition M (S A : Type) : Type := S -> result A * S.

Definition ret {S A} (a : A) : M S A := fun s => (Ok a, s).
Definition raise {S A} (e : exn) : M S A := fun s => (Raise e, s).
Definition bind {S A B} (m : M S A) (k : A -> M S B) : M S B :=
  fun s => match m s with
           | (Ok a, s') => k a s'
           | (Raise e, s') => (Raise e, s')
           end.
Definition lift_result {S A} (r : result A) : M S A := fun s => (r, s).

(** [try: m except microscope.DeviceError as ex: h ex]. *)
Definition try_except_DeviceError {S A} (m : M S A) (h : exn -> M S A) : M S A :=
  fun s => match m s with
           | (Raise e, s') => if is_DeviceError e then h e s' else (Raise e, s')
           | r => r
           end.

Declare Scope monad_scope.
Delimit Scope monad_scope with monad.
Notation "x <- m ;; k" := (bind m (fun x => k))
  (at level 61, m at next level, right associativity) : monad_scope.
Notation "m ;; k" := (bind m (fun _ => k))
  (at level 61, right associativity) : monad_scope.
Open Scope monad_scope.

(* ================================================================= *)
(** ** The transport and the wire *)

(** Modelled from the spec: the shared serial transport
    ([microscope._utils.SharedSerial] around a [serial.Serial] port, which is
    not among the sources).  Section 6 of the spec gives its interface:
    [write(bytes)], [readline() -> bytes], [read_until(delimiter) -> bytes],
    [readlines()] (drain), and a lock.  What the device answers is left
    open: a transport is any state with these four operations.  A read that
    times out gives back what it has, possibly nothing; a failure of the
    port itself is outside the model. *)
Class Transport (T : Type) : Type := {
  port_write : bytes -> T -> T;
  port_readline : T -> bytes * T;
  port_read_until : bytes -> T -> bytes * T;
  port_readlines : T -> list bytes * T
}.

(** What goes over the wire, in order: bytes written and bytes read. *)
Inductive wire_event : Type :=
| Wr (data : bytes)
| Rd (data : bytes).

(** The state the module acts on: the port, the wire's history and the lines
    given to [_LOGGER.info]. *)
Record world (T : Type) : Type := World {
  port : T;
  wire : list wire_event;
  logged : list string
}.

(** The commands written so far. *)
Fixpoint sent_of (evs : list wire_event) : list bytes :=
  match evs with
  | [] => []
  | Wr d :: evs' => d :: sent_of evs'
  | Rd _ :: evs' => sent_of evs'
  end.

Definition sent {T} (w : world T) : list bytes := sent_of (wire w).

(** The built-ins of Python the module calls on replies.  [None] stands for
    the built-in raising ([ValueError] for [int] and [float],
    [UnicodeDecodeError] for [decode]). *)
Class PyBuiltins : Type := {
  py_int : bytes -> option Z;
  float : Type;
  py_float : bytes -> option float;
  float_mul : float -> float -> float;
  float_ne : float -> float -> bool;
  format_1f : float -> bytes;
  py_decode : bytes -> option string
}.

Section Protocol.
Context {T : Type} {TR : Transport T}.

Definition serial_write (data : bytes) : M (world T) unit :=
  fun w => (Ok tt, World (port_write data (port w)) (wire w ++ [Wr data]) (logged w)).

Definition serial_readline : M (world T) bytes :=
  fun w => let (line, p) := port_readline (port w) in
           (Ok line, World p (wire w ++ [Rd line]) (logged w)).

Definition serial_read_until (expected : bytes) : M (world T) bytes :=
  fun w => let (data, p) := port_read_until expected (port w) in
           (Ok data, World p (wire w ++ [Rd data]) (logged w)).

Definition serial_readlines : M (world T) (list bytes) :=
  fun w => let (lines, p) := port_readlines (port w) in
           (Ok lines, World p (wire w ++ map Rd lines) (logged w)).

Definition log_info (line : string) : M (world T) unit :=
  fun w => (Ok tt, World (port w) (wire w) (logged w ++ [line])).

(** [with self._serial.lock: body] run by the only thread there is: the
    free lock is taken and given back around [body], with no other effect.
    (The interleaving of several threads is the subject of [Module
    Threads] below.) *)
Definition with_lock {A} (body : M (world T) A) : M (world T) A := body.

(* ----------------------------------------------------------------- *)
(** *** [_parse_bool] *)

Definition _parse_bool (answer : bytes) : result bool :=
  if bytes_eqb answer (b "0") || bytes_eqb answer (b "1")
  then Ok (bytes_eqb answer (b "1"))
  else Raise AssertionError.

(* ----------------------------------------------------------------- *)
(** *** [_VersaLaseConnection] *)

(** The [with] block of [_command]: one transaction on the wire. *)
Definition _command_io (command : bytes) : M (world T) bytes :=
  with_lock (serial_write (command ++ [CR]) ;;
             empty_line <- serial_readline ;;
             serial_read_until CRLF).

(** What [_command] makes of the [answer] it read. *)
Definition _command_decode (command answer : bytes) : result bytes :=
  if bytes_eqb answer CRLF || bytes_eqb answer [] then
    Raise (DeviceError ("Failed to set command " ++ repr_bytes answer))
  else if bytes_eqb (py_slice answer (Some (-3)%Z) None) CRCRLF then
    if bytes_eqb (py_slice answer (Some (len command + 1)%Z) (Some (-3)%Z)) [] then
      Ok (py_slice answer None (Some (len command)))
    else
      Ok (py_slice answer (Some (len command + 1)%Z) (Some (-3)%Z))
  else if bytes_eqb (py_slice answer (Some (-2)%Z) None) CRLF then
    if bytes_eqb (py_slice answer (Some (len command + 1)%Z) (Some (-2)%Z)) [] then
      Ok (py_slice answer None (Some (len command)))
    else
      Ok (py_slice answer (Some (len command + 1)%Z) (Some (-2)%Z))
  else Raise AssertionError.

Definition _command (command : bytes) : M (world T) bytes :=
  answer <- _command_io command ;;
  lift_result (_command_decode command answer).

Definition VersaLaseConnection_init : M (world T) unit :=
  serial_readlines ;;
  with_lock (serial_write (b "?SPV" ++ [CR]) ;;
             empty_line <- serial_readline ;;
             if negb (bytes_eqb empty_line CRLF) then
               raise (DeviceError "not a Vortran Laser device")
             else
               answer <- serial_readline ;;
               if negb (startswith answer (b "?SPV=")) then
                 raise (DeviceError "not a Vortran VersaLase device")
               else ret tt) ;;
  _command (b "ECHO=0") ;;
  _command (b "PROMPT=0") ;;
  serial_readlines ;;
  ret tt.

Definition query (name : bytes) : M (world T) bytes :=
  _command (b "?" ++ name).

Definition param_command (name value : bytes) : M (world T) unit :=
  answer <- _command (name ++ b "=" ++ value) ;;
  ret tt.

Context {PY : PyBuiltins}.

(** [int(x)], [float(x)] and [x.decode()] on a reply. *)
Definition int_of (x : bytes) : M (world T) Z :=
  match py_int x with Some n => ret n | None => raise ValueError end.
Definition float_of (x : bytes) : M (world T) float :=
  match py_float x with Some v => ret v | None => raise ValueError end.
Definition decode (x : bytes) : M (world T) string :=
  match py_decode x with Some s => ret s | None => raise UnicodeDecodeError end.

Definition base_plate_temperature : M (world T) Z :=
  x <- query (b "BPT") ;; int_of x.
Definition interlock_status : M (world T) bool :=
  x <- query (b "IL") ;; lift_result (_parse_bool x).
Definition show_firmware_version : M (world T) string :=
  x <- query (b "SFV") ;; decode x.
Definition show_protocol_version : M (world T) string :=
  x <- query (b "SPV") ;; decode x.

End Protocol.

(* ================================================================= *)
(** ** The lasers of a VersaLase *)

(** A [_VersaLaseLaserConnection]: its [_conn] is the one connection there
    is (which holds nothing but the shared port), so the prefix is all. *)
Record VersaLaseLaserConnection : Type := LaserConnection {
  _param_prefix : bytes
}.

Section Lasers.
Context {T : Type} {TR : Transport T} {PY : PyBuiltins}.

Definition _laser_query (self : VersaLaseLaserConnection) (name : bytes)
  : M (world T) bytes :=
  _command (_param_prefix self ++ (b "?" ++ name)).

Definition _laser_command (self : VersaLaseLaserConnection) (name value : bytes)
  : M (world T) unit :=
  param_command (_param_prefix self ++ name) value.

(** [b"1" if state else b"0"]. *)
Definition bool_value (state : bool) : bytes := if state then b "1" else b "0".

Definition set_drive_control_mode self (state : bool) : M (world T) unit :=
  _laser_command self (b "C") (bool_value state).
Definition set_delay self (state : bool) : M (world T) unit :=
  _laser_command self (b "DELAY") (bool_value state).
Definition set_external_power_control self (state : bool) : M (world T) unit :=
  _laser_command self (b "EPC") (bool_value state).
Definition set_emission self (state : bool) : M (world T) unit :=
  _laser_command self (b "LE") (bool_value state).
Definition set_power self (power : float) : M (world T) unit :=
  _laser_command self (b "LP") (format_1f power).
Definition set_pulse_power self (pulsepower : float) : M (world T) unit :=
  _laser_command self (b "PP") (format_1f pulsepower).
Definition set_pulse_mode self (state : bool) : M (world T) unit :=
  _laser_command self (b "PUL") (bool_value state).

Definition get_bool self (name : bytes) : M (world T) bool :=
  x <- _laser_query self name ;; lift_result (_parse_bool x).
Definition get_int self (name : bytes) : M (world T) Z :=
  x <- _laser_query self name ;; int_of x.
Definition get_float self (name : bytes) : M (world T) float :=
  x <- _laser_query self name ;; float_of x.

Definition get_drive_control_mode self := get_bool self (b "C").
Definition get_computer_control self := get_bool self (b "CC").
Definition get_delay self := get_bool self (b "DELAY").
Definition get_emission_status self := get_bool self (b "LE").
Definition get_operating_hours self := get_int self (b "LH").
Definition get_identification self : M (world T) string :=
  x <- _laser_query self (b "LI") ;; decode x.
Definition get_power self := get_float self (b "LP").
Definition get_power_setting self := get_float self (b "LPS").
Definition get_wavelength self := get_int self (b "LW").
Definition get_max_power self := get_float self (b "MAXP").
Definition get_pulse_power self := get_int self (b "PP").
Definition get_pulse_mode self := get_bool self (b "PUL").
Definition get_external_power_control_mode self := get_bool self (b "EPC").

(** [_VersaLaseLaserConnection.__init__]: the prefix, then the probe
    ([set_delay(0)] passes a false value). *)
Definition VersaLaseLaserConnection_init (laser_number : Z)
  : M (world T) VersaLaseLaserConnection :=
  let self := LaserConnection (b (format_d laser_number) ++ b ".") in
  try_except_DeviceError
    (get_wavelength self ;; set_delay self false ;; ret self)
    (fun ex => raise (DeviceError
       ("failed to get laser wavelength, probably no laser "
        ++ format_d laser_number))).

(** A [_VersaLaseLaser].  [super().__init__()] and [add_setting] belong to
    [microscope.abc] and do no input or output on the port. *)
Record VersaLaseLaser : Type := Laser {
  _conn : VersaLaseLaserConnection;
  _max_power : float;
  _save_power : float;
  _track_digital_modulation : bool
}.

Definition VersaLaseLaser_init (laser_number : Z) : M (world T) VersaLaseLaser :=
  conn <- VersaLaseLaserConnection_init laser_number ;;
  max_power <- get_max_power conn ;;
  save_power <- get_power_setting conn ;;
  pulse_mode <- get_pulse_mode conn ;;
  ret (Laser conn max_power save_power pulse_mode).

(** The methods of a laser act on the laser's own fields and on the world. *)
Definition LM (A : Type) : Type := M (VersaLaseLaser * world T) A.

Definition on_port {A} (m : M (world T) A) : LM A :=
  fun s => let (r, w) := m (snd s) in (r, (fst s, w)).
Definition get_self : LM VersaLaseLaser := fun s => (Ok (fst s), s).
Definition set_save_power (v : float) : LM unit :=
  fun s => let self := fst s in
           (Ok tt, (Laser (_conn self) (_max_power self) v
                          (_track_digital_modulation self), snd s)).

Definition get_is_on : LM bool :=
  self <- get_self ;; on_port (get_emission_status (_conn self)).

Definition _do_set_power (power : float) : LM unit :=
  self <- get_self ;;
  emission <- on_port (get_emission_status (_conn self)) ;;
  if emission then
    on_port (set_power (_conn self) (float_mul power (_max_power self)))
  else
    set_save_power (float_mul power (_max_power self)) ;;
    raise (DeviceError
      "Failed to set power, laser is not enabled. But power setting has been saved").

Definition _do_enable : LM unit :=
  self <- get_self ;;
  on_port (set_emission (_conn self) true) ;;
  power_setting <- on_port (get_power_setting (_conn self)) ;;
  if float_ne power_setting (_save_power self) then
    on_port (set_power (_conn self) (_save_power self))
  else
    pulse_mode <- on_port (get_pulse_mode (_conn self)) ;;
    if negb (Bool.eqb pulse_mode (_track_digital_modulation self)) then
      on_port (set_pulse_mode (_conn self) (_track_digital_modulation self))
    else ret tt.

Definition _do_disable : LM unit :=
  self <- get_self ;; on_port (set_emission (_conn self) false).

(* ----------------------------------------------------------------- *)
(** *** [StradusVersaLase] *)

(** [d[key] = value] on a dict, which keeps insertion order. *)
Fixpoint dict_set {V} (d : list (string * V)) (key : string) (value : V)
  : list (string * V) :=
  match d with
  | [] => [(key, value)]
  | (k, v) :: d' =>
      if String.eqb k key then (k, value) :: d'
      else (k, v) :: dict_set d' key value
  end.

Definition laser_name (i : Z) : string := "laser" ++ format_d i.

(** The loop [for i in range(1, 9)] over the slots still to try. *)
Fixpoint discover (slots : list Z) (lasers : list (string * VersaLaseLaser))
  : M (world T) (list (string * VersaLaseLaser)) :=
  match slots with
  | [] => ret lasers
  | i :: slots' =>
      let name := laser_name i in
      fun w =>
        match VersaLaseLaser_init i w with
        | (Raise e, w') =>
            if is_DeviceError e then
              (log_info ("no " ++ name ++ " available") ;;
               discover slots' lasers) w'
            else (Raise e, w')
        | (Ok laser, w') =>
            (log_info ("found " ++ name ++ " on VersaLase 8") ;;
             discover slots' (dict_set lasers name laser)) w'
        end
  end.

(** [range(1, 9)]. *)
Definition slot_range : list Z := [1; 2; 3; 4; 5; 6; 7; 8]%Z.

(** [StradusVersaLase.__init__], from the shared port on (opening the port
    is [serial.Serial]'s business). *)
Definition open_connection : M (world T) unit :=
  VersaLaseConnection_init ;;
  protocol_version <- show_protocol_version ;;
  firmware_version <- show_firmware_version ;;
  log_info ("Connected to VersaLase with protocol version ("
            ++ protocol_version ++ ") and firmware version ("
            ++ firmware_version ++ ")").

Definition StradusVersaLase_init : M (world T) (list (string * VersaLaseLaser)) :=
  open_connection ;;
  discover slot_range [].

End Lasers.

(* ================================================================= *)
(** ** The specification's reference definitions *)

(** Whether [s] ends with [t]. *)
Definition ends_with (s t : bytes) : bool :=
  startswith (rev s) (rev t).

(** [s] without its last [k] bytes. *)
Definition drop_last (k : nat) (s : bytes) : bytes :=
  rev (skipn k (rev s)).

(** What section 4.2, steps 6 to 8, says of a reply. *)
Inductive framed : Type :=
| Rejected                 (* step 6: the command was rejected *)
| Payload (body : bytes).   (* steps 7 and 8 *)

(** Step 7's stripping rule for a terminator of [k] bytes: the echoed command
    and one separator byte go from the front, the terminator from the end;
    an empty remainder falls back to the echo. *)
Definition strip_reply (command answer : bytes) (k : nat) : bytes :=
  match drop_last k (skipn (List.length command + 1) answer) with
  | [] => firstn (List.length command) answer
  | body => body
  end.

(** Steps 6 to 8 in the spec's words; [None] where they say nothing (a reply
    of neither shape). *)
Definition spec_decode (command answer : bytes) : option framed :=
  match answer with
  | [] => Some Rejected
  | _ =>
      if bytes_eqb answer CRLF then Some Rejected
      else if ends_with answer CRCRLF then Some (Payload (strip_reply command answer 3))
      else if ends_with answer CRLF then Some (Payload (strip_reply command answer 2))
      else None
  end.

(** Section 6's reply line for a payload: the content, a terminator of either
    shape, and in front of it (optionally) the echo of the command and a
    separator byte. *)
Definition encode_reply (echo : option (bytes * ascii)) (payload terminator : bytes)
  : bytes :=
  match echo with
  | Some (command, separator) => command ++ separator :: payload ++ terminator
  | None => payload ++ terminator
  end.

(** Section 4.4's discovery in the spec's words: every slot is attempted in
    turn whatever became of the slots before it; a slot that fails is logged
    and left out, a slot that answers is logged and kept. *)
Fixpoint spec_discover {T} {TR : Transport T} {PY : PyBuiltins} (slots : list Z)
  (w : world T) : list (Z * result VersaLaseLaser) * world T :=
  match slots with
  | [] => ([], w)
  | i :: slots' =>
      let (r, w1) := VersaLaseLaser_init i w in
      let line := match r with
                  | Ok _ => ("found " ++ laser_name i ++ " on VersaLase 8")%string
                  | Raise _ => ("no " ++ laser_name i ++ " available")%string
                  end in
      let (rs, w2) := spec_discover slots'
                        (World (port w1) (wire w1) (logged w1 ++ [line])) in
      ((i, r) :: rs, w2)
  end.

(** The slots kept, under their names. *)
Fixpoint retained {L} (outcomes : list (Z * result L)) : list (string * L) :=
  match outcomes with
  | [] => []
  | (i, Ok laser) :: rest => (laser_name i, laser) :: retained rest
  | (_, Raise _) :: rest => retained rest
  end.

(** Every failure among the outcomes is the module's own [DeviceError]. *)
Definition device_failures_only {L} (outcomes : list (Z * result L)) : bool :=
  forallb (fun o => match snd o with
                    | Ok _ => true
                    | Raise e => is_DeviceError e
                    end) outcomes.

(* ================================================================= *)
(** ** Several threads on one port *)

Module Threads.

(** Where a thread stands in [_command]: before the [with] block, inside it
    (after the lock was taken, after the write, after the acknowledgment
    line, after the answer), or past it with what the decoding gave. *)
Inductive pc : Type :=
| Idle
| Holding
| Written
| EchoRead
| AnswerRead (answer : bytes)
| Finished (outcome : result bytes).

(** One port, its lock (free, or held by a thread) and the threads. *)
Record system (T : Type) : Type := System {
  shared : world T;
  owner : option nat;
  pcs : list pc
}.

Fixpoint set_nth {A} (n : nat) (x : A) (l : list A) : list A :=
  match l, n with
  | [], _ => []
  | _ :: l', O => x :: l'
  | y :: l', S n' => y :: set_nth n' x l'
  end.

(** Modelled from the spec: the lock of the shared port (a field of
    [microscope._utils.SharedSerial], which is not among the sources).
    Section 4.1: the body of a [with] block runs while the guard is held and
    the guard is given back on every way out; a thread that finds the guard
    held by another waits ([None]). *)
Definition acquire (t : nat) (holder : option nat) : option (option nat) :=
  match holder with
  | None => Some (Some t)
  | Some _ => None
  end.

Definition release (holder : option nat) : option nat := None.

Section Interleaving.
Context {T : Type} {TR : Transport T}.
Variable commands : list bytes.

Definition command_of (t : nat) : bytes := nth t commands [].

(** One atomic step of thread [t]; [None] when it cannot move (it waits for
    the lock, it has finished, or there is no such thread). *)
Definition step (t : nat) (s : system T) : option (system T) :=
  match nth_error (pcs s) t with
  | None => None
  | Some Idle =>
      match acquire t (owner s) with
      | Some holder => Some (System (shared s) holder (set_nth t Holding (pcs s)))
      | None => None
      end
  | Some Holding =>
      let (_, w) := serial_write (command_of t ++ [CR]) (shared s) in
      Some (System w (owner s) (set_nth t Written (pcs s)))
  | Some Written =>
      let (_, w) := serial_readline (shared s) in
      Some (System w (owner s) (set_nth t EchoRead (pcs s)))
  | Some EchoRead =>
      match serial_read_until CRLF (shared s) with
      | (Ok answer, w) => Some (System w (owner s) (set_nth t (AnswerRead answer) (pcs s)))
      | (Raise e, w) =>
          Some (System w (release (owner s)) (set_nth t (Finished (Raise e)) (pcs s)))
      end
  | Some (AnswerRead answer) =>
      Some (System (shared s) (release (owner s))
              (set_nth t (Finished (_command_decode (command_of t) answer)) (pcs s)))
  | Some (Finished _) => None
  end.

(** A schedule names the thread to move at each moment; a thread that cannot
    move leaves the system as it is. *)
Fixpoint run (schedule : list nat) (s : system T) : system T :=
  match schedule with
  | [] => s
  | t :: schedule' =>
      run schedule' (match step t s with Some s' => s' | None => s end)
  end.

Definition initial (w : world T) : system T :=
  System w None (map (fun _ => Idle) commands).

Definition is_finished (p : pc) : bool :=
  match p with Finished _ => true | _ => false end.

(** The schedule without contention: each of [n] threads in turn gets the
    five steps its transaction takes. *)
Definition one_by_one (n : nat) : list nat :=
  flat_map (fun t => repeat t 5) (seq 0 n).

Definition all_finished (s : system T) : bool := forallb is_finished (pcs s).

(** The same transactions one after the other, in a given order. *)
Fixpoint one_at_a_time (order : list nat) (w : world T)
  : list (nat * result bytes) * world T :=
  match order with
  | [] => ([], w)
  | t :: order' =>
      let (r, w1) := _command (command_of t) w in
      let (rs, w2) := one_at_a_time order' w1 in
      ((t, r) :: rs, w2)
  end.

(** The three wire events of a transaction. *)
Definition transaction (t : nat) (reply : bytes * bytes) : list wire_event :=
  [Wr (command_of t ++ [CR]); Rd (fst reply); Rd (snd reply)].

(** The wire after the transactions of [order], one whole transaction after
    the other, with the lines [replies] read in them. *)
Definition serial_wire (before : list wire_event) (order : list nat)
  (replies : list (bytes * bytes)) : list wire_event :=
  before ++ flat_map (fun tr => transaction (fst tr) (snd tr)) (combine order replies).

Definition in_progress (p : pc) : bool :=
  match p with
  | Holding | Written | EchoRead | AnswerRead _ => true
  | Idle | Finished _ => false
  end.

(** Where the port stands when the thread [t] that holds the lock is at [p],
    its transaction having started from [w0]. *)
Definition stage_world (w0 : world T) (t : nat) (p : pc) (ws : world T) : Prop :=
  match p with
  | Holding => ws = w0
  | Written => ws = snd (serial_write (command_of t ++ [CR]) w0)
  | EchoRead =>
      ws = snd (serial_readline (snd (serial_write (command_of t ++ [CR]) w0)))
  | AnswerRead answer => _command_io (command_of t) w0 = (Ok answer, ws)
  | Idle | Finished _ => False
  end.

(** What every reachable state satisfies, [done] being the threads that have
    finished, in the order in which they did: the port is where the
    transactions of [done], run one at a time from [w], would have left it,
    plus what the holder of the lock has done of its own. *)
Record invariant (w : world T) (done : list nat) (s : system T) : Prop := Invariant {
  inv_nodup : NoDup done;
  inv_length : List.length (pcs s) = List.length commands;
  inv_done : forall t,
    In t done <-> exists r, nth_error (pcs s) t = Some (Finished r);
  inv_results : forall t r,
    nth_error (pcs s) t = Some (Finished r) ->
    In (t, r) (fst (one_at_a_time done w));
  inv_owner : forall t p,
    nth_error (pcs s) t = Some p -> (in_progress p = true <-> owner s = Some t);
  inv_shared :
    match owner s with
    | None => shared s = snd (one_at_a_time done w)
    | Some h => exists p, nth_error (pcs s) h = Some p /\
                          stage_world (snd (one_at_a_time done w)) h p (shared s)
    end
}.

End Interleaving.
End Threads.

(* ================================================================= *)
(** ** A simulated port, for closed examples *)

Module Sim.

(** Up to and including the first [delimiter]; everything when there is none
    (the read times out). *)
Fixpoint split_after (delimiter s : bytes) : bytes * bytes :=
  match s with
  | [] => ([], [])
  | c :: s' =>
      if startswith s delimiter then (delimiter, skipn (List.length delimiter) s)
      else let (x, y) := split_after delimiter s' in (c :: x, y)
  end.

Fixpoint lines_of (fuel : nat) (s : bytes) : list bytes :=
  match fuel, s with
  | _, [] => []
  | O, _ => [s]
  | S fuel', _ => let (l, r) := split_after [LF] s in l :: lines_of fuel' r
  end.

(** A device that answers each line written with bytes of its choosing. *)
Record sim_port : Type := SimPort {
  pending : bytes;
  device : bytes -> bytes
}.

#[global] Instance sim_transport : Transport sim_port := {
  port_write data p := SimPort (pending p ++ device p data) (device p);
  port_readline p :=
    let (l, r) := split_after [LF] (pending p) in (l, SimPort r (device p));
  port_read_until expected p :=
    let (l, r) := split_after expected (pending p) in (l, SimPort r (device p));
  port_readlines p :=
    (lines_of (List.length (pending p)) (pending p), SimPort [] (device p))
}.

Definition is_digit (c : ascii) : bool :=
  (48 <=? nat_of_ascii c) && (nat_of_ascii c <=? 57).

Definition digit_value (c : ascii) : Z := Z.of_nat (nat_of_ascii c - 48).

Definition decimal (s : bytes) : option Z :=
  match s with
  | [] => None
  | _ => if forallb is_digit s
         then Some (fold_left (fun acc c => acc * 10 + digit_value c)%Z s 0%Z)
         else None
  end.

(** Tenths: ["12.3"] is 123, ["12"] is 120. *)
Definition tenths (s : bytes) : option Z :=
  match rev s with
  | d :: "."%char :: whole =>
      if is_digit d then
        match decimal (rev whole) with
        | Some n => Some (n * 10 + digit_value d)%Z
        | None => None
        end
      else None
  | _ => option_map (Z.mul 10) (decimal s)
  end.

Definition format_tenths (x : Z) : bytes :=
  (if (x <? 0)%Z then b "-" else []) ++
  b (format_d (Z.abs x / 10)) ++ b "." ++ b (format_d (Z.abs x mod 10)).

Definition is_ascii (c : ascii) : bool := nat_of_ascii c <? 128.

(** Stand-ins for the built-ins on plain decimal replies: integers without
    sign, powers as exact tenths, ASCII text. *)
#[global] Instance decimal_builtins : PyBuiltins := {
  py_int := decimal;
  float := Z;
  py_float := tenths;
  float_mul x y := (x * y / 10)%Z;
  float_ne x y := negb (x =? y)%Z;
  format_1f := format_tenths;
  py_decode s := if forallb is_ascii s then Some (string_of_list_ascii s) else None
}.

(** The value a simulated VersaLase reports for a parameter. *)
Definition parameter_value (name : bytes) : bytes :=
  if bytes_eqb name (b "LW") then b "488"
  else if bytes_eqb name (b "MAXP") then b "50.0"
  else if bytes_eqb name (b "LPS") then b "12.3"
  else if bytes_eqb name (b "SPV") then b "1.2"
  else if bytes_eqb name (b "SFV") then b "3.4"
  else b "0".

(** A blank acknowledgment line, then the command back with the value after
    a [=] for a query, or just the command back for a change. *)
Definition answer_line (command rest : bytes) : bytes :=
  match rest with
  | "?"%char :: name => CRLF ++ command ++ b "=" ++ parameter_value name ++ CRLF
  | _ => CRLF ++ command ++ CRLF
  end.

(** A VersaLase with lasers in the slots [installed] (digits): a command to an
    empty slot gets a bare terminator. *)
Definition versalase (installed : list ascii) (line : bytes) : bytes :=
  let command := removelast line in
  match command with
  | n :: "."%char :: rest =>
      if existsb (Ascii.eqb n) installed then answer_line command rest
      else CRLF ++ CRLF
  | _ => answer_line command command
  end.

(** The same device, except that it answers [line] with [reply]. *)
Definition answering (line reply : bytes) (dev : bytes -> bytes) : bytes -> bytes :=
  fun l => if bytes_eqb l line then reply else dev l.

Definition fresh (dev : bytes -> bytes) : world sim_port :=
  World (SimPort [] dev) [] [].

(** A VersaLase with lasers in slots 2, 5 and 7. *)
Definition three_lasers : world sim_port :=
  fresh (versalase (list_ascii_of_string "257")).

(** The same, with a laser in slot 1 whose wavelength reads [abc]. *)
Definition garbled_wavelength : world sim_port :=
  fresh (answering (b "1.?LW" ++ [CR]) (CRLF ++ b "1.?LW=abc" ++ CRLF)
           (versalase (list_ascii_of_string "257"))).

(** The same, except that the answer of slot 3 to the wavelength query is an
    [X] with no terminator after it. *)
Definition unterminated_wavelength : world sim_port :=
  fresh (answering (b "3.?LW" ++ [CR]) (CRLF ++ b "X")
           (versalase (list_ascii_of_string "257"))).

(** Something that is no VersaLase: it says [hello] to every line. *)
Definition stranger : world sim_port := fresh (fun _ => b "hello" ++ CRLF).

(** Two threads, each asking a laser for its wavelength, and a schedule that
    lets them take turns: the second finds the lock held four times over
    before it gets it. *)
Definition two_queries : list bytes := [b "2.?LW"; b "5.?LW"].
Definition taking_turns : list nat := [0; 1; 0; 1; 0; 1; 0; 1; 0; 1; 1; 1; 1; 1].

(** The laser of slot 2, 50.0 at most, with 25.0 saved and pulse mode saved. *)
Definition laser2 : VersaLaseLaser :=
  Laser (LaserConnection (b "2.")) 500%Z 250%Z true.

End Sim.

(* ================================================================= *)
(** ** Notions the properties are stated with *)

(** The first two lines a port gives back to the version query of the
    handshake, after the stale input was drained. *)
Definition handshake_lines {T} {TR : Transport T} (p : T) : bytes * bytes :=
  let p1 := port_write (b "?SPV" ++ [CR]) (snd (port_readlines p)) in
  let (first, p2) := port_readline p1 in
  (first, fst (port_readline p2)).

(** The command line of a query and of a change, as written to the port. *)
Definition query_line (prefix name : bytes) : bytes :=
  prefix ++ (b "?" ++ name) ++ [CR].
Definition change_line (prefix name value : bytes) : bytes :=
  (prefix ++ name) ++ b "=" ++ value ++ [CR].

(** The command that probes slot [i] for its wavelength, the line it makes on
    the wire, and the test for such lines among the commands sent. *)
Definition wavelength_query (i : Z) : bytes :=
  (b (format_d i) ++ b ".") ++ (b "?" ++ b "LW").

Definition wavelength_probe (i : Z) : bytes :=
  query_line (b (format_d i) ++ b ".") (b "LW").

Definition is_wavelength_probe (line : bytes) : bool :=
  ends_with line (b "?LW" ++ [CR]).

(** The command lines that constructing the laser of slot [i] writes, in
    the order it writes them: the wavelength probe, the delay toggle set to
    0, and the reads of the maximum power, the power setting and the pulse
    mode. *)
Definition construction_lines (i : Z) : list bytes :=
  [wavelength_probe i;
   change_line (b (format_d i) ++ b ".") (b "DELAY") (b "0");
   query_line (b (format_d i) ++ b ".") (b "MAXP");
   query_line (b (format_d i) ++ b ".") (b "LPS");
   query_line (b (format_d i) ++ b ".") (b "PUL")].

(** The line the discovery logs for a slot. *)
Definition discovery_line {L} (outcome : Z * result L) : string :=
  match snd outcome with
  | Ok _ => "found " ++ laser_name (fst outcome) ++ " on VersaLase 8"
  | Raise _ => "no " ++ laser_name (fst outcome) ++ " available"
  end.

(** A computation that sends no wavelength probe, and one that sends [line]
    first and no wavelength probe after it; neither logs anything. *)
Definition quiet {T A} (m : M (world T) A) : Prop :=
  forall w, exists l,
    sent (snd (m w)) = sent w ++ l /\
    filter is_wavelength_probe l = [] /\
    logged (snd (m w)) = logged w.

Definition opens_with {T A} (line : bytes) (m : M (world T) A) : Prop :=
  forall w, exists l,
    sent (snd (m w)) = sent w ++ line :: l /\
    filter is_wavelength_probe l = [] /\
    logged (snd (m w)) = logged w.

(* ================================================================= *)
(** ** The trigger of a laser *)

(** The enumerations [microscope.TriggerType] and [microscope.TriggerMode]
    are declared in the package, not in this module, which only tests their
    members for identity: [ttype is TriggerType.HIGH],
    [ttype is TriggerType.SOFTWARE], [tmode is TriggerMode.BULB]. *)
Class TriggerEnums : Type := {
  TriggerType : Type;
  TriggerMode : Type;
  is_HIGH : TriggerType -> bool;
  is_SOFTWARE : TriggerType -> bool;
  is_BULB : TriggerMode -> bool
}.

(** How a call of [set_trigger] that raises no exception of [exn] ends: it
    returns, or its last act is to raise
    [microscope.UnsupportedFeatureError] with a message. *)
Inductive trigger_outcome : Type :=
| TriggerSet
| UnsupportedFeature (msg : string).

Section Trigger.
Context {T : Type} {TR : Transport T} {PY : PyBuiltins} {TE : TriggerEnums}.

Definition set_track_digital_modulation (v : bool)
  : M (VersaLaseLaser * world T) unit :=
  fun s => let self := fst s in
           (Ok tt, (Laser (_conn self) (_max_power self) (_save_power self) v, snd s)).

(** The two branches of [set_trigger] that change the pulse mode, to [mode]. *)
Definition change_pulse_mode (mode : bool)
  : M (VersaLaseLaser * world T) trigger_outcome :=
  self <- get_self ;;
  emission <- on_port (get_emission_status (_conn self)) ;;
  if emission then
    on_port (set_pulse_mode (_conn self) mode) ;;
    ret TriggerSet
  else
    set_track_digital_modulation mode ;;
    raise (DeviceError
      "Failed to change to DM, but setting has been saved and will be changed once laser is enabled").

Definition set_trigger (ttype : TriggerType) (tmode : TriggerMode)
  : M (VersaLaseLaser * world T) trigger_outcome :=
  if negb (is_BULB tmode) then
    ret (UnsupportedFeature "only importriggerMode.BULB mode is supported")
  else if is_HIGH ttype then change_pulse_mode true
  else if is_SOFTWARE ttype then change_pulse_mode (negb true)
  else ret (UnsupportedFeature "only trigger type HIGH and SOFTWARE are supported").

End Trigger.

(* ================================================================= *)
(** ** The Cobolt laser *)

Module Cobolt.

(** The serial helpers [_write(command)] and [_readline()] that
    [CoboltLaser] inherits from [devices.LaserDevice], which is not among
    the sources: any port with these two operations. *)
Class SerialHelpers (P : Type) : Type := {
  helper_write : bytes -> P -> P;
  helper_readline : P -> bytes * P
}.

(** What is given to [self._logger]: a line at level info, a line at level
    error, or (in [enable]) the list [get_status] returned. *)
Inductive log_record : Type :=
| Info (line : string)
| Error (line : string)
| ErrorList (lines : list string).

Record state (P : Type) : Type := State {
  cport : P;
  cwire : list wire_event;
  clog : list log_record
}.

(** The arithmetic on powers: [1000 * x], [x / 1000.0], [y < x] (as [min]
    asks it) and ['%.4f' % x]. *)
Class PowerArith (PY : PyBuiltins) : Type := {
  times_1000 : float -> float;
  over_1000 : float -> float;
  float_lt : float -> float -> bool;
  format_4f : float -> string
}.

(** A power as [get_power_mw] returns it: the integer [0] or a float. *)
Inductive number (PY : PyBuiltins) : Type :=
| Int (n : Z)
| Float (x : float).

(** [x in y] on bytes: [x] occurs in [y] as a run of bytes. *)
Fixpoint bytes_in (x y : bytes) : bool :=
  startswith y x ||
  match y with
  | [] => false
  | _ :: y' => bytes_in x y'
  end.

Section Methods.
Context {P : Type} {SH : SerialHelpers P} {PY : PyBuiltins} {PA : PowerArith PY}.

Definition _write (command : bytes) : M (state P) unit :=
  fun s => (Ok tt, State (helper_write command (cport s))
                         (cwire s ++ [Wr command]) (clog s)).

(** One read of a line: the line, and the state after it. *)
Definition read_line (s : state P) : bytes * state P :=
  let (line, p) := helper_readline (cport s) in
  (line, State p (cwire s ++ [Rd line]) (clog s)).

Definition _readline : M (state P) bytes :=
  fun s => let (line, s') := read_line s in (Ok line, s').

Definition log (record : log_record) : M (state P) unit :=
  fun s => (Ok tt, State (cport s) (cwire s) (clog s ++ [record])).

Definition decode_text (x : bytes) : M (state P) string :=
  match py_decode x with Some t => ret t | None => raise UnicodeDecodeError end.

Definition parse_float (x : bytes) : M (state P) float :=
  match py_float x with Some v => ret v | None => raise ValueError end.

(** [@lock_comms]: the method's body under the reentrant lock, which the one
    thread there is takes and gives back. *)
Definition lock_comms {A} (body : M (state P) A) : M (state P) A := body.

Definition send (command : bytes) : M (state P) bytes :=
  _write command ;; _readline.

(** [CoboltLaser.__init__] once the port is open. *)
Definition CoboltLaser_init : M (state P) unit :=
  response <- send (b "sn?") ;;
  text <- decode_text response ;;
  log (Info ("Cobolt laser serial number: [" ++ text ++ "]")) ;;
  response <- send (b "@cobas 0") ;;
  text <- decode_text response ;;
  log (Info ("Response to @cobas 0 [" ++ text ++ "]")).

Definition status_queries : list (bytes * string) :=
  [(b "l?", "Emission on?"%string);
   (b "p?", "Target power:"%string);
   (b "pa?", "Measured power:"%string);
   (b "f?", "Fault?"%string);
   (b "hrs?", "Head operating hours:"%string)].

(** The loop of [get_status] over the queries still to make. *)
Fixpoint status_loop (queries : list (bytes * string)) (result : list string)
  : M (state P) (list string) :=
  match queries with
  | [] => ret result
  | (cmd, stat) :: queries' =>
      response <- send cmd ;;
      text <- decode_text response ;;
      status_loop queries' (result ++ [(stat ++ " " ++ text)%string])
  end.

Definition get_status : M (state P) (list string) :=
  lock_comms (status_loop status_queries []).

Definition clearFault : M (state P) (list string) :=
  lock_comms (send (b "cf") ;; get_status).

(** [flush_buffer]: the loop runs while the line read is not empty; [None]
    when [fuel] reads were not enough to see an empty line. *)
Fixpoint flush_buffer (fuel : nat) (s : state P) : option (state P) :=
  match fuel with
  | O => None
  | S fuel' =>
      let (line, s') := read_line s in
      if (0 <? len line)%Z then flush_buffer fuel' s' else Some s'
  end.

Definition is_alive : M (state P) bool :=
  lock_comms (response <- send (b "l?") ;; ret (bytes_in response (b "01"))).

Definition get_is_on : M (state P) bool :=
  lock_comms (response <- send (b "l?") ;; ret (bytes_eqb response (b "1"))).

Definition newline : string := String CR (String LF EmptyString).

Definition enable : M (state P) bool :=
  lock_comms
    (log (Info "Turning laser ON.") ;;
     response <- send (b "l1") ;;
     text <- decode_text response ;;
     log (Info ("l1: [" ++ text ++ "]")) ;;
     on <- get_is_on ;;
     if negb on then
       log (Error ("Failed to turn on. Current status:" ++ newline)) ;;
       status <- get_status ;;
       log (ErrorList status) ;;
       ret false
     else ret true).

Definition disable : M (state P) string :=
  lock_comms
    (log (Info "Turning laser OFF.") ;;
     response <- send (b "l0") ;;
     decode_text response).

Definition get_max_power_mw : M (state P) float :=
  lock_comms (response <- send (b "gmlp?") ;; parse_float response).

Definition get_power_mw : M (state P) (number PY) :=
  lock_comms
    (on <- get_is_on ;;
     if negb on then ret (Int PY 0)
     else
       response <- send (b "pa?") ;;
       x <- parse_float response ;;
       ret (Float PY (times_1000 x))).

(** [min(mW, maximum)]: the first argument unless the second is less. *)
Definition float_min (mW maximum : float) : float :=
  if float_lt maximum mW then maximum else mW.

Definition _set_power_mw (mW : float) : M (state P) bytes :=
  lock_comms
    (maximum <- get_max_power_mw ;;
     let W_str := format_4f (over_1000 (float_min mW maximum)) in
     log (Info ("Setting laser power to " ++ W_str ++ " W.")) ;;
     send (b "@cobasp " ++ list_ascii_of_string W_str)).

Definition get_set_power_mw : M (state P) float :=
  lock_comms
    (response <- send (b "p?") ;;
     x <- parse_float response ;;
     ret (times_1000 x)).

(** [initialize] and [_on_shutdown], which flush the buffer: [None] when
    [fuel] reads did not end the flushing. *)
Definition initialize (fuel : nat) (s : state P) : option (result unit * state P) :=
  match flush_buffer fuel s with
  | None => None
  | Some s1 => Some ((send (b "@cobasdr 0") ;; send (b "@cob1") ;; ret tt) s1)
  end.

Definition _on_shutdown (fuel : nat) (s : state P) : option (result unit * state P) :=
  match (disable ;; send (b "@cob0")) s with
  | (Raise e, s1) => Some (Raise e, s1)
  | (Ok _, s1) =>
      match flush_buffer fuel s1 with
      | None => None
      | Some s2 => Some (Ok tt, s2)
      end
  end.

End Methods.

(** The commands written so far. *)
Definition csent {P} (s : state P) : list bytes := sent_of (cwire s).

(** The lines read so far. *)
Fixpoint reads_of (evs : list wire_event) : list bytes :=
  match evs with
  | [] => []
  | Wr _ :: evs' => reads_of evs'
  | Rd d :: evs' => d :: reads_of evs'
  end.

(** The lines the next [n] reads of a port give, and the port after them. *)
Fixpoint next_lines {P} {SH : SerialHelpers P} (n : nat) (p : P) : list bytes * P :=
  match n with
  | O => ([], p)
  | S n' =>
      let (line, p1) := helper_readline p in
      let (lines, p2) := next_lines n' p1 in
      (line :: lines, p2)
  end.

(** A port that answers from a script: each read takes the next line, and
    nothing is left to read when the script is over. *)
Record scripted : Type := Scripted { script : list bytes }.

#[global] Instance scripted_helpers : SerialHelpers scripted := {
  helper_write _ p := p;
  helper_readline p :=
    match script p with
    | [] => ([], p)
    | line :: rest => (line, Scripted rest)
    end
}.

#[global] Instance decimal_arith : PowerArith Sim.decimal_builtins := {
  times_1000 x := (x * 1000)%Z;
  over_1000 x := (x / 1000)%Z;
  float_lt x y := (x <? y)%Z;
  format_4f x := string_of_list_ascii (Sim.format_tenths x ++ b "000")
}.

Definition playing (lines : list bytes) : state scripted :=
  State (Scripted lines) [] [].

End Cobolt.

(** Members of the trigger enumerations, for closed examples: [HIGH] is the
    rising edge. *)
Module SimTrigger.

Inductive trigger_type : Type := SOFTWARE | RISING_EDGE | FALLING_EDGE | PULSE.
Inductive trigger_mode : Type := ONCE | BULB | STROBE | START.

#[global] Instance enums : TriggerEnums := {
  TriggerType := trigger_type;
  TriggerMode := trigger_mode;
  is_HIGH t := match t with RISING_EDGE => true | _ => false end;
  is_SOFTWARE t := match t with SOFTWARE => true | _ => false end;
  is_BULB m := match m with BULB => true | _ => false end
}.

End SimTrigger.

(** A computation that logs nothing, however it ends. *)
Definition silent {T A} (m : M (world T) A) : Prop :=
  forall w, logged (snd (m w)) = logged w.

(* ================================================================= *)
(** * Properties *)

(** ** Bytes, prefixes, suffixes and slices *)

Lemma bytes_eqb_eq (x y : bytes) : bytes_eqb x y = true <-> x = y.
Proof.
  revert y; induction x as [|c x IH]; intros [|d y]; simpl;
    try (split; [discriminate | intros H; inversion H]).
  - tauto.
  - rewrite andb_true_iff, Ascii.eqb_eq, IH.
    split; [intros [-> ->]; reflexivity | intros H; inversion H; auto].
Qed.

Lemma bytes_eqb_refl (x : bytes) : bytes_eqb x x = true.
Proof. apply bytes_eqb_eq; reflexivity. Qed.

Lemma bytes_eqb_neq (x y : bytes) : bytes_eqb x y = false <-> x <> y.
Proof.
  rewrite <- bytes_eqb_eq. destruct (bytes_eqb x y); split; congruence.
Qed.

Lemma startswith_prefix (s p : bytes) :
  startswith s p = true <-> exists r, s = p ++ r.
Proof.
  revert s; induction p as [|d p IH]; intros s.
  - split; [exists s; reflexivity | destruct s; reflexivity].
  - destruct s as [|c s]; simpl.
    + split; [discriminate | intros [r H]; discriminate].
    + rewrite andb_true_iff, Ascii.eqb_eq, IH. split.
      * intros [-> [r ->]]. exists r; reflexivity.
      * intros [r H]. inversion H; subst. split; [reflexivity | exists r; reflexivity].
Qed.

Lemma ends_with_suffix (s t : bytes) :
  ends_with s t = true <-> exists p, s = p ++ t.
Proof.
  unfold ends_with. rewrite startswith_prefix. split.
  - intros [r H]. exists (rev r).
    rewrite <- (rev_involutive s), H, rev_app_distr, rev_involutive; reflexivity.
  - intros [p ->]. exists (rev p). apply rev_app_distr.
Qed.

Lemma skipn_suffix (s t : bytes) :
  skipn (List.length s - List.length t) s = t <-> exists p, s = p ++ t.
Proof.
  split.
  - intros H. exists (firstn (List.length s - List.length t) s).
    rewrite <- (firstn_skipn (List.length s - List.length t) s) at 1.
    f_equal. exact H.
  - intros [p ->]. rewrite length_app.
    replace (List.length p + List.length t - List.length t) with (List.length p + 0) by lia.
    rewrite skipn_app, Nat.add_0_r, skipn_all.
    replace (List.length p - List.length p) with 0 by lia. reflexivity.
Qed.

Lemma ends_with_skipn (s t : bytes) :
  ends_with s t = bytes_eqb (skipn (List.length s - List.length t) s) t.
Proof.
  apply eq_true_iff_eq.
  rewrite ends_with_suffix, bytes_eqb_eq, skipn_suffix; reflexivity.
Qed.

Lemma drop_last_firstn (k : nat) (s : bytes) :
  drop_last k s = firstn (List.length s - k) s.
Proof.
  unfold drop_last. rewrite skipn_rev, rev_involutive. reflexivity.
Qed.

(** [s[-k:]] are the last [k] bytes. *)
Lemma py_slice_last (s : bytes) (k : nat) :
  0 < k ->
  py_slice s (Some (- Z.of_nat k)%Z) None = skipn (List.length s - k) s.
Proof.
  intros Hk. unfold py_slice, slice_bound.
  destruct (Z.ltb_spec (- Z.of_nat k) 0) as [_|]; [|lia].
  replace (Z.to_nat (Z.max (- Z.of_nat k + Z.of_nat (List.length s)) 0))
    with (List.length s - k) by lia.
  apply firstn_all2. rewrite length_skipn. lia.
Qed.

(** [s[a:-k]] drops [a] bytes in front and [k] bytes at the end. *)
Lemma py_slice_middle (s : bytes) (a k : nat) :
  0 < k ->
  py_slice s (Some (Z.of_nat a)) (Some (- Z.of_nat k)%Z)
  = firstn (List.length s - k - a) (skipn a s).
Proof.
  intros Hk. unfold py_slice, slice_bound.
  destruct (Z.ltb_spec (- Z.of_nat k) 0) as [_|]; [|lia].
  destruct (Z.ltb_spec (Z.of_nat a) 0) as [|_]; [lia|].
  destruct (Nat.le_gt_cases a (List.length s)) as [Ha|Ha].
  - replace (Z.to_nat (Z.min (Z.of_nat a) (Z.of_nat (List.length s)))) with a by lia.
    f_equal. lia.
  - rewrite (skipn_all2 (n := a)) by lia.
    rewrite skipn_all2 by lia. now rewrite !firstn_nil.
Qed.

(** [s[:n]] are the first [n] bytes. *)
Lemma py_slice_first (s : bytes) (n : nat) :
  py_slice s None (Some (Z.of_nat n)) = firstn n s.
Proof.
  unfold py_slice, slice_bound.
  destruct (Z.ltb_spec (Z.of_nat n) 0) as [|_]; [lia|].
  simpl skipn. rewrite Z.sub_0_r.
  destruct (Nat.le_gt_cases n (List.length s)) as [Hn|Hn].
  - f_equal. lia.
  - rewrite !firstn_all2 by lia. reflexivity.
Qed.

Lemma len_succ (s : bytes) : (len s + 1)%Z = Z.of_nat (List.length s + 1).
Proof. unfold len. lia. Qed.

(* ----------------------------------------------------------------- *)
(** ** Parsing a boolean reply *)

(** C8: [_parse_bool] gives true exactly on [b"1"], false exactly on [b"0"],
    and on every other reply (such as [b"2"]) fails the assertion instead of
    giving a truth value. *)
Theorem parse_bool_exact (answer : bytes) :
  (_parse_bool answer = Ok true <-> answer = b "1") /\
  (_parse_bool answer = Ok false <-> answer = b "0") /\
  (_parse_bool answer = Raise AssertionError <-> answer <> b "0" /\ answer <> b "1") /\
  _parse_bool (b "2") = Raise AssertionError.
Proof.
  unfold _parse_bool.
  destruct (bytes_eqb answer (b "0")) eqn:E0; destruct (bytes_eqb answer (b "1")) eqn:E1;
    simpl; try rewrite bytes_eqb_eq in *; try rewrite bytes_eqb_neq in *;
    repeat split; intros; subst; try congruence; try discriminate; try tauto.
Qed.

(* ----------------------------------------------------------------- *)
(** ** Decoding a reply *)

Lemma strip_reply_slices (command answer : bytes) (k : nat) :
  0 < k ->
  (if bytes_eqb (py_slice answer (Some (len command + 1)%Z) (Some (- Z.of_nat k)%Z)) []
   then Ok (py_slice answer None (Some (len command)))
   else Ok (py_slice answer (Some (len command + 1)%Z) (Some (- Z.of_nat k)%Z)))
  = Ok (strip_reply command answer k).
Proof.
  intros Hk. unfold strip_reply.
  rewrite len_succ, py_slice_middle by assumption.
  unfold len. rewrite py_slice_first, drop_last_firstn, length_skipn.
  replace (List.length answer - (List.length command + 1) - k)
    with (List.length answer - k - (List.length command + 1)) by lia.
  destruct (firstn _ (skipn _ answer)); reflexivity.
Qed.

(** [_command]'s decoding, with its slices read as suffix tests and
    strippings. *)
Lemma command_decode_shapes (command answer : bytes) :
  _command_decode command answer =
  if bytes_eqb answer CRLF || bytes_eqb answer [] then
    Raise (DeviceError ("Failed to set command " ++ repr_bytes answer))
  else if ends_with answer CRCRLF then Ok (strip_reply command answer 3)
  else if ends_with answer CRLF then Ok (strip_reply command answer 2)
  else Raise AssertionError.
Proof.
  unfold _command_decode.
  change (-3)%Z with (- Z.of_nat 3)%Z. change (-2)%Z with (- Z.of_nat 2)%Z.
  rewrite !strip_reply_slices by lia.
  rewrite !py_slice_last by lia.
  rewrite !ends_with_skipn. reflexivity.
Qed.

(** C1, as amended: on every reply that section 4.2 speaks of, [_command]'s
    decoding is the reference definition of steps 6 to 8, a rejected command
    being reported as the module's [DeviceError] with the message
    ["Failed to set command "] followed by the [repr] of the reply. *)
Theorem command_decode_refines_spec (command answer : bytes) (r : framed) :
  spec_decode command answer = Some r ->
  _command_decode command answer =
  match r with
  | Rejected => Raise (DeviceError ("Failed to set command " ++ repr_bytes answer))
  | Payload body => Ok body
  end.
Proof.
  rewrite command_decode_shapes. unfold spec_decode.
  destruct answer as [|c answer].
  - intros H; inversion H; reflexivity.
  - replace (bytes_eqb (c :: answer) []) with false by reflexivity.
    rewrite orb_false_r.
    destruct (bytes_eqb (c :: answer) CRLF).
    + intros H; inversion H; reflexivity.
    + destruct (ends_with (c :: answer) CRCRLF).
      * intros H; inversion H; reflexivity.
      * destruct (ends_with (c :: answer) CRLF); intros H; inversion H; reflexivity.
Qed.

Lemma command_decode_refines_spec_witness :
  _command_decode (b "?LW") (b "?LW=488" ++ CRLF) = Ok (b "488").
Proof.
  exact (command_decode_refines_spec (b "?LW") (b "?LW=488" ++ CRLF)
           (r := Payload (b "488")) eq_refl).
Defined.

(** C1, as stated, fails on the empty reply: the spec's reference definition
    rejects it, and the exception [_command] raises for it is neither of the
    class [ProtocolError] nor carries the message ["command rejected"]. *)
Lemma command_rejected_is_DeviceError :
  spec_decode (b "?LW") [] = Some Rejected /\
  _command_decode (b "?LW") [] = Raise (DeviceError "Failed to set command b''") /\
  ~ fails_with "ProtocolError" "command rejected" (_command_decode (b "?LW") []).
Proof.
  split; [reflexivity|]. split; [reflexivity|].
  intros [e [H [Hc _]]]. inversion H; subst e. discriminate Hc.
Qed.




(** With the echo, an empty payload decodes to the echoed command. *)
Lemma decode_encode_empty_payload :
  _command_decode (b "?LW") (encode_reply (Some (b "?LW", "="%char)) [] CRLF)
  = Ok (b "?LW").
Proof. reflexivity. Qed.

(* ----------------------------------------------------------------- *)
(** ** What a call writes to the port *)

Lemma sent_of_app (xs ys : list wire_event) :
  sent_of (xs ++ ys) = sent_of xs ++ sent_of ys.
Proof.
  induction xs as [|[d|d] xs IH]; simpl; rewrite ?IH; reflexivity.
Qed.

Lemma sent_of_reads (lines : list bytes) : sent_of (map Rd lines) = [].
Proof. induction lines; simpl; auto. Qed.

(** An outcome is known from what it returns: the world is the one the run
    leaves. *)
Lemma outcome_of_fst {A B : Type} (p : A * B) (x : A) :
  fst p = x -> p = (x, snd p).
Proof. intros <-. apply surjective_pairing. Qed.

Section Wire.
Context {T : Type} {TR : Transport T}.

(** A transaction always runs to its end and leaves exactly three events on
    the wire: the command line written, and the two lines read. *)
Lemma command_io_wire (command : bytes) (w : world T) :
  exists echo answer p,
    _command_io command w
    = (Ok answer,
       World p (wire w ++ [Wr (command ++ [CR]); Rd echo; Rd answer]) (logged w)).
Proof.
  unfold _command_io, with_lock, bind, serial_write, serial_readline, serial_read_until.
  simpl.
  destruct (port_readline (port_write (command ++ [CR]) (port w))) as [echo p1].
  simpl. destruct (port_read_until CRLF p1) as [answer p2].
  exists echo, answer, p2. rewrite <- !app_assoc. reflexivity.
Qed.

Lemma command_io_sent (command : bytes) (w : world T) :
  sent (snd (_command_io command w)) = sent w ++ [command ++ [CR]] /\
  logged (snd (_command_io command w)) = logged w.
Proof.
  destruct (command_io_wire command w) as (echo & answer & p & ->).
  unfold sent; simpl. rewrite sent_of_app. split; reflexivity.
Qed.

Lemma command_sent (command : bytes) (w : world T) :
  sent (snd (_command command w)) = sent w ++ [command ++ [CR]] /\
  logged (snd (_command command w)) = logged w.
Proof.
  unfold _command, bind, lift_result.
  pose proof (command_io_sent command w) as H.
  destruct (_command_io command w) as [[answer|e] w']; exact H.
Qed.

Lemma command_unfold (command : bytes) (w : world T) :
  exists answer,
    _command_io command w = (Ok answer, snd (_command_io command w)) /\
    _command command w = (_command_decode command answer, snd (_command_io command w)).
Proof.
  destruct (command_io_wire command w) as (echo & answer & p & E).
  exists answer. unfold _command, bind, lift_result. rewrite E. split; reflexivity.
Qed.

(* ----------------------------------------------------------------- *)
(** ** The handshake *)

(** C7: when the first line read after the version query is not exactly
    CR LF, or the second line does not start with [?SPV=], opening the
    connection fails with the handshake's [DeviceError] (device or protocol
    not recognised), and the version query is all that was written: neither
    [ECHO=0] nor [PROMPT=0] went out. *)
Theorem handshake_rejection (w : world T) :
  fst (handshake_lines (port w)) <> CRLF \/
  startswith (snd (handshake_lines (port w))) (b "?SPV=") = false ->
  exists msg w',
    VersaLaseConnection_init w = (Raise (DeviceError msg), w') /\
    (msg = "not a Vortran Laser device"%string \/
     msg = "not a Vortran VersaLase device"%string) /\
    sent w' = sent w ++ [b "?SPV" ++ [CR]] /\
    ~ In (b "ECHO=0" ++ [CR]) (skipn (List.length (sent w)) (sent w')) /\
    ~ In (b "PROMPT=0" ++ [CR]) (skipn (List.length (sent w)) (sent w')).
Proof.
  unfold handshake_lines, VersaLaseConnection_init, with_lock, bind,
    serial_readlines, serial_write, serial_readline, raise, ret.
  set (version_query := b "?SPV" ++ [CR]). set (tag := b "?SPV=").
  destruct (port_readlines (port w)) as [stale p0]. simpl.
  destruct (port_readline (port_write version_query p0)) as [first p2]. simpl.
  assert (Hsent : forall (p : T) evs l,
             sent (World p (((wire w ++ map Rd stale) ++ [Wr version_query]) ++ map Rd evs) l)
             = sent w ++ [version_query]).
  { intros p evs l. unfold sent. simpl.
    rewrite !sent_of_app, !sent_of_reads, !app_nil_r. reflexivity. }
  assert (Hskip : skipn (List.length (sent w)) (sent w ++ [version_query])
                  = [version_query]).
  { rewrite skipn_app, skipn_all, Nat.sub_diag. reflexivity. }
  assert (Hout : ~ In (b "ECHO=0" ++ [CR]) [version_query] /\
                 ~ In (b "PROMPT=0" ++ [CR]) [version_query]).
  { split; simpl; intuition discriminate. }
  destruct (bytes_eqb first CRLF) eqn:E1; simpl.
  - apply bytes_eqb_eq in E1.
    destruct (port_readline p2) as [second p3]. simpl.
    intros [H|H]; [congruence|]. rewrite H. simpl.
    eexists _, _. split; [reflexivity|]. split; [right; reflexivity|].
    rewrite <- (app_assoc _ [Rd first] [Rd second]).
    rewrite (Hsent p3 [first; second]), Hskip. split; [reflexivity | exact Hout].
  - intros _. eexists _, _. split; [reflexivity|]. split; [left; reflexivity|].
    rewrite (Hsent p2 [first]), Hskip. split; [reflexivity | exact Hout].
Qed.

End Wire.

Lemma handshake_rejection_witness :
  exists msg w',
    VersaLaseConnection_init Sim.stranger
    = (Raise (DeviceError msg), w') /\
    (msg = "not a Vortran Laser device"%string \/
     msg = "not a Vortran VersaLase device"%string) /\
    sent w' = sent Sim.stranger ++ [b "?SPV" ++ [CR]] /\
    ~ In (b "ECHO=0" ++ [CR])
         (skipn (List.length (sent Sim.stranger)) (sent w')) /\
    ~ In (b "PROMPT=0" ++ [CR])
         (skipn (List.length (sent Sim.stranger)) (sent w')).
Proof.
  apply (handshake_rejection Sim.stranger).
  left. vm_compute. discriminate.
Defined.

(** A port that answers the handshake is taken through to the suppression
    commands, so the rejection above is not the only course. *)
Lemma handshake_accepted_example :
  sent (snd (VersaLaseConnection_init (Sim.fresh (Sim.versalase []))))
  = [b "?SPV" ++ [CR]; b "ECHO=0" ++ [CR]; b "PROMPT=0" ++ [CR]].
Proof. reflexivity. Qed.

(* ----------------------------------------------------------------- *)
(** ** The accessors of a laser *)

Section Accessors.
Context {T : Type} {TR : Transport T} {PY : PyBuiltins}.

Lemma laser_query_unfold (self : VersaLaseLaserConnection) (name : bytes) (w : world T) :
  sent (snd (_laser_query self name w))
  = sent w ++ [query_line (_param_prefix self) name] /\
  logged (snd (_laser_query self name w)) = logged w.
Proof.
  unfold _laser_query, query_line.
  destruct (command_sent (_param_prefix self ++ b "?" ++ name) w) as [H1 H2].
  rewrite H1, H2, <- app_assoc. split; reflexivity.
Qed.

Lemma laser_command_unfold (self : VersaLaseLaserConnection) (name value : bytes)
  (w : world T) :
  sent (snd (_laser_command self name value w))
  = sent w ++ [change_line (_param_prefix self) name value] /\
  logged (snd (_laser_command self name value w)) = logged w.
Proof.
  unfold _laser_command, param_command, change_line, bind, ret.
  destruct (command_sent ((_param_prefix self ++ name) ++ b "=" ++ value) w) as [H1 H2].
  destruct (_command _ w) as [[answer|e] w']; simpl in *;
    rewrite H1, H2, <- !app_assoc; split; reflexivity.
Qed.

Lemma get_bool_unfold (self : VersaLaseLaserConnection) (name : bytes) (w : world T) :
  snd (get_bool self name w) = snd (_laser_query self name w).
Proof.
  unfold get_bool, bind, lift_result.
  destruct (_laser_query self name w) as [[x|e] w']; reflexivity.
Qed.

Lemma get_int_unfold (self : VersaLaseLaserConnection) (name : bytes) (w : world T) :
  snd (get_int self name w) = snd (_laser_query self name w).
Proof.
  unfold get_int, bind, int_of, ret, raise.
  destruct (_laser_query self name w) as [[x|e] w']; [destruct (py_int x)|]; reflexivity.
Qed.

Lemma get_float_unfold (self : VersaLaseLaserConnection) (name : bytes) (w : world T) :
  snd (get_float self name w) = snd (_laser_query self name w).
Proof.
  unfold get_float, bind, float_of, ret, raise.
  destruct (_laser_query self name w) as [[x|e] w']; [destruct (py_float x)|]; reflexivity.
Qed.

(** C9, as amended: when the reply to a numeric accessor's query does not
    parse as a number of its kind, the accessor fails at once with the
    built-in's [ValueError] (not with an error of the module), leaving the
    port as the query left it; no value is made up. *)
Theorem numeric_reply_ValueError (self : VersaLaseLaserConnection) (name x : bytes)
  (w w' : world T) :
  _laser_query self name w = (Ok x, w') ->
  (py_int x = None -> get_int self name w = (Raise ValueError, w')) /\
  (py_float x = None -> get_float self name w = (Raise ValueError, w')) /\
  (forall y w0 w0', query (b "BPT") w0 = (Ok y, w0') -> py_int y = None ->
                    base_plate_temperature w0 = (Raise ValueError, w0')) /\
  is_DeviceError ValueError = false /\
  get_wavelength self = get_int self (b "LW") /\
  get_operating_hours self = get_int self (b "LH") /\
  get_pulse_power self = get_int self (b "PP") /\
  get_power self = get_float self (b "LP") /\
  get_power_setting self = get_float self (b "LPS") /\
  get_max_power self = get_float self (b "MAXP").
Proof.
  intros H. unfold get_int, get_float, base_plate_temperature, bind, int_of,
    float_of, raise.
  rewrite H. repeat split; try (intros ->; reflexivity).
  intros y w0 w0' Hq Hy. rewrite Hq, Hy. reflexivity.
Qed.

(* ----------------------------------------------------------------- *)
(** ** Writes gated by the emission state *)

(** A [DeviceError] out of the decoding of a reply says that the command
    failed, and quotes the reply. *)
Lemma command_decode_DeviceError (command answer : bytes) (msg : string) :
  _command_decode command answer = Raise (DeviceError msg) ->
  msg = ("Failed to set command " ++ repr_bytes answer)%string.
Proof.
  unfold _command_decode.
  destruct (bytes_eqb answer CRLF || bytes_eqb answer []).
  - intros H; inversion H; reflexivity.
  - destruct (bytes_eqb (py_slice answer (Some (-3)%Z) None) CRCRLF).
    + destruct (bytes_eqb _ []); discriminate.
    + destruct (bytes_eqb (py_slice answer (Some (-2)%Z) None) CRLF);
        [destruct (bytes_eqb _ []) |]; discriminate.
Qed.

Lemma command_DeviceError (command : bytes) (msg : string) (w w' : world T) :
  _command command w = (Raise (DeviceError msg), w') ->
  exists answer, msg = ("Failed to set command " ++ repr_bytes answer)%string.
Proof.
  destruct (command_unfold command w) as (answer & _ & ->).
  intros H. inversion H as [[Hd Hw]]. exists answer.
  apply command_decode_DeviceError in Hd. exact Hd.
Qed.

Lemma laser_command_DeviceError (self : VersaLaseLaserConnection) (name value : bytes)
  (msg : string) (w w' : world T) :
  _laser_command self name value w = (Raise (DeviceError msg), w') ->
  exists answer, msg = ("Failed to set command " ++ repr_bytes answer)%string.
Proof.
  unfold _laser_command, param_command, bind, ret.
  destruct (_command _ w) as [[x|e] w1] eqn:E; [discriminate|].
  intros H; inversion H; subst. apply command_DeviceError in E. exact E.
Qed.

Lemma get_bool_DeviceError (self : VersaLaseLaserConnection) (name : bytes)
  (msg : string) (w w' : world T) :
  get_bool self name w = (Raise (DeviceError msg), w') ->
  exists answer, msg = ("Failed to set command " ++ repr_bytes answer)%string.
Proof.
  unfold get_bool, _laser_query, bind, lift_result, _parse_bool.
  destruct (_command _ w) as [[x|e] w1] eqn:E.
  - destruct (bytes_eqb x (b "0") || bytes_eqb x (b "1")); discriminate.
  - intros H; inversion H; subst. apply command_DeviceError in E. exact E.
Qed.

(** C5, as amended: with the emission off, [_do_set_power] sends nothing but
    the query of the emission state (no [LP=] command), stores the power
    times the cached maximum in [_save_power], and fails with a
    [DeviceError], the class of every failure the module raises, whose
    message says that the setting was saved.  Only the message tells it from
    a device failure: whenever the setter raises a [DeviceError], either the
    emission was read as off and the message is this one, or the message is
    that of a command that failed, which reads otherwise. *)
Theorem power_write_deferred (self : VersaLaseLaser) (power : float) (w w1 : world T) :
  get_emission_status (_conn self) w = (Ok false, w1) ->
  _do_set_power power (self, w)
  = (Raise (DeviceError
       "Failed to set power, laser is not enabled. But power setting has been saved"),
     (Laser (_conn self) (_max_power self) (float_mul power (_max_power self))
            (_track_digital_modulation self), w1)) /\
  sent w1 = sent w ++ [query_line (_param_prefix (_conn self)) (b "LE")] /\
  ~ In (change_line (_param_prefix (_conn self)) (b "LP")
          (format_1f (float_mul power (_max_power self))))
       (skipn (List.length (sent w)) (sent w1)) /\
  is_DeviceError
    (DeviceError
       "Failed to set power, laser is not enabled. But power setting has been saved")
  = true /\
  (forall (w0 : world T) (msg : string) (s' : VersaLaseLaser * world T),
     _do_set_power power (self, w0) = (Raise (DeviceError msg), s') ->
     (msg = "Failed to set power, laser is not enabled. But power setting has been saved"%string
      /\ exists w0', get_emission_status (_conn self) w0 = (Ok false, w0'))
     \/
     (msg <> "Failed to set power, laser is not enabled. But power setting has been saved"%string
      /\ exists answer, msg = ("Failed to set command " ++ repr_bytes answer)%string)).
Proof.
  intros H.
  assert (Hsent : sent w1 = sent w ++ [query_line (_param_prefix (_conn self)) (b "LE")]).
  { pose proof (get_bool_unfold (_conn self) (b "LE") w) as E.
    unfold get_emission_status in H. rewrite H in E. simpl in E. rewrite E.
    apply laser_query_unfold. }
  split; [|split; [exact Hsent | split; [|split; [reflexivity|]]]].
  - unfold _do_set_power, bind, get_self, on_port, set_save_power, raise. simpl.
    rewrite H. reflexivity.
  - rewrite Hsent, skipn_app, skipn_all, Nat.sub_diag. simpl.
    intros [E|[]]. unfold change_line, query_line in E.
    rewrite <- (app_assoc (_param_prefix (_conn self))) in E.
    apply app_inv_head in E. discriminate E.
  - intros w0 msg s'.
    unfold _do_set_power, bind, get_self, on_port, set_save_power, raise.
    cbn [fst snd].
    destruct (get_emission_status (_conn self) w0) as [[[|]|e] w0'] eqn:E0;
      cbn [fst snd].
    + unfold set_power.
      match goal with
      | |- context [_laser_command ?c ?n ?v w0'] =>
          destruct (_laser_command c n v w0') as [[u|e] w2] eqn:E2; [discriminate|]
      end.
      intros Hr; inversion Hr; subst. right.
      apply laser_command_DeviceError in E2. destruct E2 as [answer ->].
      split; [discriminate | exists answer; reflexivity].
    + intros Hr; inversion Hr; subst. left.
      split; [reflexivity | exists w0'; reflexivity].
    + intros Hr; inversion Hr; subst. right.
      apply get_bool_DeviceError in E0. destruct E0 as [answer ->].
      split; [discriminate | exists answer; reflexivity].
Qed.

(** C6: on enabling, after [LE=1] the power setting is compared first.
    When it differs from the saved power, the one further command is [LP=]
    with the saved power and the pulse mode is neither asked for nor set;
    only when it agrees is the pulse mode asked for, and set when it
    differs from the saved one. *)
Theorem enable_reconciles_one_field (self : VersaLaseLaser) (setting : float)
  (w w1 w2 : world T) :
  set_emission (_conn self) true w = (Ok tt, w1) ->
  get_power_setting (_conn self) w1 = (Ok setting, w2) ->
  let prefix := _param_prefix (_conn self) in
  let after := snd (_do_enable (self, w)) in
  fst after = self /\
  (float_ne setting (_save_power self) = true ->
   sent (snd after)
   = sent w ++ [change_line prefix (b "LE") (b "1");
                query_line prefix (b "LPS");
                change_line prefix (b "LP") (format_1f (_save_power self))]) /\
  (float_ne setting (_save_power self) = false ->
   forall (mode : bool) (w3 : world T),
     get_pulse_mode (_conn self) w2 = (Ok mode, w3) ->
     sent (snd after)
     = sent w ++ [change_line prefix (b "LE") (b "1");
                  query_line prefix (b "LPS");
                  query_line prefix (b "PUL")]
              ++ (if Bool.eqb mode (_track_digital_modulation self) then []
                  else [change_line prefix (b "PUL")
                          (bool_value (_track_digital_modulation self))])).
Proof.
  intros H1 H2 prefix after.
  assert (S1 : sent w1 = sent w ++ [change_line prefix (b "LE") (b "1")]).
  { pose proof (proj1 (laser_command_unfold (_conn self) (b "LE") (b "1") w)) as E.
    unfold set_emission in H1. change (bool_value true) with (b "1") in H1.
    rewrite H1 in E. exact E. }
  assert (S2 : sent w2 = sent w1 ++ [query_line prefix (b "LPS")]).
  { pose proof (get_float_unfold (_conn self) (b "LPS") w1) as E.
    unfold get_power_setting in H2. rewrite H2 in E. simpl in E. rewrite E.
    apply laser_query_unfold. }
  assert (E : _do_enable (self, w)
              = if float_ne setting (_save_power self) then
                  on_port (set_power (_conn self) (_save_power self)) (self, w2)
                else
                  (pulse_mode <- on_port (get_pulse_mode (_conn self)) ;;
                   if negb (Bool.eqb pulse_mode (_track_digital_modulation self)) then
                     on_port (set_pulse_mode (_conn self) (_track_digital_modulation self))
                   else ret tt) (self, w2)).
  { unfold _do_enable, bind at 1 2 3, get_self, on_port at 1 2. simpl.
    rewrite H1. simpl. rewrite H2.
    destruct (float_ne setting (_save_power self)); reflexivity. }
  subst after. rewrite E. clear E.
  destruct (float_ne setting (_save_power self)).
  - unfold on_port. simpl.
    destruct (set_power (_conn self) (_save_power self) w2) as [r w3] eqn:E3.
    simpl. split; [reflexivity|]. split; [|discriminate]. intros _.
    pose proof (proj1 (laser_command_unfold (_conn self) (b "LP")
                         (format_1f (_save_power self)) w2)) as E.
    unfold set_power in E3. rewrite E3 in E. simpl in E.
    rewrite E, S2, S1, <- !app_assoc. reflexivity.
  - unfold bind, on_port, ret. simpl.
    destruct (get_pulse_mode (_conn self) w2) as [[mode|e] w3] eqn:E3; simpl.
    + assert (S3 : sent w3 = sent w2 ++ [query_line prefix (b "PUL")]).
      { pose proof (get_bool_unfold (_conn self) (b "PUL") w2) as E.
        unfold get_pulse_mode in E3. rewrite E3 in E. simpl in E. rewrite E.
        apply laser_query_unfold. }
      destruct (Bool.eqb mode (_track_digital_modulation self)) eqn:Em; simpl.
      * split; [reflexivity|]. split; [discriminate|].
        intros _ mode' w3' Hm. inversion Hm; subst mode' w3'. rewrite Em.
        rewrite S3, S2, S1, <- !app_assoc. reflexivity.
      * destruct (set_pulse_mode (_conn self) (_track_digital_modulation self) w3)
          as [r w4] eqn:E4. simpl.
        split; [reflexivity|]. split; [discriminate|].
        intros _ mode' w3' Hm. inversion Hm; subst mode' w3'. rewrite Em.
        pose proof (proj1 (laser_command_unfold (_conn self) (b "PUL")
                      (bool_value (_track_digital_modulation self)) w3)) as E.
        unfold set_pulse_mode in E4. rewrite E4 in E. simpl in E.
        rewrite E, S3, S2, S1, <- !app_assoc. reflexivity.
    + split; [reflexivity|]. split; [discriminate|].
      intros _ mode' w3' Hm. discriminate Hm.
Qed.

End Accessors.

Lemma numeric_reply_ValueError_witness :
  get_wavelength (LaserConnection (b "1.")) Sim.garbled_wavelength
  = (Raise ValueError,
     snd (_laser_query (LaserConnection (b "1.")) (b "LW") Sim.garbled_wavelength)).
Proof.
  exact (proj1 (@numeric_reply_ValueError _ _ Sim.decimal_builtins
                  (LaserConnection (b "1.")) (b "LW") (b "abc")
                  Sim.garbled_wavelength _ eq_refl) eq_refl).
Defined.

(** C9, as stated, fails on a wavelength that reads [abc]: the call ends in
    the built-in's [ValueError], which is no [ProtocolError] and no error of
    the module either. *)
Lemma garbled_wavelength_is_ValueError :
  fst (get_wavelength (LaserConnection (b "1.")) Sim.garbled_wavelength)
  = Raise ValueError /\
  ~ fails_with_class "ProtocolError"
      (fst (get_wavelength (LaserConnection (b "1.")) Sim.garbled_wavelength)) /\
  ~ fails_with_class "DeviceError"
      (fst (get_wavelength (LaserConnection (b "1.")) Sim.garbled_wavelength)).
Proof.
  assert (E : fst (get_wavelength (LaserConnection (b "1.")) Sim.garbled_wavelength)
              = Raise ValueError) by reflexivity.
  rewrite E. repeat split; intros [e [H Hc]]; inversion H; subst e; discriminate Hc.
Qed.

Lemma power_write_deferred_witness :
  fst (_do_set_power (PY := Sim.decimal_builtins) 5%Z (Sim.laser2, Sim.three_lasers))
  = Raise (DeviceError
      "Failed to set power, laser is not enabled. But power setting has been saved") /\
  sent (snd (get_emission_status (_conn Sim.laser2) Sim.three_lasers))
  = [b "2.?LE" ++ [CR]].
Proof.
  assert (Hoff : get_emission_status (_conn Sim.laser2) Sim.three_lasers
                 = (Ok false, snd (get_emission_status (_conn Sim.laser2) Sim.three_lasers)))
    by reflexivity.
  destruct (@power_write_deferred _ _ Sim.decimal_builtins Sim.laser2 5%Z
              Sim.three_lasers _ Hoff) as (H1 & H2 & _).
  split; [rewrite H1; reflexivity | exact H2].
Defined.

(** C5, as stated, fails: the module has no error of its own for the
    deferred write.  What the setter raises with the emission off and what
    it raises when the device rejects the query of the emission state (here
    slot 1, which holds no laser) are both [DeviceError]s, so a handler for
    [microscope.DeviceError] catches the one like the other. *)
Lemma deferred_error_is_a_DeviceError :
  fst (_do_set_power (PY := Sim.decimal_builtins) 5%Z (Sim.laser2, Sim.three_lasers))
  = Raise (DeviceError
      "Failed to set power, laser is not enabled. But power setting has been saved") /\
  fst (_do_set_power (PY := Sim.decimal_builtins) 5%Z
         (Laser (LaserConnection (b "1.")) 500%Z 250%Z true, Sim.three_lasers))
  = Raise (DeviceError "Failed to set command b'\r\n'") /\
  ~ fails_with_class "DeferredWriteError"
      (fst (_do_set_power (PY := Sim.decimal_builtins) 5%Z
              (Sim.laser2, Sim.three_lasers))) /\
  fails_with_class "DeviceError"
    (fst (_do_set_power (PY := Sim.decimal_builtins) 5%Z
            (Sim.laser2, Sim.three_lasers))) /\
  fails_with_class "DeviceError"
    (fst (_do_set_power (PY := Sim.decimal_builtins) 5%Z
            (Laser (LaserConnection (b "1.")) 500%Z 250%Z true, Sim.three_lasers))).
Proof.
  assert (E1 : fst (_do_set_power (PY := Sim.decimal_builtins) 5%Z
                      (Sim.laser2, Sim.three_lasers))
               = Raise (DeviceError
                   "Failed to set power, laser is not enabled. But power setting has been saved"))
    by reflexivity.
  assert (E2 : fst (_do_set_power (PY := Sim.decimal_builtins) 5%Z
                      (Laser (LaserConnection (b "1.")) 500%Z 250%Z true,
                       Sim.three_lasers))
               = Raise (DeviceError "Failed to set command b'\r\n'"))
    by reflexivity.
  rewrite E1, E2. split; [reflexivity|]. split; [reflexivity|].
  split; [|split].
  - intros [e [H Hc]]. inversion H; subst e. discriminate Hc.
  - eexists; split; reflexivity.
  - eexists; split; reflexivity.
Qed.

Lemma enable_reconciles_one_field_witness :
  sent (snd (snd (_do_enable (PY := Sim.decimal_builtins) (Sim.laser2, Sim.three_lasers))))
  = [b "2.LE=1" ++ [CR]; b "2.?LPS" ++ [CR]; b "2.LP=25.0" ++ [CR]].
Proof.
  assert (Hon : set_emission (_conn Sim.laser2) true Sim.three_lasers
                = (Ok tt, snd (set_emission (_conn Sim.laser2) true Sim.three_lasers)))
    by reflexivity.
  assert (Hset : get_power_setting (PY := Sim.decimal_builtins) (_conn Sim.laser2)
                   (snd (set_emission (_conn Sim.laser2) true Sim.three_lasers))
                 = (Ok 123%Z,
                    snd (get_power_setting (_conn Sim.laser2)
                           (snd (set_emission (_conn Sim.laser2) true Sim.three_lasers)))))
    by reflexivity.
  destruct (@enable_reconciles_one_field _ _ Sim.decimal_builtins Sim.laser2 123%Z
              Sim.three_lasers _ _ Hon Hset) as (_ & H & _).
  exact (H eq_refl).
Defined.

(** When the power setting already agrees, the pulse mode is the field that
    is reconciled. *)
Lemma enable_reconciles_pulse_mode_example :
  sent (snd (snd (_do_enable (PY := Sim.decimal_builtins)
                    (Laser (LaserConnection (b "2.")) 500%Z 123%Z true,
                     Sim.three_lasers))))
  = [b "2.LE=1" ++ [CR]; b "2.?LPS" ++ [CR]; b "2.?PUL" ++ [CR]; b "2.PUL=1" ++ [CR]].
Proof. reflexivity. Qed.

(* ----------------------------------------------------------------- *)
(** ** Discovery of the lasers *)

Lemma startswith_app (s r t : bytes) :
  List.length t <= List.length s -> startswith (s ++ r) t = startswith s t.
Proof.
  revert s; induction t as [|d t IH]; intros s H.
  - destruct s, r; reflexivity.
  - destruct s as [|c s]; simpl in *; [lia|].
    rewrite IH by lia. reflexivity.
Qed.

Lemma ends_with_app (p s t : bytes) :
  List.length t <= List.length s -> ends_with (p ++ s) t = ends_with s t.
Proof.
  intros H. unfold ends_with. rewrite rev_app_distr.
  apply startswith_app. rewrite !length_rev. exact H.
Qed.

Lemma wavelength_probe_is_probe (i : Z) :
  is_wavelength_probe (wavelength_probe i) = true.
Proof.
  unfold is_wavelength_probe, wavelength_probe, query_line.
  rewrite ends_with_app by (simpl; lia). reflexivity.
Qed.

Lemma dict_set_fresh {V} (d : list (string * V)) (key : string) (value : V) :
  ~ In key (map fst d) -> dict_set d key value = d ++ [(key, value)].
Proof.
  induction d as [|[k v] d IH]; simpl; intros H; [reflexivity|].
  destruct (String.eqb_spec k key) as [->|_]; [tauto|].
  rewrite IH by tauto. reflexivity.
Qed.

Lemma retained_names {L} (outcomes : list (Z * result L)) (name : string) :
  In name (map fst (retained outcomes)) ->
  In name (map laser_name (map fst outcomes)).
Proof.
  induction outcomes as [|[i [laser|e]] outcomes IH]; simpl; tauto.
Qed.

Section Discovery.
Context {T : Type} {TR : Transport T} {PY : PyBuiltins}.

Lemma quiet_ret {A} (a : A) : quiet (ret (S := world T) a).
Proof. intros w. exists []. rewrite app_nil_r. auto. Qed.

Lemma quiet_raise {A} (e : exn) : quiet (raise (S := world T) (A := A) e).
Proof. intros w. exists []. rewrite app_nil_r. auto. Qed.

Lemma quiet_lift_result {A} (r : result A) : quiet (lift_result (S := world T) r).
Proof. intros w. exists []. rewrite app_nil_r. auto. Qed.

Lemma quiet_bind {A B} (m : M (world T) A) (k : A -> M (world T) B) :
  quiet m -> (forall a, quiet (k a)) -> quiet (bind m k).
Proof.
  intros Hm Hk w. unfold bind.
  destruct (Hm w) as (l1 & S1 & F1 & L1).
  destruct (m w) as [[a|e] w1]; simpl in *.
  - destruct (Hk a w1) as (l2 & S2 & F2 & L2).
    exists (l1 ++ l2). rewrite S2, S1, L2, L1, filter_app, F1, F2, app_assoc. auto.
  - exists l1. auto.
Qed.

Lemma opens_with_bind {A B} (line : bytes) (m : M (world T) A) (k : A -> M (world T) B) :
  opens_with line m -> (forall a, quiet (k a)) -> opens_with line (bind m k).
Proof.
  intros Hm Hk w. unfold bind.
  destruct (Hm w) as (l1 & S1 & F1 & L1).
  destruct (m w) as [[a|e] w1]; simpl in *.
  - destruct (Hk a w1) as (l2 & S2 & F2 & L2).
    exists (l1 ++ l2).
    rewrite S2, S1, L2, L1, filter_app, F1, F2, <- app_assoc. auto.
  - exists l1. auto.
Qed.

Lemma opens_with_try {A} (line : bytes) (m : M (world T) A) (h : exn -> M (world T) A) :
  opens_with line m -> (forall e, quiet (h e)) ->
  opens_with line (try_except_DeviceError m h).
Proof.
  intros Hm Hh w. unfold try_except_DeviceError.
  destruct (Hm w) as (l1 & S1 & F1 & L1).
  destruct (m w) as [[a|e] w1]; simpl in *.
  - exists l1. auto.
  - destruct (is_DeviceError e).
    + destruct (Hh e w1) as (l2 & S2 & F2 & L2).
      exists (l1 ++ l2).
      rewrite S2, S1, L2, L1, filter_app, F1, F2, <- app_assoc. auto.
    + exists l1. auto.
Qed.

Lemma opens_with_command (command : bytes) :
  opens_with (command ++ [CR]) (_command command).
Proof.
  intros w. exists []. destruct (command_sent command w) as [-> ->]. auto.
Qed.

Lemma quiet_command (command : bytes) :
  is_wavelength_probe (command ++ [CR]) = false -> quiet (_command command).
Proof.
  intros H w. exists [command ++ [CR]].
  destruct (command_sent command w) as [-> ->]. simpl. rewrite H. auto.
Qed.

Lemma quiet_laser_query (self : VersaLaseLaserConnection) (name : bytes) :
  2 <= List.length name ->
  ends_with (b "?" ++ name ++ [CR]) (b "?LW" ++ [CR]) = false ->
  quiet (_laser_query self name).
Proof.
  intros Hlen H. apply quiet_command. unfold is_wavelength_probe.
  rewrite <- app_assoc, ends_with_app, <- app_assoc; [exact H|].
  rewrite !length_app. simpl. lia.
Qed.

Lemma quiet_int_of (x : bytes) : quiet (int_of (T := T) x).
Proof. unfold int_of. destruct (py_int x); [apply quiet_ret | apply quiet_raise]. Qed.

Lemma quiet_float_of (x : bytes) : quiet (float_of (T := T) x).
Proof. unfold float_of. destruct (py_float x); [apply quiet_ret | apply quiet_raise]. Qed.

(** Constructing the laser of slot [i] begins with the wavelength probe of
    that slot and sends no other wavelength probe. *)
Lemma laser_init_opens (i : Z) :
  opens_with (wavelength_probe i) (VersaLaseLaser_init i).
Proof.
  unfold VersaLaseLaser_init, VersaLaseLaserConnection_init.
  apply opens_with_bind.
  - apply opens_with_try; [|intros e; apply quiet_raise].
    apply opens_with_bind.
    + unfold get_wavelength, get_int. apply opens_with_bind; [|apply quiet_int_of].
      unfold _laser_query, wavelength_probe, query_line. simpl _param_prefix.
      rewrite (app_assoc _ _ [CR]). apply opens_with_command.
    + intros _. apply quiet_bind; [|intros _; apply quiet_ret].
      unfold set_delay, _laser_command, param_command.
      apply quiet_bind; [|intros _; apply quiet_ret].
      apply quiet_command. unfold is_wavelength_probe. simpl _param_prefix.
      rewrite <- !app_assoc. rewrite ends_with_app by (simpl; lia). reflexivity.
  - intros conn.
    apply quiet_bind.
    { unfold get_max_power, get_float. apply quiet_bind; [|apply quiet_float_of].
      apply quiet_laser_query; [simpl; lia | reflexivity]. }
    intros max_power. apply quiet_bind.
    { unfold get_power_setting, get_float. apply quiet_bind; [|apply quiet_float_of].
      apply quiet_laser_query; [simpl; lia | reflexivity]. }
    intros save_power. apply quiet_bind; [|intros mode; apply quiet_ret].
    unfold get_pulse_mode, get_bool. apply quiet_bind; [|intros x; apply quiet_lift_result].
    apply quiet_laser_query; [simpl; lia | reflexivity].
Qed.

End Discovery.

Section DiscoveryLoop.
Context {T : Type} {TR : Transport T} {PY : PyBuiltins}.

(** Names what the spec's loop makes of the slots that remain. *)
Ltac next_slot IH :=
  match goal with
  | |- context [spec_discover ?slots ?w'] =>
      let rs := fresh "rs" in
      let w2 := fresh "w2" in
      specialize (IH w'); destruct (spec_discover slots w') as [rs w2]
  end.

Lemma spec_discover_slots (slots : list Z) (w : world T) :
  map fst (fst (spec_discover slots w)) = slots.
Proof.
  revert w; induction slots as [|i slots IH]; intros w; simpl; [reflexivity|].
  destruct (VersaLaseLaser_init i w) as [r w1].
  next_slot IH. simpl in *. rewrite IH. reflexivity.
Qed.

Lemma spec_discover_probes (slots : list Z) (w : world T) :
  filter is_wavelength_probe (sent (snd (spec_discover slots w)))
  = filter is_wavelength_probe (sent w) ++ map wavelength_probe slots.
Proof.
  revert w; induction slots as [|i slots IH]; intros w; simpl.
  - rewrite app_nil_r. reflexivity.
  - destruct (laser_init_opens i w) as (l & S1 & F1 & _).
    destruct (VersaLaseLaser_init i w) as [r w1]. simpl in S1.
    next_slot IH. simpl in *. rewrite IH.
    change (sent (World (port w1) (wire w1) _)) with (sent w1).
    rewrite S1, filter_app. simpl. rewrite wavelength_probe_is_probe, F1.
    rewrite <- app_assoc. reflexivity.
Qed.

Lemma spec_discover_logged (slots : list Z) (w : world T) :
  logged (snd (spec_discover slots w))
  = logged w ++ map (@discovery_line _) (fst (spec_discover slots w)).
Proof.
  revert w; induction slots as [|i slots IH]; intros w; simpl.
  - rewrite app_nil_r. reflexivity.
  - destruct (laser_init_opens i w) as (l & _ & _ & L1).
    destruct (VersaLaseLaser_init i w) as [r w1]. simpl in L1.
    next_slot IH. simpl in *. rewrite IH, L1.
    rewrite <- app_assoc. reflexivity.
Qed.

(** The loop of the source against the loop of the spec: as long as every
    failure is a [DeviceError], they do the same. *)
Lemma discover_refines_spec (slots : list Z) (lasers : list (string * VersaLaseLaser))
  (w : world T) :
  device_failures_only (fst (spec_discover slots w)) = true ->
  discover slots lasers w
  = (Ok (fold_left (fun d kv => dict_set d (fst kv) (snd kv))
           (retained (fst (spec_discover slots w))) lasers),
     snd (spec_discover slots w)).
Proof.
  revert lasers w; induction slots as [|i slots IH]; intros lasers w; simpl.
  - reflexivity.
  - destruct (VersaLaseLaser_init i w) as [[laser|e] w1].
    + unfold bind, log_info.
      specialize (IH (dict_set lasers (laser_name i) laser)).
      next_slot IH. simpl in *. exact IH.
    + unfold bind, log_info.
      specialize (IH lasers).
      next_slot IH. simpl in *.
      intros H. apply andb_true_iff in H as [He H]. rewrite He. exact (IH H).
Qed.

Lemma fold_dict_set_fresh {V} (new old : list (string * V)) :
  NoDup (map fst new) ->
  (forall k, In k (map fst new) -> ~ In k (map fst old)) ->
  fold_left (fun d kv => dict_set d (fst kv) (snd kv)) new old = old ++ new.
Proof.
  revert old; induction new as [|[k v] new IH]; intros old Hnd Hfresh; simpl.
  - rewrite app_nil_r. reflexivity.
  - inversion Hnd as [|? ? Hk Hnd']; subst.
    rewrite dict_set_fresh by (apply Hfresh; left; reflexivity).
    rewrite IH; [rewrite <- app_assoc; reflexivity | exact Hnd' |].
    intros k' Hin. rewrite map_app, in_app_iff. simpl.
    intros [Hold | [<- | []]].
    + apply (Hfresh k'); [right; exact Hin | exact Hold].
    + exact (Hk Hin).
Qed.

Lemma retained_NoDup {L} (outcomes : list (Z * result L)) :
  NoDup (map laser_name (map fst outcomes)) ->
  NoDup (map fst (retained outcomes)).
Proof.
  induction outcomes as [|[i [laser|e]] outcomes IH]; simpl; intros H.
  - constructor.
  - inversion H as [|? ? Hi H']; subst. constructor; [|exact (IH H')].
    intros Hin. apply Hi. apply retained_names. exact Hin.
  - inversion H; auto.
Qed.

Lemma slot_names_distinct : NoDup (map laser_name slot_range).
Proof.
  repeat (constructor; [simpl; intuition discriminate|]). constructor.
Qed.

Lemma discover_app (slots1 slots2 : list Z) (lasers : list (string * VersaLaseLaser))
  (w : world T) :
  discover (slots1 ++ slots2) lasers w
  = (lasers1 <- discover slots1 lasers ;; discover slots2 lasers1) w.
Proof.
  revert lasers w; induction slots1 as [|i slots1 IH]; intros lasers w; simpl.
  - reflexivity.
  - unfold bind in *. simpl.
    destruct (VersaLaseLaser_init i w) as [[laser|e] w1].
    + unfold log_info. apply IH.
    + destruct (is_DeviceError e); [|reflexivity].
      unfold log_info. apply IH.
Qed.

(** The construction of a laser, step by step: the two calls under the
    handler of the connection, whose [DeviceError]s are raised anew with the
    handler's message, then the three reads of the laser. *)
Lemma laser_init_steps (i : Z) (w : world T) :
  let conn := LaserConnection (b (format_d i) ++ b ".") in
  let absent (e : exn) :=
    if is_DeviceError e
    then DeviceError ("failed to get laser wavelength, probably no laser "
                      ++ format_d i)
    else e in
  VersaLaseLaser_init i w
  = match get_wavelength conn w with
    | (Raise e, w1) => (Raise (absent e), w1)
    | (Ok _, w1) =>
        match set_delay conn false w1 with
        | (Raise e, w2) => (Raise (absent e), w2)
        | (Ok _, w2) =>
            match get_max_power conn w2 with
            | (Raise e, w3) => (Raise e, w3)
            | (Ok max_power, w3) =>
                match get_power_setting conn w3 with
                | (Raise e, w4) => (Raise e, w4)
                | (Ok save_power, w4) =>
                    match get_pulse_mode conn w4 with
                    | (Raise e, w5) => (Raise e, w5)
                    | (Ok pulse_mode, w5) =>
                        (Ok (Laser conn max_power save_power pulse_mode), w5)
                    end
                end
            end
        end
    end.
Proof.
  intros conn absent.
  unfold VersaLaseLaser_init, VersaLaseLaserConnection_init, try_except_DeviceError,
    bind, ret, raise.
  cbv zeta. fold conn.
  destruct (get_wavelength conn w) as [[wavelength|e] w1];
    [|unfold absent; destruct (is_DeviceError e); reflexivity].
  destruct (set_delay conn false w1) as [[[]|e] w2];
    [|unfold absent; destruct (is_DeviceError e); reflexivity].
  destruct (get_max_power conn w2) as [[max_power|e] w3]; [|reflexivity].
  destruct (get_power_setting conn w3) as [[save_power|e] w4]; [|reflexivity].
  destruct (get_pulse_mode conn w4) as [[pulse_mode|e] w5]; reflexivity.
Qed.

(** What constructing the laser of slot [i] writes: the first [n] of the
    five construction lines, with the delay toggle after a wavelength that
    was read, and all five when the laser is constructed. *)
Lemma laser_init_lines (i : Z) (w : world T) :
  exists n,
    1 <= n <= 5 /\
    sent (snd (VersaLaseLaser_init i w)) = sent w ++ firstn n (construction_lines i) /\
    logged (snd (VersaLaseLaser_init i w)) = logged w /\
    (forall wavelength w',
       get_wavelength (LaserConnection (b (format_d i) ++ b ".")) w
       = (Ok wavelength, w') -> 2 <= n) /\
    (forall laser w', VersaLaseLaser_init i w = (Ok laser, w') -> n = 5).
Proof.
  rewrite (laser_init_steps i w). cbv zeta.
  set (conn := LaserConnection (b (format_d i) ++ b ".")).
  unfold construction_lines, wavelength_probe.
  change (b (format_d i) ++ b ".") with (_param_prefix conn).
  change (b "0") with (bool_value false).
  pose proof (get_int_unfold conn (b "LW") w) as U1.
  destruct (laser_query_unfold conn (b "LW") w) as [S1 L1].
  rewrite <- U1 in S1, L1. fold (get_wavelength conn) in S1, L1. clear U1.
  destruct (get_wavelength conn w) as [[wavelength|e] w1]; cbn [snd] in S1, L1.
  2:{ exists 1. cbn [snd firstn]. rewrite S1, L1.
      repeat split; try lia; discriminate. }
  destruct (laser_command_unfold conn (b "DELAY") (bool_value false) w1) as [S2 L2].
  fold (set_delay conn false) in S2, L2.
  destruct (set_delay conn false w1) as [[[]|e] w2]; cbn [snd] in S2, L2.
  2:{ exists 2. cbn [snd firstn]. rewrite S2, L2, S1, L1, <- app_assoc.
      repeat split; try lia; discriminate. }
  pose proof (get_float_unfold conn (b "MAXP") w2) as U3.
  destruct (laser_query_unfold conn (b "MAXP") w2) as [S3 L3].
  rewrite <- U3 in S3, L3. fold (get_max_power conn) in S3, L3. clear U3.
  destruct (get_max_power conn w2) as [[max_power|e] w3]; cbn [snd] in S3, L3.
  2:{ exists 3. cbn [snd firstn]. rewrite S3, L3, S2, L2, S1, L1, <- !app_assoc.
      repeat split; try lia; discriminate. }
  pose proof (get_float_unfold conn (b "LPS") w3) as U4.
  destruct (laser_query_unfold conn (b "LPS") w3) as [S4 L4].
  rewrite <- U4 in S4, L4. fold (get_power_setting conn) in S4, L4. clear U4.
  destruct (get_power_setting conn w3) as [[save_power|e] w4]; cbn [snd] in S4, L4.
  2:{ exists 4. cbn [snd firstn]. rewrite S4, L4, S3, L3, S2, L2, S1, L1, <- !app_assoc.
      repeat split; try lia; discriminate. }
  pose proof (get_bool_unfold conn (b "PUL") w4) as U5.
  destruct (laser_query_unfold conn (b "PUL") w4) as [S5 L5].
  rewrite <- U5 in S5, L5. fold (get_pulse_mode conn) in S5, L5. clear U5.
  exists 5.
  destruct (get_pulse_mode conn w4) as [[pulse_mode|e] w5]; cbn [snd] in S5, L5;
    cbn [snd firstn];
    rewrite S5, L5, S4, L4, S3, L3, S2, L2, S1, L1, <- !app_assoc;
    repeat split; lia.
Qed.

(** The loop at one slot: the laser is kept and the slot logged as found,
    or a [DeviceError] has the slot logged as not available, or the loop
    ends there. *)
Lemma discover_slot (slots1 slots2 : list Z) (i : Z)
  (lasers lasers1 : list (string * VersaLaseLaser)) (w w1 : world T) :
  discover slots1 lasers w = (Ok lasers1, w1) ->
  match VersaLaseLaser_init i w1 with
  | (Ok laser, w2) =>
      discover (slots1 ++ [i]) lasers w
      = (Ok (dict_set lasers1 (laser_name i) laser),
         World (port w2) (wire w2)
               (logged w2 ++ [discovery_line (i, Ok laser)]))
  | (Raise e, w2) =>
      if is_DeviceError e then
        discover (slots1 ++ [i]) lasers w
        = (Ok lasers1,
           World (port w2) (wire w2)
                 (logged w2 ++ [discovery_line (i, Raise (A := VersaLaseLaser) e)]))
      else
        discover (slots1 ++ i :: slots2) lasers w = (Raise e, w2)
  end.
Proof.
  intros H.
  destruct (VersaLaseLaser_init i w1) as [[laser|e] w2] eqn:E;
    [|destruct (is_DeviceError e) eqn:He];
    rewrite discover_app; unfold bind at 1; rewrite H; simpl; rewrite E;
    rewrite ?He; reflexivity.
Qed.

(** C4, as amended.  When every slot's laser either is constructed or fails
    with the module's [DeviceError], the loop over slots 1 to 8 is the
    discovery of section 4.4: every slot is tried, in ascending order, with
    one wavelength probe each; each slot is logged as found or as not
    available; and the result maps exactly the slots whose laser was
    constructed, under [laser<N>], in ascending order.  At every slot the
    loop gets to, constructing the laser writes the first [n] of five lines
    (the wavelength read, the delay toggle set to 0, the reads of maximum
    power, power setting and pulse mode): the delay toggle whenever the
    wavelength was read, and all five when the laser is constructed.  Then
    the laser is kept and logged as found; on a [DeviceError] the slot is
    logged as not available and the loop goes on; on any other exception the
    loop ends with it, in the state the construction left. *)
Theorem discovery_tries_every_slot (w : world T) :
  (device_failures_only (fst (spec_discover slot_range w)) = true ->
   discover slot_range [] w
   = (Ok (retained (fst (spec_discover slot_range w))),
      snd (spec_discover slot_range w)) /\
   map fst (fst (spec_discover slot_range w)) = slot_range /\
   filter is_wavelength_probe (sent (snd (spec_discover slot_range w)))
   = filter is_wavelength_probe (sent w) ++ map wavelength_probe slot_range /\
   logged (snd (spec_discover slot_range w))
   = logged w ++ map (@discovery_line _) (fst (spec_discover slot_range w))) /\
  (forall (slots1 slots2 : list Z) (i : Z)
          (lasers1 : list (string * VersaLaseLaser)) (w1 : world T),
     slot_range = slots1 ++ i :: slots2 ->
     discover slots1 [] w = (Ok lasers1, w1) ->
     exists n,
       1 <= n <= 5 /\
       sent (snd (VersaLaseLaser_init i w1))
       = sent w1 ++ firstn n (construction_lines i) /\
       logged (snd (VersaLaseLaser_init i w1)) = logged w1 /\
       (forall wavelength w',
          get_wavelength (LaserConnection (b (format_d i) ++ b ".")) w1
          = (Ok wavelength, w') -> 2 <= n) /\
       match VersaLaseLaser_init i w1 with
       | (Ok laser, w2) =>
           n = 5 /\
           discover (slots1 ++ [i]) [] w
           = (Ok (dict_set lasers1 (laser_name i) laser),
              World (port w2) (wire w2)
                    (logged w2 ++ [discovery_line (i, Ok laser)]))
       | (Raise e, w2) =>
           if is_DeviceError e then
             discover (slots1 ++ [i]) [] w
             = (Ok lasers1,
                World (port w2) (wire w2)
                      (logged w2
                       ++ [discovery_line (i, Raise (A := VersaLaseLaser) e)]))
           else
             discover slot_range [] w = (Raise e, w2)
       end).
Proof.
  split.
  - intros H. split; [|split; [|split]].
    + rewrite (discover_refines_spec slot_range [] w H).
      rewrite fold_dict_set_fresh; [reflexivity | | intros k _ []].
      apply retained_NoDup. rewrite spec_discover_slots. exact slot_names_distinct.
    + apply spec_discover_slots.
    + apply spec_discover_probes.
    + apply spec_discover_logged.
  - intros slots1 slots2 i lasers1 w1 Hslots Hreach.
    destruct (laser_init_lines i w1) as (n & Hn & Hsent & Hlog & Hdelay & Hall).
    exists n. split; [exact Hn|]. split; [exact Hsent|]. split; [exact Hlog|].
    split; [exact Hdelay|].
    pose proof (@discover_slot slots1 slots2 i [] lasers1 w w1 Hreach) as Hstep.
    rewrite <- Hslots in Hstep. revert Hall Hstep.
    destruct (VersaLaseLaser_init i w1) as [[laser|e] w2]; intros Hall Hstep.
    + split; [exact (Hall laser w2 eq_refl) | exact Hstep].
    + exact Hstep.
Qed.

Lemma unframed_is_not_rejected (answer : bytes) :
  ends_with answer CRLF = false ->
  bytes_eqb answer CRLF = false /\ ends_with answer CRCRLF = false.
Proof.
  intros H. split; apply not_true_is_false; intros E.
  - apply bytes_eqb_eq in E. subst. discriminate H.
  - apply ends_with_suffix in E as [p ->].
    change CRCRLF with ([CR] ++ CRLF) in H.
    rewrite app_assoc, ends_with_app in H by (simpl; lia). discriminate H.
Qed.

(** C10: a reply that is not empty and ends with neither terminator makes the
    decoding fail its assertion, which is no [DeviceError]; when it comes as
    the answer to the wavelength probe of a slot, no handler catches it: the
    laser's construction, the loop and the controller's construction all end
    in that [AssertionError], in the state the probe left, and the slots
    after it are never tried. *)
Theorem unframed_reply_aborts_discovery (slots1 slots2 : list Z) (i : Z)
  (lasers lasers1 : list (string * VersaLaseLaser)) (w w1 : world T) (answer : bytes) :
  answer <> [] ->
  ends_with answer CRLF = false ->
  discover slots1 lasers w = (Ok lasers1, w1) ->
  fst (_command_io (wavelength_query i) w1) = Ok answer ->
  (forall command, _command_decode command answer = Raise AssertionError) /\
  is_DeviceError AssertionError = false /\
  VersaLaseLaser_init i w1
  = (Raise AssertionError, snd (_command_io (wavelength_query i) w1)) /\
  discover (slots1 ++ i :: slots2) lasers w
  = (Raise AssertionError, snd (_command_io (wavelength_query i) w1)) /\
  (forall w0, open_connection w0 = (Ok tt, w) -> lasers = [] ->
              slots1 ++ i :: slots2 = slot_range ->
              StradusVersaLase_init w0
              = (Raise AssertionError, snd (_command_io (wavelength_query i) w1))).
Proof.
  intros Hne Hend Hprefix Hanswer.
  assert (Hdecode : forall command, _command_decode command answer = Raise AssertionError).
  { intros command. rewrite command_decode_shapes.
    destruct (unframed_is_not_rejected answer Hend) as [-> ->]. rewrite Hend.
    destruct answer; [congruence | reflexivity]. }
  assert (Hinit : VersaLaseLaser_init i w1
                  = (Raise AssertionError, snd (_command_io (wavelength_query i) w1))).
  { unfold VersaLaseLaser_init, VersaLaseLaserConnection_init, bind at 1,
      try_except_DeviceError, bind at 1, get_wavelength, get_int, bind at 1,
      _laser_query.
    match goal with
    | |- context [_command ?c w1] => change c with (wavelength_query i)
    end.
    destruct (command_unfold (wavelength_query i) w1) as (answer' & E1 & E2).
    rewrite E1 in Hanswer. simpl in Hanswer. inversion Hanswer; subst answer'.
    rewrite E2, Hdecode. reflexivity. }
  assert (Hloop : discover (slots1 ++ i :: slots2) lasers w
                  = (Raise AssertionError, snd (_command_io (wavelength_query i) w1))).
  { rewrite discover_app. unfold bind. rewrite Hprefix. simpl. rewrite Hinit.
    reflexivity. }
  repeat split; auto.
  intros w0 Hopen -> Hslots. unfold StradusVersaLase_init, bind.
  rewrite Hopen, <- Hslots. exact Hloop.
Qed.

End DiscoveryLoop.

Lemma discovery_tries_every_slot_witness :
  fst (discover (PY := Sim.decimal_builtins) slot_range [] Sim.three_lasers)
  = Ok (retained (fst (spec_discover slot_range Sim.three_lasers))) /\
  map fst (retained (fst (spec_discover (PY := Sim.decimal_builtins)
                            slot_range Sim.three_lasers)))
  = ["laser2"; "laser5"; "laser7"]%string /\
  sent (snd (VersaLaseLaser_init (PY := Sim.decimal_builtins) 2%Z
               (snd (discover (PY := Sim.decimal_builtins) [1]%Z [] Sim.three_lasers))))
  = sent (snd (discover (PY := Sim.decimal_builtins) [1]%Z [] Sim.three_lasers))
    ++ construction_lines 2.
Proof.
  assert (H : device_failures_only
                (fst (spec_discover (PY := Sim.decimal_builtins)
                        slot_range Sim.three_lasers)) = true)
    by (vm_compute; reflexivity).
  destruct (discovery_tries_every_slot (PY := Sim.decimal_builtins) Sim.three_lasers)
    as (Hloop & Hslot).
  destruct (Hloop H) as (E & _).
  split; [rewrite E; reflexivity|]. split; [vm_compute; reflexivity|].
  assert (Hreach : discover (PY := Sim.decimal_builtins) [1]%Z [] Sim.three_lasers
                   = (Ok [], snd (discover (PY := Sim.decimal_builtins) [1]%Z []
                                    Sim.three_lasers)))
    by (apply outcome_of_fst; reflexivity).
  destruct (Hslot [1]%Z [3; 4; 5; 6; 7; 8]%Z 2%Z _ _ eq_refl Hreach)
    as (n & _ & Hsent & _ & _ & Hkept).
  assert (E2 : VersaLaseLaser_init (PY := Sim.decimal_builtins) 2%Z
                 (snd (discover (PY := Sim.decimal_builtins) [1]%Z []
                         Sim.three_lasers))
               = (Ok (Laser (LaserConnection (b "2.")) 500%Z 123%Z false),
                  snd (VersaLaseLaser_init (PY := Sim.decimal_builtins) 2%Z
                         (snd (discover (PY := Sim.decimal_builtins) [1]%Z []
                                 Sim.three_lasers)))))
    by (apply outcome_of_fst; reflexivity).
  rewrite E2 in Hkept. destruct Hkept as [Hn _]. rewrite Hn in Hsent. exact Hsent.
Defined.

(** C4, as stated, fails when a slot answers its probe with something that
    is not a number: the [ValueError] is no [DeviceError], the loop ends with
    it at slot 1, and slot 2 (where the spec's discovery finds a laser) is
    never tried. *)
Lemma discovery_stops_at_garbled_wavelength :
  fst (discover (PY := Sim.decimal_builtins) slot_range [] Sim.garbled_wavelength)
  = Raise ValueError /\
  sent (snd (discover (PY := Sim.decimal_builtins) slot_range [] Sim.garbled_wavelength))
  = [wavelength_probe 1] /\
  ~ In (wavelength_probe 2)
       (sent (snd (discover (PY := Sim.decimal_builtins) slot_range []
                     Sim.garbled_wavelength))) /\
  map fst (retained (fst (spec_discover (PY := Sim.decimal_builtins)
                            slot_range Sim.garbled_wavelength)))
  = ["laser2"; "laser5"; "laser7"]%string.
Proof.
  assert (E : discover (PY := Sim.decimal_builtins) slot_range [] Sim.garbled_wavelength
              = (Raise ValueError,
                 snd (get_wavelength (LaserConnection (b "1.")) Sim.garbled_wavelength)))
    by (vm_compute; reflexivity).
  rewrite E. split; [reflexivity|]. split; [vm_compute; reflexivity|].
  split; [|vm_compute; reflexivity].
  vm_compute. intros [H|[]]. discriminate H.
Qed.

Lemma unframed_reply_aborts_discovery_witness :
  fst (discover (PY := Sim.decimal_builtins) slot_range [] Sim.unterminated_wavelength)
  = Raise AssertionError /\
  sent (snd (discover (PY := Sim.decimal_builtins) slot_range []
               Sim.unterminated_wavelength))
  = sent (snd (discover (PY := Sim.decimal_builtins) [1; 2]%Z []
                 Sim.unterminated_wavelength)) ++ [wavelength_probe 3].
Proof.
  assert (H1 : b "X" <> []) by discriminate.
  assert (H2 : ends_with (b "X") CRLF = false) by reflexivity.
  assert (H3 : discover (PY := Sim.decimal_builtins) [1; 2]%Z []
                 Sim.unterminated_wavelength
               = (Ok [("laser2"%string, Laser (LaserConnection (b "2.")) 500%Z 123%Z false)],
                  snd (discover (PY := Sim.decimal_builtins) [1; 2]%Z []
                         Sim.unterminated_wavelength)))
    by (vm_compute; reflexivity).
  assert (H4 : fst (_command_io (wavelength_query 3)
                      (snd (discover (PY := Sim.decimal_builtins) [1; 2]%Z []
                              Sim.unterminated_wavelength)))
               = Ok (b "X"))
    by (vm_compute; reflexivity).
  destruct (@unframed_reply_aborts_discovery _ _ _ [1; 2]%Z [4; 5; 6; 7; 8]%Z 3%Z
              _ _ _ _ _ H1 H2 H3 H4) as (_ & _ & _ & E & _).
  change slot_range with ([1; 2] ++ 3 :: [4; 5; 6; 7; 8])%Z.
  rewrite E. split; [reflexivity | vm_compute; reflexivity].
Defined.

(* ----------------------------------------------------------------- *)
(** ** Threads sharing the port *)

Lemma length_set_nth {A} (n : nat) (x : A) (l : list A) :
  List.length (Threads.set_nth n x l) = List.length l.
Proof.
  revert n; induction l as [|y l IH]; intros [|n]; simpl; auto.
Qed.

Lemma nth_error_set_nth_same {A} (n : nat) (x y : A) (l : list A) :
  nth_error l n = Some y -> nth_error (Threads.set_nth n x l) n = Some x.
Proof.
  revert n; induction l as [|z l IH]; intros [|n]; simpl; try discriminate; auto.
Qed.

Lemma nth_error_set_nth_other {A} (n m : nat) (x : A) (l : list A) :
  n <> m -> nth_error (Threads.set_nth n x l) m = nth_error l m.
Proof.
  revert n m; induction l as [|z l IH]; intros [|n] [|m] H; simpl; auto.
  congruence.
Qed.

Section Serialization.
Import Threads.
Context {T : Type} {TR : Transport T}.
Variable commands : list bytes.

Lemma one_at_a_time_app (order1 order2 : list nat) (w : world T) :
  one_at_a_time commands (order1 ++ order2) w
  = (fst (one_at_a_time commands order1 w)
       ++ fst (one_at_a_time commands order2 (snd (one_at_a_time commands order1 w))),
     snd (one_at_a_time commands order2 (snd (one_at_a_time commands order1 w)))).
Proof.
  revert w; induction order1 as [|t order1 IH]; intros w; simpl.
  - destruct (one_at_a_time commands order2 w); reflexivity.
  - destruct (_command (command_of commands t) w) as [r w1].
    rewrite IH. destruct (one_at_a_time commands order1 w1) as [rs w2]. reflexivity.
Qed.

(** The wire after transactions run one at a time is their triples of
    events, one triple after the other. *)
Lemma one_at_a_time_wire (order : list nat) (w : world T) :
  exists replies,
    List.length replies = List.length order /\
    wire (snd (one_at_a_time commands order w))
    = serial_wire commands (wire w) order replies.
Proof.
  revert w; induction order as [|t order IH]; intros w; simpl.
  - exists []. unfold serial_wire. simpl. rewrite app_nil_r. auto.
  - destruct (command_unfold (command_of commands t) w) as (answer & E1 & E2).
    destruct (command_io_wire (command_of commands t) w) as (echo & answer' & p & E3).
    rewrite E2. specialize (IH (snd (_command_io (command_of commands t) w))).
    destruct IH as (replies & Hlen & Hwire).
    destruct (one_at_a_time commands order _) as [rs w2]. simpl in *.
    exists ((echo, answer') :: replies). split; [simpl; congruence|].
    rewrite Hwire, E3. unfold serial_wire. simpl. rewrite <- app_assoc. reflexivity.
Qed.

Lemma initial_invariant (w : world T) : invariant commands w [] (initial commands w).
Proof.
  assert (H : forall t p, nth_error (pcs (initial commands w)) t = Some p -> p = Idle).
  { intros t p. unfold initial; simpl. rewrite nth_error_map.
    destruct (nth_error commands t); simpl; congruence. }
  constructor; simpl.
  - constructor.
  - apply length_map.
  - intros t. split; [intros [] | intros [r Hr]]. apply H in Hr. discriminate.
  - intros t r Hr. apply H in Hr. discriminate.
  - intros t p Hp. apply H in Hp. subst. split; discriminate.
  - reflexivity.
Qed.

(** A thread that moves on inside its transaction, from [p] to [p'] with the
    lock in its hand. *)
Lemma progress_invariant (w : world T) (done : list nat) (s : system T)
  (t : nat) (p p' : pc) (ws : world T) :
  invariant commands w done s ->
  nth_error (pcs s) t = Some p ->
  in_progress p = true -> in_progress p' = true ->
  (forall w0, stage_world commands w0 t p (shared s) ->
              stage_world commands w0 t p' ws) ->
  invariant commands w done (System ws (owner s) (set_nth t p' (pcs s))).
Proof.
  intros I Ht Hp Hp' Hstage.
  assert (Ho : owner s = Some t) by (apply (inv_owner I t Ht); exact Hp).
  assert (Hnew : forall t' q, nth_error (set_nth t p' (pcs s)) t' = Some q ->
                   (t' = t /\ q = p') \/ (t' <> t /\ nth_error (pcs s) t' = Some q)).
  { intros t' q Hq. destruct (Nat.eq_dec t' t) as [->|Hne].
    - rewrite (nth_error_set_nth_same _ _ _ Ht) in Hq. left. split; congruence.
    - rewrite nth_error_set_nth_other in Hq by congruence. right. auto. }
  constructor; simpl.
  - exact (inv_nodup I).
  - rewrite length_set_nth. exact (inv_length I).
  - intros t'. rewrite (inv_done I t'). split; intros [r Hr].
    + exists r. destruct (Nat.eq_dec t t') as [<-|Hne].
      * rewrite Ht in Hr. inversion Hr; subst. discriminate Hp.
      * rewrite nth_error_set_nth_other by exact Hne. exact Hr.
    + destruct (Hnew _ _ Hr) as [[_ E]|[_ E]]; [|exists r; exact E].
      subst p'. discriminate Hp'.
  - intros t' r Hr. destruct (Hnew _ _ Hr) as [[_ E]|[_ E]].
    + subst p'. discriminate Hp'.
    + exact (inv_results I _ E).
  - intros t' q Hq. destruct (Hnew _ _ Hq) as [[-> ->]|[Hne E]].
    + split; auto.
    + rewrite (inv_owner I t' E), Ho. reflexivity.
  - pose proof (inv_shared I) as Hs. rewrite Ho in *.
    destruct Hs as (q & Hq & Hw). rewrite Ht in Hq. inversion Hq; subst q.
    exists p'. split; [exact (nth_error_set_nth_same _ _ _ Ht) | exact (Hstage _ Hw)].
Qed.

(** Each step keeps the invariant; the step that leaves the [with] block adds
    its thread to the end of [done]. *)
Lemma step_invariant (w : world T) (done : list nat) (s s' : system T) (t : nat) :
  invariant commands w done s ->
  step commands t s = Some s' ->
  exists done', invariant commands w done' s'.
Proof.
  intros I. unfold step.
  destruct (nth_error (pcs s) t) as [p|] eqn:Ht; [|discriminate].
  assert (Hnew : forall p' t' q, nth_error (set_nth t p' (pcs s)) t' = Some q ->
                   (t' = t /\ q = p') \/ (t' <> t /\ nth_error (pcs s) t' = Some q)).
  { intros p' t' q Hq. destruct (Nat.eq_dec t' t) as [->|Hne].
    - rewrite (nth_error_set_nth_same _ _ _ Ht) in Hq. left. split; congruence.
    - rewrite nth_error_set_nth_other in Hq by congruence. right. auto. }
  destruct p as [| | | |answer|outcome].
  - (* taking the lock *)
    unfold acquire. destruct (owner s) as [h|] eqn:Ho; [discriminate|].
    intros E; inversion E; subst s'; clear E. exists done.
    constructor; simpl.
    + exact (inv_nodup I).
    + rewrite length_set_nth. exact (inv_length I).
    + intros t'. rewrite (inv_done I t'). split; intros [r Hr].
      * exists r. destruct (Nat.eq_dec t t') as [<-|Hne]; [congruence|].
        rewrite nth_error_set_nth_other by exact Hne. exact Hr.
      * destruct (Hnew _ _ _ Hr) as [[_ E]|[_ E]]; [discriminate E | exists r; exact E].
    + intros t' r Hr. destruct (Hnew _ _ _ Hr) as [[_ E]|[_ E]]; [discriminate E|].
      exact (inv_results I _ E).
    + intros t' q Hq. destruct (Hnew _ _ _ Hq) as [[-> ->]|[Hne E]].
      * split; auto.
      * rewrite (inv_owner I t' E), Ho. split; [discriminate | congruence].
    + pose proof (inv_shared I) as Hs. rewrite Ho in Hs.
      exists Holding. split; [exact (nth_error_set_nth_same _ _ _ Ht) | exact Hs].
  - (* the write *)
    destruct (serial_write (command_of commands t ++ [CR]) (shared s)) as [r ws] eqn:E0.
    intros E; inversion E; subst s'; clear E. exists done.
    apply progress_invariant with (p := Holding); auto.
    intros w0 Hw. unfold stage_world in *. rewrite <- Hw, E0. reflexivity.
  - (* the acknowledgment line *)
    destruct (serial_readline (shared s)) as [r ws] eqn:E0.
    intros E; inversion E; subst s'; clear E. exists done.
    apply progress_invariant with (p := Written); auto.
    intros w0 Hw. unfold stage_world in *. rewrite <- Hw, E0. reflexivity.
  - (* the answer *)
    assert (Hread : exists answer, serial_read_until CRLF (shared s)
                                   = (Ok answer, snd (serial_read_until CRLF (shared s)))).
    { unfold serial_read_until. destruct (port_read_until CRLF (port (shared s))).
      eexists; reflexivity. }
    destruct Hread as [answer Hread]. rewrite Hread.
    intros E; inversion E; subst s'; clear E. exists done.
    apply progress_invariant with (p := EchoRead); auto.
    intros w0 Hw. unfold stage_world in *.
    unfold _command_io, with_lock, bind.
    assert (Ew : serial_write (command_of commands t ++ [CR]) w0
                 = (Ok tt, snd (serial_write (command_of commands t ++ [CR]) w0)))
      by reflexivity.
    rewrite Ew.
    assert (Er : exists echo,
               serial_readline (snd (serial_write (command_of commands t ++ [CR]) w0))
               = (Ok echo,
                  snd (serial_readline
                         (snd (serial_write (command_of commands t ++ [CR]) w0))))).
    { unfold serial_readline. destruct (port_readline _). eexists; reflexivity. }
    destruct Er as [echo Er]. rewrite Er, <- Hw. exact Hread.
  - (* leaving the block *)
    unfold release. intros E; inversion E; subst s'; clear E. exists (done ++ [t]).
    assert (Ho : owner s = Some t) by (apply (inv_owner I t Ht); reflexivity).
    pose proof (inv_shared I) as Hs. rewrite Ho in Hs.
    destruct Hs as (q & Hq & Hw). rewrite Ht in Hq. inversion Hq; subst q. simpl in Hw.
    assert (Hcmd : _command (command_of commands t) (snd (one_at_a_time commands done w))
                   = (_command_decode (command_of commands t) answer, shared s)).
    { unfold _command, bind, lift_result. rewrite Hw. reflexivity. }
    assert (Hrun : one_at_a_time commands (done ++ [t]) w
                   = (fst (one_at_a_time commands done w)
                        ++ [(t, _command_decode (command_of commands t) answer)],
                      shared s)).
    { rewrite one_at_a_time_app. simpl. rewrite Hcmd. reflexivity. }
    assert (Hfresh : ~ In t done).
    { intros Hin. apply (inv_done I) in Hin as [r Hr]. congruence. }
    constructor; simpl.
    + apply NoDup_app; [exact (inv_nodup I) | repeat constructor; intros [] |].
      intros x Hx [<-|[]]. exact (Hfresh Hx).
    + rewrite length_set_nth. exact (inv_length I).
    + intros t'. rewrite in_app_iff, (inv_done I t'). simpl. split.
      * intros [[r Hr]|[<-|[]]].
        -- exists r. destruct (Nat.eq_dec t t') as [<-|Hne]; [congruence|].
           rewrite nth_error_set_nth_other by exact Hne. exact Hr.
        -- eexists. exact (nth_error_set_nth_same _ _ _ Ht).
      * intros [r Hr]. destruct (Hnew _ _ _ Hr) as [[-> _]|[_ E]]; [auto|].
        left. exists r. exact E.
    + intros t' r Hr. rewrite Hrun. simpl. rewrite in_app_iff.
      destruct (Hnew _ _ _ Hr) as [[-> E]|[_ E]].
      * right. left. congruence.
      * left. exact (inv_results I _ E).
    + intros t' q' Hq'. destruct (Hnew _ _ _ Hq') as [[-> ->]|[Hne E]].
      * split; discriminate.
      * rewrite (inv_owner I t' E), Ho. split; [congruence | discriminate].
    + rewrite Hrun. reflexivity.
  - discriminate.
Qed.

Lemma run_invariant (w : world T) (schedule : list nat) (done : list nat) (s : system T) :
  invariant commands w done s ->
  exists done', invariant commands w done' (run commands schedule s).
Proof.
  revert done s; induction schedule as [|t schedule IH]; intros done s I; simpl.
  - exists done. exact I.
  - destruct (step commands t s) as [s'|] eqn:E.
    + destruct (step_invariant t I E) as [done' I']. exact (IH _ _ I').
    + exact (IH _ _ I).
Qed.

(** C2: however the threads are scheduled, once all their transactions are
    through, the port and its wire are what they would be had the
    transactions run one after the other in some order: the wire is a
    sequence of whole (write, read, read) triples, never an interleaving,
    and each thread got the outcome it gets in that serial run. *)
Theorem transactions_are_serialized (w : world T) (schedule : list nat) :
  all_finished (run commands schedule (initial commands w)) = true ->
  exists order replies,
    Permutation order (seq 0 (List.length commands)) /\
    shared (run commands schedule (initial commands w))
    = snd (one_at_a_time commands order w) /\
    List.length replies = List.length order /\
    wire (shared (run commands schedule (initial commands w)))
    = serial_wire commands (wire w) order replies /\
    (forall t, In t order ->
       exists r, nth_error (pcs (run commands schedule (initial commands w))) t
                 = Some (Finished r) /\
                 In (t, r) (fst (one_at_a_time commands order w))).
Proof.
  intros Hall.
  destruct (run_invariant schedule (initial_invariant w)) as [done I].
  set (s := run commands schedule (initial commands w)) in *.
  assert (Hfin : forall t p, nth_error (pcs s) t = Some p -> exists r, p = Finished r).
  { intros t p Hp. unfold all_finished in Hall. rewrite forallb_forall in Hall.
    specialize (Hall p (nth_error_In _ _ Hp)). destruct p; try discriminate.
    eexists; reflexivity. }
  assert (Hfree : owner s = None).
  { destruct (owner s) as [h|] eqn:Ho; [|reflexivity].
    pose proof (inv_shared I) as Hs. rewrite Ho in Hs. destruct Hs as (p & Hp & Hw).
    destruct (Hfin _ _ Hp) as [r ->]. destruct Hw. }
  assert (Hshared : shared s = snd (one_at_a_time commands done w)).
  { pose proof (inv_shared I) as Hs. rewrite Hfree in Hs. exact Hs. }
  destruct (one_at_a_time_wire done w) as (replies & Hlen & Hwire).
  exists done, replies. split; [|split; [exact Hshared | split; [exact Hlen | split]]].
  - apply NoDup_Permutation; [exact (inv_nodup I) | apply seq_NoDup |].
    intros t. rewrite in_seq, (inv_done I t). split.
    + intros [r Hr]. split; [lia|]. simpl. rewrite <- (inv_length I).
      apply nth_error_Some. congruence.
    + intros [_ Hlt]. simpl in Hlt. rewrite <- (inv_length I) in Hlt.
      apply nth_error_Some in Hlt.
      destruct (nth_error (pcs s) t) as [p|] eqn:Hp; [|congruence].
      destruct (Hfin _ _ Hp) as [r ->]. exists r; reflexivity.
  - rewrite Hshared. exact Hwire.
  - intros t Hin. apply (inv_done I) in Hin as [r Hr].
    exists r. split; [exact Hr | exact (inv_results I _ Hr)].
Qed.

End Serialization.

Lemma transactions_are_serialized_witness :
  exists order replies,
    Permutation order (seq 0 (List.length Sim.two_queries)) /\
    Threads.shared (Threads.run Sim.two_queries Sim.taking_turns
                      (Threads.initial Sim.two_queries Sim.three_lasers))
    = snd (Threads.one_at_a_time Sim.two_queries order Sim.three_lasers) /\
    List.length replies = List.length order /\
    wire (Threads.shared (Threads.run Sim.two_queries Sim.taking_turns
                            (Threads.initial Sim.two_queries Sim.three_lasers)))
    = Threads.serial_wire Sim.two_queries (wire Sim.three_lasers) order replies /\
    (forall t, In t order ->
       exists r,
         nth_error (Threads.pcs (Threads.run Sim.two_queries Sim.taking_turns
                                   (Threads.initial Sim.two_queries Sim.three_lasers))) t
         = Some (Threads.Finished r) /\
         In (t, r) (fst (Threads.one_at_a_time Sim.two_queries order Sim.three_lasers))).
Proof.
  apply (transactions_are_serialized Sim.two_queries Sim.three_lasers Sim.taking_turns).
  vm_compute. reflexivity.
Defined.

(** With the threads taking turns, the wire still shows the two transactions
    whole, one after the other. *)
Lemma taking_turns_example :
  wire (Threads.shared (Threads.run Sim.two_queries Sim.taking_turns
                          (Threads.initial Sim.two_queries Sim.three_lasers)))
  = [Wr (b "2.?LW" ++ [CR]); Rd CRLF; Rd (b "2.?LW=488" ++ CRLF);
     Wr (b "5.?LW" ++ [CR]); Rd CRLF; Rd (b "5.?LW=488" ++ CRLF)] /\
  Threads.pcs (Threads.run Sim.two_queries Sim.taking_turns
                 (Threads.initial Sim.two_queries Sim.three_lasers))
  = [Threads.Finished (Ok (b "488")); Threads.Finished (Ok (b "488"))] /\
  Threads.step Sim.two_queries 1
    (Threads.run Sim.two_queries [0; 1; 0]
       (Threads.initial Sim.two_queries Sim.three_lasers))
  = None.
Proof. repeat split; reflexivity. Qed.

Section AnyMoment.
Import Threads.
Context {T : Type} {TR : Transport T}.
Variable commands : list bytes.


End AnyMoment.

Section Progress.
Import Threads.
Context {T : Type} {TR : Transport T}.
Variable commands : list bytes.

Lemma nth_error_middle {A} (pre post : list A) (x : A) :
  nth_error (pre ++ x :: post) (List.length pre) = Some x.
Proof. induction pre; simpl; auto. Qed.

Lemma set_nth_middle {A} (pre post : list A) (x y : A) :
  set_nth (List.length pre) y (pre ++ x :: post) = pre ++ y :: post.
Proof. induction pre; simpl; congruence. Qed.

(** The five steps of a transaction, one by one. *)
Lemma step_take (ws : world T) (pre post : list pc) :
  step commands (List.length pre) (System ws None (pre ++ Idle :: post))
  = Some (System ws (Some (List.length pre)) (pre ++ Holding :: post)).
Proof.
  unfold step. cbn [pcs shared owner]. rewrite nth_error_middle, set_nth_middle.
  reflexivity.
Qed.

Lemma step_write (ws : world T) (holder : option nat) (pre post : list pc) :
  step commands (List.length pre) (System ws holder (pre ++ Holding :: post))
  = Some (System (snd (serial_write (command_of commands (List.length pre) ++ [CR]) ws))
            holder (pre ++ Written :: post)).
Proof.
  unfold step. cbn [pcs shared owner]. rewrite nth_error_middle, set_nth_middle.
  reflexivity.
Qed.

Lemma step_echo (ws : world T) (holder : option nat) (pre post : list pc) :
  step commands (List.length pre) (System ws holder (pre ++ Written :: post))
  = Some (System (snd (serial_readline ws)) holder (pre ++ EchoRead :: post)).
Proof.
  unfold step. cbn [pcs shared owner]. rewrite nth_error_middle, set_nth_middle.
  destruct (serial_readline ws). reflexivity.
Qed.

Lemma step_answer (ws : world T) (holder : option nat) (pre post : list pc) :
  exists answer,
    step commands (List.length pre) (System ws holder (pre ++ EchoRead :: post))
    = Some (System (snd (serial_read_until CRLF ws)) holder
              (pre ++ AnswerRead answer :: post)).
Proof.
  unfold step. cbn [pcs shared owner]. rewrite nth_error_middle.
  unfold serial_read_until. destruct (port_read_until CRLF (port ws)) as [answer p].
  exists answer. rewrite set_nth_middle. reflexivity.
Qed.

Lemma step_leave (ws : world T) (holder : option nat) (pre post : list pc)
  (answer : bytes) :
  step commands (List.length pre) (System ws holder (pre ++ AnswerRead answer :: post))
  = Some (System ws None
            (pre ++ Finished (_command_decode (command_of commands (List.length pre))
                                answer) :: post)).
Proof.
  unfold step. cbn [pcs shared owner]. rewrite nth_error_middle, set_nth_middle.
  reflexivity.
Qed.

(** Five steps take an idle thread through its transaction when the lock is
    free, and leave the lock free again. *)
Lemma transaction_completes (ws : world T) (pre post : list pc) :
  exists ws' outcome,
    run commands (repeat (List.length pre) 5) (System ws None (pre ++ Idle :: post))
    = System ws' None (pre ++ Finished outcome :: post).
Proof.
  cbn [repeat run].
  rewrite step_take, step_write, step_echo.
  destruct (step_answer (snd (serial_readline
                                (snd (serial_write
                                        (command_of commands (List.length pre) ++ [CR]) ws))))
              (Some (List.length pre)) pre post) as [answer ->].
  rewrite step_leave. eexists _, _. reflexivity.
Qed.

Lemma one_by_one_finishes (ws : world T) (pre : list pc) (rest : list bytes) :
  forallb is_finished pre = true ->
  all_finished
    (run commands
       (flat_map (fun t => repeat t 5) (seq (List.length pre) (List.length rest)))
       (System ws None (pre ++ map (fun _ => Idle) rest)))
  = true.
Proof.
  revert ws pre; induction rest as [|c rest IH]; intros ws pre Hpre.
  - simpl. unfold all_finished. simpl. rewrite app_nil_r. exact Hpre.
  - cbn [List.length seq flat_map map].
    assert (Hrun : forall l1 l2 (s : system T),
               run commands (l1 ++ l2) s = run commands l2 (run commands l1 s)).
    { induction l1; intros; simpl; auto. }
    rewrite Hrun.
    destruct (transaction_completes ws pre (map (fun _ => Idle) rest))
      as (ws' & outcome & ->).
    replace (pre ++ Finished outcome :: map (fun _ => Idle) rest)
      with ((pre ++ [Finished outcome]) ++ map (fun _ => Idle) rest)
      by (rewrite <- app_assoc; reflexivity).
    replace (S (List.length pre)) with (List.length (pre ++ [Finished outcome]))
      by (rewrite length_app; simpl; lia).
    apply IH. rewrite forallb_app, Hpre. reflexivity.
Qed.

(** So the threads can always all get through: the condition under which
    the serialization is stated is met, whatever the commands. *)
Lemma every_transaction_can_finish (w : world T) :
  all_finished
    (run commands (one_by_one (List.length commands)) (initial commands w))
  = true.
Proof.
  exact (one_by_one_finishes w [] commands eq_refl).
Qed.

End Progress.

(* ================================================================= *)
(** * Further properties of the module *)

(** ** One command on the wire *)

Section CommandEffect.
Context {T : Type} {TR : Transport T}.

(** X1: whatever the reply, [_command] writes its command line once, reads
    two lines, logs nothing, and what it returns or raises is the decoding
    of the second line: a failure is never retried and never keeps the
    lines from being read. *)
Theorem command_wire_effect (command : bytes) (w : world T) :
  exists echo answer,
    wire (snd (_command command w))
    = wire w ++ [Wr (command ++ [CR]); Rd echo; Rd answer] /\
    fst (_command command w) = _command_decode command answer /\
    logged (snd (_command command w)) = logged w.
Proof.
  destruct (command_io_wire command w) as (echo & answer & p & E).
  exists echo, answer. unfold _command, bind, lift_result. rewrite E.
  repeat split; reflexivity.
Qed.

End CommandEffect.

(** ** The outcomes of the decoding *)

(** X2: the decoding has three outcomes, each on its own kind of reply: the
    module's [DeviceError] exactly on the empty reply and the bare CR LF, a
    failed assertion exactly on a reply that is not empty and does not end
    in CR LF, and a payload exactly on a reply that ends in CR LF and is
    more than that. *)
Theorem decode_outcomes (command answer : bytes) :
  ((exists msg, _command_decode command answer = Raise (DeviceError msg))
   <-> answer = [] \/ answer = CRLF) /\
  (_command_decode command answer = Raise AssertionError
   <-> answer <> [] /\ ends_with answer CRLF = false) /\
  ((exists payload, _command_decode command answer = Ok payload)
   <-> ends_with answer CRLF = true /\ answer <> CRLF).
Proof.
  assert (A : answer = [] \/ answer = CRLF ->
              _command_decode command answer
              = Raise (DeviceError ("Failed to set command " ++ repr_bytes answer))).
  { intros [->| ->]; reflexivity. }
  assert (B : answer <> [] -> ends_with answer CRLF = false ->
              _command_decode command answer = Raise AssertionError).
  { intros Hne Hend. rewrite command_decode_shapes.
    destruct (unframed_is_not_rejected answer Hend) as [-> ->]. rewrite Hend.
    destruct answer; [congruence | reflexivity]. }
  assert (C : ends_with answer CRLF = true -> answer <> CRLF ->
              exists payload, _command_decode command answer = Ok payload).
  { intros Hend Hne. rewrite command_decode_shapes.
    apply bytes_eqb_neq in Hne. rewrite Hne, Hend.
    destruct answer; [discriminate Hend|]. simpl orb. cbv iota.
    destruct (ends_with _ CRCRLF); eexists; reflexivity. }
  assert (cases : (answer = [] \/ answer = CRLF) \/
                  (answer <> [] /\ ends_with answer CRLF = false) \/
                  (ends_with answer CRLF = true /\ answer <> CRLF)).
  { destruct answer as [|c answer]; [left; left; reflexivity|].
    destruct (bytes_eqb (c :: answer) CRLF) eqn:E.
    - apply bytes_eqb_eq in E. left; right; exact E.
    - apply bytes_eqb_neq in E. right.
      destruct (ends_with (c :: answer) CRLF); [right | left]; split;
        auto; discriminate. }
  split; [|split]; split.
  - intros [msg H]. destruct cases as [c|[[c1 c2]|[c1 c2]]]; [exact c | |].
    + rewrite (B c1 c2) in H. discriminate H.
    + destruct (C c1 c2) as [payload Hp]. rewrite Hp in H. discriminate H.
  - intros c. eexists. exact (A c).
  - intros H. destruct cases as [c|[c|[c1 c2]]]; [|exact c|].
    + rewrite (A c) in H. discriminate H.
    + destruct (C c1 c2) as [payload Hp]. rewrite Hp in H. discriminate H.
  - intros [c1 c2]. exact (B c1 c2).
  - intros [payload H]. destruct cases as [c|[[c1 c2]|c]]; [| |exact c].
    + rewrite (A c) in H. discriminate H.
    + rewrite (B c1 c2) in H. discriminate H.
  - intros [c1 c2]. exact (C c1 c2).
Qed.

(** X3: for a command that is not empty, a payload that is returned is not
    empty: an empty value after the echo comes back as the echo. *)
Theorem decoded_payload_not_empty (command answer payload : bytes) :
  command <> [] ->
  _command_decode command answer = Ok payload ->
  payload <> [].
Proof.
  intros Hc. rewrite command_decode_shapes.
  destruct answer as [|c answer]; [discriminate|].
  replace (bytes_eqb (c :: answer) []) with false by reflexivity.
  rewrite orb_false_r.
  assert (H : forall k, strip_reply command (c :: answer) k <> []).
  { intros k. unfold strip_reply.
    destruct (drop_last k _); [|discriminate].
    destruct command; [congruence | discriminate]. }
  destruct (bytes_eqb (c :: answer) CRLF); [discriminate|].
  destruct (ends_with (c :: answer) CRCRLF).
  - intros E; inversion E. apply H.
  - destruct (ends_with (c :: answer) CRLF); [|discriminate].
    intros E; inversion E. apply H.
Qed.

Lemma decoded_payload_not_empty_witness :
  b "?LW" <> [].
Proof.
  exact (@decoded_payload_not_empty (b "?LW") (b "?LW=" ++ CRLF) (b "?LW")
           ltac:(discriminate) eq_refl).
Defined.

(** X4: a framed reply that is no longer than the command is returned whole,
    its terminator included. *)
Theorem short_reply_returned_whole (command answer : bytes) :
  List.length answer <= List.length command ->
  ends_with answer CRLF = true ->
  answer <> CRLF ->
  _command_decode command answer = Ok answer.
Proof.
  intros Hlen Hend Hne. rewrite command_decode_shapes.
  assert (E1 : bytes_eqb answer CRLF = false) by (apply bytes_eqb_neq; exact Hne).
  assert (E2 : bytes_eqb answer [] = false).
  { apply bytes_eqb_neq. intros ->. discriminate Hend. }
  rewrite E1, E2, Hend. simpl orb. cbv iota.
  assert (H : forall k, strip_reply command answer k = answer).
  { intros k. unfold strip_reply.
    rewrite (skipn_all2 (n := List.length command + 1)) by lia.
    unfold drop_last. rewrite skipn_nil. simpl.
    apply firstn_all2. exact Hlen. }
  rewrite !H. destruct (ends_with answer CRCRLF); reflexivity.
Qed.

Lemma short_reply_returned_whole_witness :
  _command_decode (b "2.?LW") (b "488" ++ CRLF) = Ok (b "488" ++ CRLF).
Proof.
  apply short_reply_returned_whole.
  - simpl. lia.
  - reflexivity.
  - discriminate.
Defined.

(** X5: what a setter writes for a state is what [_parse_bool] reads back as
    that state. *)
Theorem parse_bool_of_bool_value (state : bool) :
  _parse_bool (bool_value state) = Ok state.
Proof. destruct state; reflexivity. Qed.

(** ** Constructing a laser *)

Lemma bind_ok {S A B} (m : M S A) (k : A -> M S B) (s s' : S) (y : B) :
  bind m k s = (Ok y, s') ->
  exists x s1, m s = (Ok x, s1) /\ k x s1 = (Ok y, s').
Proof.
  unfold bind. destruct (m s) as [[x|e] s1]; [|discriminate].
  intros H. exists x, s1. auto.
Qed.

Section LaserConstruction.
Context {T : Type} {TR : Transport T} {PY : PyBuiltins}.

Lemma get_int_sent (self : VersaLaseLaserConnection) (name : bytes) (r : result Z)
  (w w' : world T) :
  get_int self name w = (r, w') ->
  sent w' = sent w ++ [query_line (_param_prefix self) name] /\ logged w' = logged w.
Proof.
  intros H. pose proof (get_int_unfold self name w) as E. rewrite H in E.
  simpl in E. rewrite E. apply laser_query_unfold.
Qed.

Lemma get_float_sent (self : VersaLaseLaserConnection) (name : bytes) (r : result float)
  (w w' : world T) :
  get_float self name w = (r, w') ->
  sent w' = sent w ++ [query_line (_param_prefix self) name] /\ logged w' = logged w.
Proof.
  intros H. pose proof (get_float_unfold self name w) as E. rewrite H in E.
  simpl in E. rewrite E. apply laser_query_unfold.
Qed.

Lemma get_bool_sent (self : VersaLaseLaserConnection) (name : bytes) (r : result bool)
  (w w' : world T) :
  get_bool self name w = (r, w') ->
  sent w' = sent w ++ [query_line (_param_prefix self) name] /\ logged w' = logged w.
Proof.
  intros H. pose proof (get_bool_unfold self name w) as E. rewrite H in E.
  simpl in E. rewrite E. apply laser_query_unfold.
Qed.

Lemma laser_command_sent (self : VersaLaseLaserConnection) (name value : bytes)
  (r : result unit) (w w' : world T) :
  _laser_command self name value w = (r, w') ->
  sent w' = sent w ++ [change_line (_param_prefix self) name value] /\
  logged w' = logged w.
Proof.
  intros H. pose proof (laser_command_unfold self name value w) as E.
  rewrite H in E. exact E.
Qed.

(** What a constructed connection of a laser has behind it. *)
Lemma laser_connection_ok (i : Z) (conn : VersaLaseLaserConnection) (w w' : world T) :
  VersaLaseLaserConnection_init i w = (Ok conn, w') ->
  conn = LaserConnection (b (format_d i) ++ b ".") /\
  sent w' = sent w ++ [query_line (_param_prefix conn) (b "LW");
                       change_line (_param_prefix conn) (b "DELAY") (b "0")] /\
  logged w' = logged w.
Proof.
  unfold VersaLaseLaserConnection_init, try_except_DeviceError.
  set (self := LaserConnection (b (format_d i) ++ b ".")).
  destruct ((get_wavelength self;; set_delay self false;; ret self) w)
    as [[conn'|e] w1] eqn:E.
  - intros H; inversion H; subst conn' w1; clear H.
    apply bind_ok in E as (wavelength & w1 & E1 & E).
    apply bind_ok in E as ([] & w2 & E2 & E).
    unfold ret in E. inversion E; subst conn w2; clear E.
    apply get_int_sent in E1 as [S1 L1].
    apply laser_command_sent in E2 as [S2 L2].
    split; [reflexivity|]. split; [|congruence].
    rewrite S2, S1, <- app_assoc. reflexivity.
  - destruct (is_DeviceError e); unfold raise; discriminate.
Qed.

Lemma laser_init_ok (i : Z) (laser : VersaLaseLaser) (w w' : world T) :
  VersaLaseLaser_init i w = (Ok laser, w') ->
  _conn laser = LaserConnection (b (format_d i) ++ b ".") /\
  sent w' = sent w ++ [query_line (_param_prefix (_conn laser)) (b "LW");
                       change_line (_param_prefix (_conn laser)) (b "DELAY") (b "0");
                       query_line (_param_prefix (_conn laser)) (b "MAXP");
                       query_line (_param_prefix (_conn laser)) (b "LPS");
                       query_line (_param_prefix (_conn laser)) (b "PUL")] /\
  logged w' = logged w.
Proof.
  unfold VersaLaseLaser_init. intros H.
  apply bind_ok in H as (conn & w1 & E1 & H).
  apply bind_ok in H as (max_power & w2 & E2 & H).
  apply bind_ok in H as (save_power & w3 & E3 & H).
  apply bind_ok in H as (mode & w4 & E4 & H).
  unfold ret in H. inversion H; subst laser w4; clear H. simpl _conn.
  apply laser_connection_ok in E1 as (Hc & S1 & L1).
  apply get_float_sent in E2 as [S2 L2].
  apply get_float_sent in E3 as [S3 L3].
  apply get_bool_sent in E4 as [S4 L4].
  split; [exact Hc|]. split; [|congruence].
  rewrite S4, S3, S2, S1, <- !app_assoc. reflexivity.
Qed.

(** X6: whatever made the probe fail, the wavelength query or the delay
    command, a [DeviceError] that leaves the constructor of a laser's
    connection carries the message about the wavelength and the slot's
    number. *)
Theorem laser_connection_error_message (i : Z) (msg : string) (w w' : world T) :
  VersaLaseLaserConnection_init i w = (Raise (DeviceError msg), w') ->
  msg = ("failed to get laser wavelength, probably no laser " ++ format_d i)%string.
Proof.
  unfold VersaLaseLaserConnection_init, try_except_DeviceError.
  destruct ((get_wavelength _;; set_delay _ false;; ret _) w) as [[conn|e] w1].
  - discriminate.
  - destruct e; simpl; unfold raise; intros H; inversion H; reflexivity.
Qed.

(** X7: a laser that is constructed stands for the slot's prefix, and its
    construction has sent five commands, in this order: the wavelength
    query, [DELAY=0], and the queries of the maximum power, the power
    setting and the pulse mode; it has logged nothing. *)
Theorem laser_init_commands (i : Z) (laser : VersaLaseLaser) (w w' : world T) :
  VersaLaseLaser_init i w = (Ok laser, w') ->
  _param_prefix (_conn laser) = b (format_d i) ++ b "." /\
  sent w' = sent w ++ [query_line (_param_prefix (_conn laser)) (b "LW");
                       change_line (_param_prefix (_conn laser)) (b "DELAY") (b "0");
                       query_line (_param_prefix (_conn laser)) (b "MAXP");
                       query_line (_param_prefix (_conn laser)) (b "LPS");
                       query_line (_param_prefix (_conn laser)) (b "PUL")] /\
  logged w' = logged w.
Proof.
  intros H. destruct (laser_init_ok _ _ H) as (Hc & Hs & Hl).
  rewrite Hc at 1. auto.
Qed.

(** X8: whenever the loop over the slots returns, every entry of its result
    is a laser of one of the slots, under that slot's name and with that
    slot's prefix. *)
Theorem discovered_lasers_match_their_names (slots : list Z)
  (lasers : list (string * VersaLaseLaser)) (w w' : world T) :
  discover slots [] w = (Ok lasers, w') ->
  Forall (fun entry =>
            exists i, In i slots /\ fst entry = laser_name i /\
                      _param_prefix (_conn (snd entry)) = b (format_d i) ++ b ".")
         lasers.
Proof.
  set (good := fun (known : list Z) (entry : string * VersaLaseLaser) =>
                 exists i, In i known /\ fst entry = laser_name i /\
                           _param_prefix (_conn (snd entry)) = b (format_d i) ++ b ".").
  assert (Hset : forall known d i laser,
             Forall (good known) d ->
             _param_prefix (_conn laser) = b (format_d i) ++ b "." -> In i known ->
             Forall (good known) (dict_set d (laser_name i) laser)).
  { intros known d i laser Hd Hp Hi.
    induction d as [|[k v] d IH]; simpl.
    - constructor; [|constructor]. exists i. auto.
    - inversion Hd as [|? ? Hkv Hd']; subst.
      destruct (String.eqb_spec k (laser_name i)) as [->|_].
      + constructor; [|exact Hd']. exists i. auto.
      + constructor; [exact Hkv | exact (IH Hd')]. }
  assert (Hloop : forall todo known acc w0 w1 lasers0,
             (forall i, In i todo -> In i known) ->
             Forall (good known) acc ->
             discover todo acc w0 = (Ok lasers0, w1) ->
             Forall (good known) lasers0).
  { induction todo as [|i todo IH]; intros known acc w0 w1 lasers0 Hin Hacc; simpl.
    - unfold ret. intros H; inversion H; subst. exact Hacc.
    - destruct (VersaLaseLaser_init i w0) as [[laser|e] w2] eqn:E.
      + unfold bind, log_info. apply IH.
        * intros j Hj. apply Hin. right. exact Hj.
        * apply Hset; [exact Hacc | | apply Hin; left; reflexivity].
          destruct (laser_init_ok _ _ E) as (Hc & _). rewrite Hc. reflexivity.
      + destruct (is_DeviceError e); [|discriminate].
        unfold bind, log_info. apply IH; [|exact Hacc].
        intros j Hj. apply Hin. right. exact Hj. }
  intros H. exact (Hloop slots slots [] w w' lasers (fun i Hi => Hi) (Forall_nil _) H).
Qed.

End LaserConstruction.

Lemma laser_connection_error_message_witness :
  ("failed to get laser wavelength, probably no laser 1"
   = "failed to get laser wavelength, probably no laser " ++ format_d 1)%string.
Proof.
  exact (@laser_connection_error_message _ _ Sim.decimal_builtins 1%Z
           "failed to get laser wavelength, probably no laser 1"
           Sim.three_lasers
           (snd (VersaLaseLaserConnection_init (PY := Sim.decimal_builtins) 1%Z
                   Sim.three_lasers))
           eq_refl).
Defined.

Lemma laser_init_commands_witness :
  sent (snd (VersaLaseLaser_init (PY := Sim.decimal_builtins) 2%Z Sim.three_lasers))
  = [b "2.?LW" ++ [CR]; b "2.DELAY=0" ++ [CR]; b "2.?MAXP" ++ [CR];
     b "2.?LPS" ++ [CR]; b "2.?PUL" ++ [CR]].
Proof.
  assert (H : VersaLaseLaser_init (PY := Sim.decimal_builtins) 2%Z Sim.three_lasers
              = (Ok (Laser (LaserConnection (b "2.")) 500%Z 123%Z false),
                 snd (VersaLaseLaser_init (PY := Sim.decimal_builtins) 2%Z
                        Sim.three_lasers)))
    by (apply outcome_of_fst; reflexivity).
  destruct (@laser_init_commands _ _ _ _ _ _ _ H) as (_ & E & _). exact E.
Defined.

Lemma discovered_lasers_match_their_names_witness :
  Forall (fun entry =>
            exists i, In i slot_range /\ fst entry = laser_name i /\
                      _param_prefix (_conn (snd entry)) = b (format_d i) ++ b ".")
         [("laser2"%string, Laser (LaserConnection (b "2.")) 500%Z 123%Z false);
          ("laser5"%string, Laser (LaserConnection (b "5.")) 500%Z 123%Z false);
          ("laser7"%string, Laser (LaserConnection (b "7.")) 500%Z 123%Z false)].
Proof.
  assert (H : discover (PY := Sim.decimal_builtins) slot_range [] Sim.three_lasers
              = (Ok [("laser2"%string, Laser (LaserConnection (b "2.")) 500%Z 123%Z false);
                     ("laser5"%string, Laser (LaserConnection (b "5.")) 500%Z 123%Z false);
                     ("laser7"%string, Laser (LaserConnection (b "7.")) 500%Z 123%Z false)],
                 snd (discover (PY := Sim.decimal_builtins) slot_range []
                        Sim.three_lasers)))
    by (apply outcome_of_fst; reflexivity).
  exact (@discovered_lasers_match_their_names _ _ _ _ _ _ _ H).
Defined.

(** ** Power and pulse mode, set and reconciled *)

Section Reconciliation.
Context {T : Type} {TR : Transport T} {PY : PyBuiltins}.

(** [_do_enable] after its first two commands have gone through. *)
Lemma do_enable_unfold (self : VersaLaseLaser) (setting : float) (w w1 w2 : world T) :
  set_emission (_conn self) true w = (Ok tt, w1) ->
  get_power_setting (_conn self) w1 = (Ok setting, w2) ->
  _do_enable (self, w)
  = if float_ne setting (_save_power self) then
      on_port (set_power (_conn self) (_save_power self)) (self, w2)
    else
      (pulse_mode <- on_port (get_pulse_mode (_conn self)) ;;
       if negb (Bool.eqb pulse_mode (_track_digital_modulation self)) then
         on_port (set_pulse_mode (_conn self) (_track_digital_modulation self))
       else ret tt) (self, w2).
Proof.
  intros H1 H2. unfold _do_enable, bind at 1 2 3, get_self, on_port at 1 2. simpl.
  rewrite H1. simpl. rewrite H2.
  destruct (float_ne setting (_save_power self)); reflexivity.
Qed.

Lemma on_port_run {A} (m : M (world T) A) (self : VersaLaseLaser) (w : world T) :
  on_port m (self, w) = (fst (m w), (self, snd (m w))).
Proof. unfold on_port. simpl. destruct (m w); reflexivity. Qed.

(** X9: with the emission on, [_do_set_power] asks for the emission state
    and sends [LP=] with the power times the cached maximum, and leaves the
    laser's own fields as they were: the power it sets is not saved. *)
Theorem power_write_while_enabled (self : VersaLaseLaser) (power : float)
  (w w1 : world T) :
  get_emission_status (_conn self) w = (Ok true, w1) ->
  fst (snd (_do_set_power power (self, w))) = self /\
  sent (snd (snd (_do_set_power power (self, w))))
  = sent w ++ [query_line (_param_prefix (_conn self)) (b "LE");
               change_line (_param_prefix (_conn self)) (b "LP")
                 (format_1f (float_mul power (_max_power self)))] /\
  fst (_do_set_power power (self, w))
  = fst (set_power (_conn self) (float_mul power (_max_power self)) w1).
Proof.
  intros H.
  assert (E : _do_set_power power (self, w)
              = on_port (set_power (_conn self) (float_mul power (_max_power self)))
                  (self, w1)).
  { unfold _do_set_power, bind, get_self, on_port at 1. simpl. rewrite H. reflexivity. }
  rewrite E, on_port_run. simpl.
  destruct (get_bool_sent _ _ _ H) as [S1 _].
  destruct (laser_command_unfold (_conn self) (b "LP")
              (format_1f (float_mul power (_max_power self))) w1) as [S2 _].
  unfold set_power. rewrite S2, S1, <- app_assoc. auto.
Qed.

(** X10: a power that was deferred is what the next enabling writes: after
    [_do_set_power] with the emission off, [_do_enable] sends [LE=1], asks
    for the power setting and, when the device's setting differs from the
    deferred power, sends [LP=] with that power. *)
Theorem deferred_power_applied_on_enable (self : VersaLaseLaser) (power setting : float)
  (w w1 w2 w3 : world T) :
  get_emission_status (_conn self) w = (Ok false, w1) ->
  set_emission (_conn self) true w1 = (Ok tt, w2) ->
  get_power_setting (_conn self) w2 = (Ok setting, w3) ->
  float_ne setting (float_mul power (_max_power self)) = true ->
  sent (snd (snd (_do_enable (snd (_do_set_power power (self, w))))))
  = sent w ++ [query_line (_param_prefix (_conn self)) (b "LE");
               change_line (_param_prefix (_conn self)) (b "LE") (b "1");
               query_line (_param_prefix (_conn self)) (b "LPS");
               change_line (_param_prefix (_conn self)) (b "LP")
                 (format_1f (float_mul power (_max_power self)))].
Proof.
  intros H0 H1 H2 Hne.
  assert (E : snd (_do_set_power power (self, w))
              = (Laser (_conn self) (_max_power self)
                   (float_mul power (_max_power self))
                   (_track_digital_modulation self), w1)).
  { unfold _do_set_power, bind, get_self, on_port, set_save_power, raise. simpl.
    rewrite H0. reflexivity. }
  rewrite E.
  rewrite (@do_enable_unfold _ setting w1 w2 w3) by assumption.
  simpl _save_power. rewrite Hne, on_port_run. simpl.
  destruct (get_bool_sent _ _ _ H0) as [S0 _].
  destruct (laser_command_sent _ _ _ _ H1) as [S1 _].
  destruct (get_float_sent _ _ _ H2) as [S2 _].
  destruct (laser_command_unfold (_conn self) (b "LP")
              (format_1f (float_mul power (_max_power self))) w3) as [S3 _].
  unfold set_power. rewrite S3, S2, S1, S0, <- !app_assoc. reflexivity.
Qed.

(** [_do_enable], call by call. *)
Lemma do_enable_steps (self : VersaLaseLaser) (w : world T) :
  _do_enable (self, w)
  = match set_emission (_conn self) true w with
    | (Raise e, w1) => (Raise e, (self, w1))
    | (Ok _, w1) =>
        match get_power_setting (_conn self) w1 with
        | (Raise e, w2) => (Raise e, (self, w2))
        | (Ok setting, w2) =>
            if float_ne setting (_save_power self) then
              (fst (set_power (_conn self) (_save_power self) w2),
               (self, snd (set_power (_conn self) (_save_power self) w2)))
            else
              match get_pulse_mode (_conn self) w2 with
              | (Raise e, w3) => (Raise e, (self, w3))
              | (Ok mode, w3) =>
                  if negb (Bool.eqb mode (_track_digital_modulation self)) then
                    (fst (set_pulse_mode (_conn self)
                            (_track_digital_modulation self) w3),
                     (self, snd (set_pulse_mode (_conn self)
                                   (_track_digital_modulation self) w3)))
                  else (Ok tt, (self, w3))
              end
        end
    end.
Proof.
  unfold _do_enable, bind, get_self, on_port, ret. simpl.
  destruct (set_emission (_conn self) true w) as [[[]|e] w1]; [|reflexivity].
  simpl. destruct (get_power_setting (_conn self) w1) as [[setting|e] w2]; [|reflexivity].
  simpl. destruct (float_ne setting (_save_power self)).
  - cbn [fst snd].
    destruct (set_power (_conn self) (_save_power self) w2); reflexivity.
  - cbn [fst snd].
    destruct (get_pulse_mode (_conn self) w2) as [[mode|e] w3]; [|reflexivity].
    simpl. destruct (negb (Bool.eqb mode (_track_digital_modulation self))); [|reflexivity].
    cbn [fst snd].
    destruct (set_pulse_mode (_conn self) (_track_digital_modulation self) w3);
      reflexivity.
Qed.

(** X11: [_do_enable] never changes the laser's own fields (a saved value
    stays saved once it was applied), always writes [LE=1] first, and writes
    at most three commands after it. *)
Theorem enable_frame (self : VersaLaseLaser) (w : world T) :
  fst (snd (_do_enable (self, w))) = self /\
  exists rest,
    sent (snd (snd (_do_enable (self, w))))
    = sent w ++ change_line (_param_prefix (_conn self)) (b "LE") (b "1") :: rest /\
    List.length rest <= 3.
Proof.
  rewrite do_enable_steps.
  destruct (set_emission (_conn self) true w) as [[[]|e] w1] eqn:E1;
    destruct (laser_command_sent _ _ _ _ E1) as [S1 _];
    change (bool_value true) with (b "1") in S1.
  2:{ split; [reflexivity|]. exists []. simpl. rewrite S1. split; [reflexivity | lia]. }
  destruct (get_power_setting (_conn self) w1) as [[setting|e] w2] eqn:E2;
    destruct (get_float_sent _ _ _ E2) as [S2 _].
  2:{ split; [reflexivity|]. eexists. simpl. rewrite S2, S1, <- app_assoc.
      split; [reflexivity | simpl; lia]. }
  destruct (float_ne setting (_save_power self)).
  { destruct (laser_command_unfold (_conn self) (b "LP")
                (format_1f (_save_power self)) w2) as [S3 _].
    split; [reflexivity|]. eexists. simpl. unfold set_power.
    rewrite S3, S2, S1, <- !app_assoc. split; [reflexivity | simpl; lia]. }
  destruct (get_pulse_mode (_conn self) w2) as [[mode|e] w3] eqn:E3;
    destruct (get_bool_sent _ _ _ E3) as [S3 _].
  2:{ split; [reflexivity|]. eexists. simpl. rewrite S3, S2, S1, <- !app_assoc.
      split; [reflexivity | simpl; lia]. }
  destruct (negb (Bool.eqb mode (_track_digital_modulation self))).
  - destruct (laser_command_unfold (_conn self) (b "PUL")
                (bool_value (_track_digital_modulation self)) w3) as [S4 _].
    split; [reflexivity|]. eexists. simpl. unfold set_pulse_mode.
    rewrite S4, S3, S2, S1, <- !app_assoc. split; [reflexivity | simpl; lia].
  - split; [reflexivity|]. eexists. simpl. rewrite S3, S2, S1, <- !app_assoc.
    split; [reflexivity | simpl; lia].
Qed.

End Reconciliation.

Lemma power_write_while_enabled_witness :
  sent (snd (snd (_do_set_power (PY := Sim.decimal_builtins) 5%Z
                    (Sim.laser2,
                     Sim.fresh (Sim.answering (b "2.?LE" ++ [CR])
                                  (CRLF ++ b "2.?LE=1" ++ CRLF)
                                  (Sim.versalase (list_ascii_of_string "257")))))))
  = [b "2.?LE" ++ [CR]; b "2.LP=25.0" ++ [CR]].
Proof.
  assert (H : get_emission_status (_conn Sim.laser2)
                (Sim.fresh (Sim.answering (b "2.?LE" ++ [CR])
                              (CRLF ++ b "2.?LE=1" ++ CRLF)
                              (Sim.versalase (list_ascii_of_string "257"))))
              = (Ok true,
                 snd (get_emission_status (_conn Sim.laser2)
                        (Sim.fresh (Sim.answering (b "2.?LE" ++ [CR])
                                      (CRLF ++ b "2.?LE=1" ++ CRLF)
                                      (Sim.versalase (list_ascii_of_string "257")))))))
    by reflexivity.
  destruct (@power_write_while_enabled _ _ Sim.decimal_builtins Sim.laser2 5%Z _ _ H)
    as (_ & E & _).
  exact E.
Defined.

Lemma deferred_power_applied_on_enable_witness :
  sent (snd (snd (_do_enable (PY := Sim.decimal_builtins)
                    (snd (_do_set_power (PY := Sim.decimal_builtins) 4%Z
                            (Sim.laser2, Sim.three_lasers))))))
  = [b "2.?LE" ++ [CR]; b "2.LE=1" ++ [CR]; b "2.?LPS" ++ [CR]; b "2.LP=20.0" ++ [CR]].
Proof.
  assert (H0 : get_emission_status (_conn Sim.laser2) Sim.three_lasers
               = (Ok false, snd (get_emission_status (_conn Sim.laser2) Sim.three_lasers)))
    by reflexivity.
  assert (H1 : set_emission (_conn Sim.laser2) true
                 (snd (get_emission_status (_conn Sim.laser2) Sim.three_lasers))
               = (Ok tt,
                  snd (set_emission (_conn Sim.laser2) true
                         (snd (get_emission_status (_conn Sim.laser2)
                                 Sim.three_lasers)))))
    by reflexivity.
  assert (H2 : get_power_setting (PY := Sim.decimal_builtins) (_conn Sim.laser2)
                 (snd (set_emission (_conn Sim.laser2) true
                         (snd (get_emission_status (_conn Sim.laser2)
                                 Sim.three_lasers))))
               = (Ok 123%Z,
                  snd (get_power_setting (PY := Sim.decimal_builtins) (_conn Sim.laser2)
                         (snd (set_emission (_conn Sim.laser2) true
                                 (snd (get_emission_status (_conn Sim.laser2)
                                         Sim.three_lasers)))))))
    by reflexivity.
  exact (@deferred_power_applied_on_enable _ _ Sim.decimal_builtins Sim.laser2
           4%Z 123%Z _ _ _ _ H0 H1 H2 eq_refl).
Defined.

(** ** The trigger *)

Section TriggerFacts.
Context {T : Type} {TR : Transport T} {PY : PyBuiltins} {TE : TriggerEnums}.

(** X12: asked for a mode other than BULB, or in BULB mode for a type that
    is neither HIGH nor SOFTWARE, [set_trigger] raises
    [UnsupportedFeatureError] having written nothing to the port and changed
    nothing of the laser. *)
Theorem set_trigger_unsupported (ttype : TriggerType) (tmode : TriggerMode)
  (self : VersaLaseLaser) (w : world T) :
  is_BULB tmode = false \/ (is_HIGH ttype = false /\ is_SOFTWARE ttype = false) ->
  exists msg,
    set_trigger ttype tmode (self, w) = (Ok (UnsupportedFeature msg), (self, w)).
Proof.
  unfold set_trigger, ret.
  destruct (is_BULB tmode); simpl.
  - intros [H|[-> ->]]; [discriminate|]. eexists; reflexivity.
  - intros _. eexists; reflexivity.
Qed.

(** The mode a supported type stands for. *)
Lemma set_trigger_supported (ttype : TriggerType) (tmode : TriggerMode) :
  is_BULB tmode = true ->
  is_HIGH ttype = true \/ is_SOFTWARE ttype = true ->
  set_trigger (T := T) ttype tmode = change_pulse_mode (is_HIGH ttype).
Proof.
  unfold set_trigger. intros -> H. simpl.
  destruct (is_HIGH ttype); [reflexivity|].
  destruct H as [H| ->]; [discriminate | reflexivity].
Qed.

(** X13: with the emission off, [set_trigger] for HIGH or SOFTWARE in BULB
    mode sends only the query of the emission state (no [PUL=] command),
    saves the pulse mode asked for (on for HIGH, off for SOFTWARE) in
    [_track_digital_modulation], and fails with a [DeviceError] that says
    the setting was saved. *)
Theorem set_trigger_deferred (ttype : TriggerType) (tmode : TriggerMode)
  (self : VersaLaseLaser) (w w1 : world T) :
  is_BULB tmode = true ->
  is_HIGH ttype = true \/ is_SOFTWARE ttype = true ->
  get_emission_status (_conn self) w = (Ok false, w1) ->
  set_trigger ttype tmode (self, w)
  = (Raise (DeviceError
       "Failed to change to DM, but setting has been saved and will be changed once laser is enabled"),
     (Laser (_conn self) (_max_power self) (_save_power self) (is_HIGH ttype), w1)) /\
  sent w1 = sent w ++ [query_line (_param_prefix (_conn self)) (b "LE")].
Proof.
  intros Hb Ht H. rewrite (set_trigger_supported _ _ Hb Ht).
  split.
  - unfold change_pulse_mode, bind, get_self, on_port, set_track_digital_modulation,
      raise. simpl. rewrite H. reflexivity.
  - exact (proj1 (get_bool_sent _ _ _ H)).
Qed.

(** X14: with the emission on, [set_trigger] for HIGH or SOFTWARE in BULB
    mode sends the query of the emission state and then [PUL=1] for HIGH or
    [PUL=0] for SOFTWARE, and leaves the laser's saved pulse mode as it was. *)
Theorem set_trigger_while_enabled (ttype : TriggerType) (tmode : TriggerMode)
  (self : VersaLaseLaser) (w w1 : world T) :
  is_BULB tmode = true ->
  is_HIGH ttype = true \/ is_SOFTWARE ttype = true ->
  get_emission_status (_conn self) w = (Ok true, w1) ->
  fst (snd (set_trigger ttype tmode (self, w))) = self /\
  sent (snd (snd (set_trigger ttype tmode (self, w))))
  = sent w ++ [query_line (_param_prefix (_conn self)) (b "LE");
               change_line (_param_prefix (_conn self)) (b "PUL")
                 (bool_value (is_HIGH ttype))].
Proof.
  intros Hb Ht H. rewrite (set_trigger_supported _ _ Hb Ht).
  unfold change_pulse_mode, bind, get_self, on_port, ret. simpl. rewrite H. simpl.
  destruct (laser_command_unfold (_conn self) (b "PUL") (bool_value (is_HIGH ttype)) w1)
    as [S2 _].
  destruct (get_bool_sent _ _ _ H) as [S1 _].
  unfold set_pulse_mode in *.
  destruct (_laser_command (_conn self) (b "PUL") (bool_value (is_HIGH ttype)) w1)
    as [[[]|e] w2]; simpl in *; rewrite S2, S1, <- app_assoc; auto.
Qed.

(** X15: a pulse mode that was deferred is reconciled by the next enabling
    only after the power: when the device's power setting agrees with the
    saved power, [_do_enable] asks for the pulse mode and, when it differs
    from the deferred one, sends [PUL=] with the deferred one. *)
Theorem deferred_pulse_mode_applied_on_enable (ttype : TriggerType) (tmode : TriggerMode)
  (self : VersaLaseLaser) (setting : float) (mode : bool) (w w1 w2 w3 w4 : world T) :
  is_BULB tmode = true ->
  is_HIGH ttype = true \/ is_SOFTWARE ttype = true ->
  get_emission_status (_conn self) w = (Ok false, w1) ->
  set_emission (_conn self) true w1 = (Ok tt, w2) ->
  get_power_setting (_conn self) w2 = (Ok setting, w3) ->
  float_ne setting (_save_power self) = false ->
  get_pulse_mode (_conn self) w3 = (Ok mode, w4) ->
  mode <> is_HIGH ttype ->
  sent (snd (snd (_do_enable (snd (set_trigger ttype tmode (self, w))))))
  = sent w ++ [query_line (_param_prefix (_conn self)) (b "LE");
               change_line (_param_prefix (_conn self)) (b "LE") (b "1");
               query_line (_param_prefix (_conn self)) (b "LPS");
               query_line (_param_prefix (_conn self)) (b "PUL");
               change_line (_param_prefix (_conn self)) (b "PUL")
                 (bool_value (is_HIGH ttype))].
Proof.
  intros Hb Ht H0 H1 H2 Heq H3 Hdiff.
  assert (E : snd (set_trigger ttype tmode (self, w))
              = (Laser (_conn self) (_max_power self) (_save_power self)
                   (is_HIGH ttype), w1)).
  { rewrite (set_trigger_supported _ _ Hb Ht).
    unfold change_pulse_mode, bind, get_self, on_port, set_track_digital_modulation,
      raise. simpl. rewrite H0. reflexivity. }
  rewrite E, do_enable_steps. cbn [_conn _save_power _track_digital_modulation].
  rewrite H1, H2, Heq, H3.
  assert (Hn : negb (Bool.eqb mode (is_HIGH ttype)) = true).
  { destruct mode, (is_HIGH ttype); try reflexivity; congruence. }
  rewrite Hn. cbn [fst snd].
  destruct (get_bool_sent _ _ _ H0) as [S0 _].
  destruct (laser_command_sent _ _ _ _ H1) as [S1 _].
  destruct (get_float_sent _ _ _ H2) as [S2 _].
  destruct (get_bool_sent _ _ _ H3) as [S3 _].
  destruct (laser_command_unfold (_conn self) (b "PUL") (bool_value (is_HIGH ttype)) w4)
    as [S4 _].
  unfold set_pulse_mode. rewrite S4, S3, S2, S1, S0, <- !app_assoc. reflexivity.
Qed.

End TriggerFacts.

Lemma set_trigger_unsupported_witness :
  exists msg,
    set_trigger (PY := Sim.decimal_builtins) SimTrigger.SOFTWARE SimTrigger.ONCE
      (Sim.laser2, Sim.three_lasers)
    = (Ok (UnsupportedFeature msg), (Sim.laser2, Sim.three_lasers)).
Proof.
  apply (@set_trigger_unsupported _ _ Sim.decimal_builtins SimTrigger.enums
           SimTrigger.SOFTWARE SimTrigger.ONCE Sim.laser2 Sim.three_lasers).
  left. reflexivity.
Defined.

Lemma set_trigger_deferred_witness :
  fst (set_trigger (PY := Sim.decimal_builtins) SimTrigger.SOFTWARE SimTrigger.BULB
         (Sim.laser2, Sim.three_lasers))
  = Raise (DeviceError
      "Failed to change to DM, but setting has been saved and will be changed once laser is enabled") /\
  _track_digital_modulation
    (fst (snd (set_trigger (PY := Sim.decimal_builtins) SimTrigger.SOFTWARE
                 SimTrigger.BULB (Sim.laser2, Sim.three_lasers))))
  = false.
Proof.
  assert (H : get_emission_status (_conn Sim.laser2) Sim.three_lasers
              = (Ok false, snd (get_emission_status (_conn Sim.laser2) Sim.three_lasers)))
    by reflexivity.
  destruct (@set_trigger_deferred _ _ Sim.decimal_builtins SimTrigger.enums
              SimTrigger.SOFTWARE SimTrigger.BULB Sim.laser2 _ _
              eq_refl (or_intror eq_refl) H) as [E _].
  rewrite E. split; reflexivity.
Defined.

Lemma set_trigger_while_enabled_witness :
  sent (snd (snd (set_trigger (PY := Sim.decimal_builtins)
                    SimTrigger.RISING_EDGE SimTrigger.BULB
                    (Sim.laser2,
                     Sim.fresh (Sim.answering (b "2.?LE" ++ [CR])
                                  (CRLF ++ b "2.?LE=1" ++ CRLF)
                                  (Sim.versalase (list_ascii_of_string "257")))))))
  = [b "2.?LE" ++ [CR]; b "2.PUL=1" ++ [CR]].
Proof.
  assert (H : get_emission_status (_conn Sim.laser2)
                (Sim.fresh (Sim.answering (b "2.?LE" ++ [CR])
                              (CRLF ++ b "2.?LE=1" ++ CRLF)
                              (Sim.versalase (list_ascii_of_string "257"))))
              = (Ok true,
                 snd (get_emission_status (_conn Sim.laser2)
                        (Sim.fresh (Sim.answering (b "2.?LE" ++ [CR])
                                      (CRLF ++ b "2.?LE=1" ++ CRLF)
                                      (Sim.versalase (list_ascii_of_string "257")))))))
    by reflexivity.
  destruct (@set_trigger_while_enabled _ _ Sim.decimal_builtins SimTrigger.enums
              SimTrigger.RISING_EDGE SimTrigger.BULB Sim.laser2 _ _
              eq_refl (or_introl eq_refl) H) as [_ E].
  exact E.
Defined.

Lemma deferred_pulse_mode_applied_on_enable_witness :
  sent (snd (snd (_do_enable (PY := Sim.decimal_builtins)
                    (snd (set_trigger (PY := Sim.decimal_builtins)
                            SimTrigger.RISING_EDGE SimTrigger.BULB
                            (Laser (LaserConnection (b "2.")) 500%Z 123%Z false,
                             Sim.three_lasers))))))
  = [b "2.?LE" ++ [CR]; b "2.LE=1" ++ [CR]; b "2.?LPS" ++ [CR];
     b "2.?PUL" ++ [CR]; b "2.PUL=1" ++ [CR]].
Proof.
  set (self := Laser (PY := Sim.decimal_builtins) (LaserConnection (b "2."))
                 500%Z 123%Z false).
  set (w1 := snd (get_emission_status (_conn self) Sim.three_lasers)).
  set (w2 := snd (set_emission (_conn self) true w1)).
  set (w3 := snd (get_power_setting (PY := Sim.decimal_builtins) (_conn self) w2)).
  set (w4 := snd (get_pulse_mode (_conn self) w3)).
  assert (H0 : get_emission_status (_conn self) Sim.three_lasers = (Ok false, w1))
    by reflexivity.
  assert (H1 : set_emission (_conn self) true w1 = (Ok tt, w2)) by reflexivity.
  assert (H2 : get_power_setting (PY := Sim.decimal_builtins) (_conn self) w2
               = (Ok 123%Z, w3)) by reflexivity.
  assert (H3 : get_pulse_mode (_conn self) w3 = (Ok false, w4)) by reflexivity.
  exact (@deferred_pulse_mode_applied_on_enable _ _ Sim.decimal_builtins SimTrigger.enums
           SimTrigger.RISING_EDGE SimTrigger.BULB self 123%Z false
           Sim.three_lasers w1 w2 w3 w4
           eq_refl (or_introl eq_refl) H0 H1 H2 eq_refl H3 ltac:(discriminate)).
Defined.

(** ** Opening the connection *)

Section Opening.
Context {T : Type} {TR : Transport T}.

Lemma readlines_sent (w : world T) :
  sent (snd (serial_readlines w)) = sent w /\
  logged (snd (serial_readlines w)) = logged w /\
  port (snd (serial_readlines w)) = snd (port_readlines (port w)) /\
  exists lines, serial_readlines w = (Ok lines, snd (serial_readlines w)).
Proof.
  unfold serial_readlines, sent. destruct (port_readlines (port w)) as [lines p].
  simpl. rewrite sent_of_app, sent_of_reads, app_nil_r. eauto.
Qed.

Lemma command_sent_eq (command : bytes) (r : result bytes) (w w' : world T) :
  _command command w = (r, w') ->
  sent w' = sent w ++ [command ++ [CR]] /\ logged w' = logged w.
Proof.
  intros H. pose proof (command_sent command w) as E. rewrite H in E. exact E.
Qed.

(** X16: the connection opens only on a port that answers the version query
    with a blank line and then a line that starts with [?SPV=], and only when
    both suppression commands get a framed reply; it has then written three
    commands, [?SPV], [ECHO=0] and [PROMPT=0], in this order, and logged
    nothing. *)
Theorem connection_opens_only_when_recognised (w w' : world T) :
  VersaLaseConnection_init w = (Ok tt, w') ->
  fst (handshake_lines (port w)) = CRLF /\
  startswith (snd (handshake_lines (port w))) (b "?SPV=") = true /\
  sent w' = sent w ++ [b "?SPV" ++ [CR]; b "ECHO=0" ++ [CR]; b "PROMPT=0" ++ [CR]] /\
  logged w' = logged w.
Proof.
  unfold VersaLaseConnection_init, handshake_lines.
  set (version_query := b "?SPV" ++ [CR]). set (tag := b "?SPV=").
  intros H.
  apply bind_ok in H as (stale & w0 & E0 & H).
  apply bind_ok in H as ([] & w1 & E1 & H).
  apply bind_ok in H as (echo_reply & w2 & E2 & H).
  apply bind_ok in H as (prompt_reply & w3 & E3 & H).
  apply bind_ok in H as (rest & w4 & E4 & H).
  unfold ret in H. inversion H; subst w4; clear H.
  destruct (readlines_sent w) as (S0 & L0 & P0 & _). rewrite E0 in S0, L0, P0.
  cbn [fst snd] in S0, L0, P0.
  destruct (command_sent_eq _ _ E2) as [S2 L2].
  destruct (command_sent_eq _ _ E3) as [S3 L3].
  destruct (readlines_sent w3) as (S4 & L4 & _). rewrite E4 in S4, L4.
  cbn [fst snd] in S4, L4.
  rewrite <- P0.
  unfold with_lock, bind, serial_write, serial_readline, raise, ret in E1.
  cbn [port wire logged] in E1.
  destruct (port_readline (port_write version_query (port w0))) as [first p2].
  cbn [port wire logged fst snd] in *.
  destruct (bytes_eqb first CRLF) eqn:Efirst; cbn [negb] in E1; cbv beta iota in E1;
    [|discriminate E1].
  cbn [port wire logged] in E1.
  destruct (port_readline p2) as [second p3].
  cbn [port wire logged fst snd] in *. cbv beta iota in E1.
  destruct (startswith second tag) eqn:Esecond; cbn [negb] in E1; cbv beta iota in E1;
    [|discriminate E1].
  inversion E1; subst w1; clear E1.
  split; [apply bytes_eqb_eq; exact Efirst|]. split; [reflexivity|].
  split.
  - rewrite S4, S3, S2. unfold sent at 1. cbn [wire].
    rewrite !sent_of_app. cbn [sent_of]. rewrite !app_nil_r.
    fold (sent w0). rewrite S0, <- !app_assoc. reflexivity.
  - rewrite L4, L3, L2. cbn [logged]. exact L0.
Qed.

End Opening.

Lemma connection_opens_only_when_recognised_witness :
  sent (snd (VersaLaseConnection_init Sim.three_lasers))
  = [b "?SPV" ++ [CR]; b "ECHO=0" ++ [CR]; b "PROMPT=0" ++ [CR]].
Proof.
  assert (H : VersaLaseConnection_init Sim.three_lasers
              = (Ok tt, snd (VersaLaseConnection_init Sim.three_lasers)))
    by reflexivity.
  destruct (@connection_opens_only_when_recognised _ _ _ _ H) as (_ & _ & E & _).
  exact E.
Defined.

(** ** Threads: exclusion and progress *)

Section Exclusion.
Import Threads.
Context {T : Type} {TR : Transport T}.
Variable commands : list bytes.

(** X18: under every schedule, at every moment, at most one thread is inside
    the [with] block of [_command], and it is the thread that holds the
    lock. *)
Theorem one_thread_inside (w : world T) (schedule : list nat) (t1 t2 : nat) (p1 p2 : pc) :
  nth_error (pcs (run commands schedule (initial commands w))) t1 = Some p1 ->
  nth_error (pcs (run commands schedule (initial commands w))) t2 = Some p2 ->
  in_progress p1 = true ->
  in_progress p2 = true ->
  t1 = t2 /\ owner (run commands schedule (initial commands w)) = Some t1.
Proof.
  destruct (run_invariant schedule (initial_invariant commands w)) as [done I].
  intros H1 H2 P1 P2.
  apply (inv_owner I t1 H1) in P1. apply (inv_owner I t2 H2) in P2.
  split; [congruence | exact P1].
Qed.

(** X19: no schedule leads to a state where the threads are stuck: as long
    as some transaction is not through, some thread can take a step (the
    lock is given back on every way out of the [with] block). *)
Theorem no_deadlock (w : world T) (schedule : list nat) :
  all_finished (run commands schedule (initial commands w)) = false ->
  exists t, step commands t (run commands schedule (initial commands w)) <> None.
Proof.
  destruct (run_invariant schedule (initial_invariant commands w)) as [done I].
  set (s := run commands schedule (initial commands w)) in *.
  intros Hall.
  destruct (owner s) as [h|] eqn:Ho.
  - pose proof (inv_shared I) as Hs. rewrite Ho in Hs. destruct Hs as (p & Hp & Hw).
    exists h. unfold step. rewrite Hp.
    destruct p as [| | | |answer|outcome]; try destruct Hw.
    + destruct (serial_write _ _). discriminate.
    + destruct (serial_readline _). discriminate.
    + destruct (serial_read_until _ _) as [[answer|e] ws]; discriminate.
    + discriminate.
  - unfold all_finished in Hall.
    assert (Hex : exists p, In p (pcs s) /\ is_finished p = false).
    { clear - Hall. induction (pcs s) as [|p l IH]; simpl in Hall; [discriminate|].
      destruct (is_finished p) eqn:E.
      - destruct (IH Hall) as (q & Hq & Hf). exists q. split; [right; exact Hq | exact Hf].
      - exists p. split; [left; reflexivity | exact E]. }
    destruct Hex as (p & Hin & Hf).
    apply In_nth_error in Hin as [t Ht].
    exists t. unfold step. rewrite Ht.
    assert (Hnot : in_progress p = false).
    { destruct (in_progress p) eqn:E; [|reflexivity].
      apply (inv_owner I t Ht) in E. congruence. }
    destruct p; try discriminate. rewrite Ho. simpl. discriminate.
Qed.

End Exclusion.

Lemma one_thread_inside_witness :
  1 = 1 /\
  Threads.owner (Threads.run Sim.two_queries [0; 0; 0; 0; 0; 1; 1]
                   (Threads.initial Sim.two_queries Sim.three_lasers))
  = Some 1.
Proof.
  apply (@one_thread_inside _ _ Sim.two_queries Sim.three_lasers [0; 0; 0; 0; 0; 1; 1]
           1 1 Threads.Written Threads.Written);
    reflexivity.
Defined.

Lemma no_deadlock_witness :
  exists t,
    Threads.step Sim.two_queries t
      (Threads.run Sim.two_queries [0; 1; 0]
         (Threads.initial Sim.two_queries Sim.three_lasers))
    <> None.
Proof.
  apply (@no_deadlock _ _ Sim.two_queries Sim.three_lasers [0; 1; 0]).
  reflexivity.
Defined.

(** ** What the controller logs *)

Section ControllerLog.
Context {T : Type} {TR : Transport T} {PY : PyBuiltins}.

Lemma silent_bind {A B} (m : M (world T) A) (k : A -> M (world T) B) :
  silent m -> (forall a, silent (k a)) -> silent (bind m k).
Proof.
  intros Hm Hk w. unfold bind. specialize (Hm w).
  destruct (m w) as [[a|e] w1]; simpl in *; [|exact Hm].
  rewrite (Hk a w1). exact Hm.
Qed.

Lemma silent_command (command : bytes) : silent (_command (T := T) command).
Proof. intros w. apply command_sent. Qed.

Lemma silent_readlines : silent (serial_readlines (T := T)).
Proof. intros w. apply readlines_sent. Qed.

Lemma silent_readline : silent (serial_readline (T := T)).
Proof.
  intros w. unfold serial_readline. destruct (port_readline (port w)). reflexivity.
Qed.

Lemma silent_connection_init : silent (VersaLaseConnection_init (T := T)).
Proof.
  unfold VersaLaseConnection_init, with_lock.
  apply silent_bind; [apply silent_readlines | intros _].
  apply silent_bind.
  { apply silent_bind; [intros w; reflexivity | intros _].
    apply silent_bind; [apply silent_readline | intros empty_line].
    destruct (negb (bytes_eqb empty_line CRLF)); [intros w; reflexivity|].
    apply silent_bind; [apply silent_readline | intros answer].
    destruct (negb (startswith answer (b "?SPV="))); intros w; reflexivity. }
  intros _. apply silent_bind; [apply silent_command | intros _].
  apply silent_bind; [apply silent_command | intros _].
  apply silent_bind; [apply silent_readlines | intros _].
  intros w; reflexivity.
Qed.

Lemma silent_query_text (name : bytes) :
  silent (x <- query (T := T) name ;; decode x).
Proof.
  apply silent_bind; [apply silent_command|].
  intros x w. unfold decode. destruct (py_decode x); reflexivity.
Qed.

(** A connection that opens logs one line, the one that names the versions. *)
Lemma open_connection_logged (w w0 : world T) :
  open_connection w = (Ok tt, w0) ->
  exists protocol firmware,
    logged w0
    = logged w ++ [("Connected to VersaLase with protocol version ("
                    ++ protocol ++ ") and firmware version ("
                    ++ firmware ++ ")")%string].
Proof.
  unfold open_connection. intros H.
  apply bind_ok in H as ([] & w1 & E1 & H).
  apply bind_ok in H as (protocol & w2 & E2 & H).
  apply bind_ok in H as (firmware & w3 & E3 & H).
  pose proof (silent_connection_init w) as L1. rewrite E1 in L1.
  pose proof (silent_query_text (b "SPV") w1) as L2.
  unfold show_protocol_version in E2. rewrite E2 in L2.
  pose proof (silent_query_text (b "SFV") w2) as L3.
  unfold show_firmware_version in E3. rewrite E3 in L3.
  simpl in L1, L2, L3.
  unfold log_info in H. inversion H; subst w0; clear H.
  exists protocol, firmware. simpl. rewrite L3, L2, L1. reflexivity.
Qed.

(** A loop that returns has met no failure but the module's own. *)
Lemma discover_ok_device_failures (slots : list Z)
  (lasers result : list (string * VersaLaseLaser)) (w w' : world T) :
  discover slots lasers w = (Ok result, w') ->
  device_failures_only (fst (spec_discover slots w)) = true.
Proof.
  revert lasers w; induction slots as [|i slots IH]; intros lasers w; simpl.
  - reflexivity.
  - destruct (VersaLaseLaser_init i w) as [[laser|e] w1].
    + unfold bind, log_info. intros H. apply IH in H.
      destruct (spec_discover slots _) as [rs w2]. simpl in *. exact H.
    + destruct (is_DeviceError e) eqn:He; [|discriminate].
      unfold bind, log_info. intros H. apply IH in H.
      destruct (spec_discover slots _) as [rs w2]. simpl in *. rewrite He. exact H.
Qed.

(** X20: a controller that is constructed has logged nine lines: the line
    that names the protocol and firmware versions, and then one line for each
    of the slots 1 to 8 in ascending order, "found" for the slots that are in
    the result and "no ... available" for the others. *)
Theorem controller_log (lasers : list (string * VersaLaseLaser)) (w w' : world T) :
  StradusVersaLase_init w = (Ok lasers, w') ->
  exists protocol firmware outcomes,
    logged w'
    = logged w
      ++ ("Connected to VersaLase with protocol version ("
          ++ protocol ++ ") and firmware version (" ++ firmware ++ ")")%string
         :: map (@discovery_line _) outcomes /\
    map fst outcomes = slot_range /\
    lasers = retained outcomes.
Proof.
  unfold StradusVersaLase_init. intros H.
  apply bind_ok in H as ([] & w0 & E0 & H).
  destruct (open_connection_logged _ E0) as (protocol & firmware & L0).
  pose proof slot_names_distinct as Hnames.
  remember slot_range as slots eqn:Hslots.
  pose proof (discover_ok_device_failures _ _ _ H) as Hdev.
  rewrite (discover_refines_spec slots [] w0 Hdev) in H.
  apply pair_equal_spec in H as [Hl Hw].
  exists protocol, firmware, (fst (spec_discover slots w0)).
  split; [|split].
  - rewrite <- Hw, spec_discover_logged, L0, <- app_assoc. reflexivity.
  - apply spec_discover_slots.
  - rewrite fold_dict_set_fresh in Hl; [simpl in Hl; congruence | | intros k _ []].
    apply retained_NoDup. rewrite spec_discover_slots. exact Hnames.
Qed.

End ControllerLog.

Lemma controller_log_witness :
  exists protocol firmware outcomes,
    logged (snd (StradusVersaLase_init (PY := Sim.decimal_builtins) Sim.three_lasers))
    = logged Sim.three_lasers
      ++ ("Connected to VersaLase with protocol version ("
          ++ protocol ++ ") and firmware version (" ++ firmware ++ ")")%string
         :: map (@discovery_line _) outcomes /\
    map fst outcomes = slot_range /\
    [("laser2"%string, Laser (LaserConnection (b "2.")) 500%Z 123%Z false);
     ("laser5"%string, Laser (LaserConnection (b "5.")) 500%Z 123%Z false);
     ("laser7"%string, Laser (LaserConnection (b "7.")) 500%Z 123%Z false)]
    = retained outcomes.
Proof.
  assert (H : StradusVersaLase_init (PY := Sim.decimal_builtins) Sim.three_lasers
              = (Ok [("laser2"%string, Laser (LaserConnection (b "2.")) 500%Z 123%Z false);
                     ("laser5"%string, Laser (LaserConnection (b "5.")) 500%Z 123%Z false);
                     ("laser7"%string, Laser (LaserConnection (b "7.")) 500%Z 123%Z false)],
                 snd (StradusVersaLase_init (PY := Sim.decimal_builtins)
                        Sim.three_lasers)))
    by (apply outcome_of_fst; reflexivity).
  exact (@controller_log _ _ _ _ _ _ H).
Defined.

(* ================================================================= *)
(** * The Cobolt laser *)

Lemma reads_of_app (xs ys : list wire_event) :
  Cobolt.reads_of (xs ++ ys) = Cobolt.reads_of xs ++ Cobolt.reads_of ys.
Proof.
  induction xs as [|[d|d] xs IH]; simpl; rewrite ?IH; reflexivity.
Qed.

(** [x in b"01"], case by case. *)
Lemma bytes_in_01 (x : bytes) :
  Cobolt.bytes_in x (b "01") = true
  <-> x = [] \/ x = b "0" \/ x = b "1" \/ x = b "01".
Proof.
  unfold b. cbn [list_ascii_of_string].
  split.
  - destruct x as [|c1 [|c2 [|c3 x]]]; cbn [Cobolt.bytes_in startswith]; auto.
    + rewrite ?andb_true_r, ?orb_false_r, orb_true_iff, !Ascii.eqb_eq.
      intros [H|H]; subst; auto.
    + rewrite ?andb_true_r, ?andb_false_r, ?orb_false_r, andb_true_iff,
        !Ascii.eqb_eq.
      intros [H1 H2]; subst; auto.
    + rewrite ?andb_false_r, ?orb_false_r. discriminate.
  - intros [->|[->|[->| ->]]]; reflexivity.
Qed.

Section CoboltFacts.
Import Cobolt.
Context {P : Type} {SH : SerialHelpers P} {PY : PyBuiltins} {PA : PowerArith PY}.

(** A command sent, and the line read after it. *)
Lemma send_effect (command : bytes) (s : state P) :
  exists line p,
    send command s = (Ok line, State p (cwire s ++ [Wr command; Rd line]) (clog s)).
Proof.
  unfold send, bind, _write, _readline, read_line. simpl.
  destruct (helper_readline (helper_write command (cport s))) as [line p].
  exists line, p. rewrite <- app_assoc. reflexivity.
Qed.

Lemma send_ok (command line : bytes) (s s' : state P) :
  send command s = (Ok line, s') ->
  csent s' = csent s ++ [command] /\
  reads_of (cwire s') = reads_of (cwire s) ++ [line] /\
  clog s' = clog s.
Proof.
  destruct (send_effect command s) as (line' & p & ->).
  intros H; inversion H; subst. unfold csent. simpl.
  rewrite sent_of_app, reads_of_app. auto.
Qed.

Lemma send_never_raises (command : bytes) (e : exn) (s s' : state P) :
  send command s <> (Raise e, s').
Proof.
  destruct (send_effect command s) as (line & p & ->). discriminate.
Qed.

(** X21: [is_alive] sends [l?] and, whatever line it reads, returns: True
    exactly when the line is empty, [0], [1] or [01].  A port that stays
    silent counts as alive, while [get_is_on] on the same line answers True
    only for [1]. *)
Theorem is_alive_on_silence (s : state P) :
  exists response s',
    send (b "l?") s = (Ok response, s') /\
    is_alive s
    = (Ok (Cobolt.bytes_in response (b "01")), s') /\
    get_is_on s = (Ok (bytes_eqb response (b "1")), s') /\
    (Cobolt.bytes_in response (b "01") = true
     <-> response = [] \/ response = b "0" \/ response = b "1" \/ response = b "01") /\
    csent s' = csent s ++ [b "l?"].
Proof.
  destruct (send_effect (b "l?") s) as (response & p & E).
  exists response, (State p (cwire s ++ [Wr (b "l?"); Rd response]) (clog s)).
  split; [exact E|].
  unfold is_alive, get_is_on, lock_comms, bind, ret. rewrite E.
  split; [reflexivity|]. split; [reflexivity|]. split; [apply bytes_in_01|].
  apply (send_ok _ _ E).
Qed.

(** X22: when the line read for [l?] is anything but [1], [get_power_mw]
    returns the integer 0 and has sent nothing but [l?]: the measured power
    is not asked for. *)
Theorem power_of_a_laser_that_is_off (response : bytes) (s s' : state P) :
  send (b "l?") s = (Ok response, s') ->
  response <> b "1" ->
  get_power_mw s = (Ok (Int PY 0), s') /\
  csent s' = csent s ++ [b "l?"].
Proof.
  intros E Hne.
  unfold get_power_mw, get_is_on, lock_comms, bind, ret. rewrite E.
  apply bytes_eqb_neq in Hne. rewrite Hne. simpl.
  split; [reflexivity | apply (send_ok _ _ E)].
Qed.



(** [len(line) > 0], as the loop of [flush_buffer] asks it. *)
Lemma len_pos (line : bytes) : (0 <? len line)%Z = negb (bytes_eqb line []).
Proof. destruct line; reflexivity. Qed.

(** X24: [flush_buffer] reads up to the first empty line and stops there:
    when the next [n] lines of the port are not empty and the one after
    them is, it reads these [n + 1] lines, writes nothing and logs
    nothing. *)
Theorem flush_buffer_stops_at_empty_line (n fuel : nat) (s : state P)
  (lines : list bytes) (p' p'' : P) :
  next_lines n (cport s) = (lines, p') ->
  Forall (fun line => line <> []) lines ->
  helper_readline p' = ([], p'') ->
  n < fuel ->
  flush_buffer fuel s
  = Some (State p'' (cwire s ++ map Rd lines ++ [Rd []]) (clog s)).
Proof.
  revert fuel s lines p'; induction n as [|n IH];
    intros fuel s lines p' Hn Hne He Hf; simpl in Hn.
  - inversion Hn; subst. destruct fuel as [|fuel]; [lia|]. simpl.
    unfold read_line. rewrite He. reflexivity.
  - destruct (helper_readline (cport s)) as [line p1] eqn:E1.
    destruct (next_lines n p1) as [ls p2] eqn:E2. inversion Hn; subst.
    inversion Hne as [|? ? Hline Hls]; subst.
    destruct fuel as [|fuel]; [lia|]. simpl. unfold read_line. rewrite E1.
    apply bytes_eqb_neq in Hline. rewrite len_pos, Hline. simpl.
    rewrite (IH fuel (State p1 (cwire s ++ [Rd line]) (clog s)) ls p');
      [| exact E2 | exact Hls | exact He | lia].
    simpl. rewrite <- app_assoc. reflexivity.
Qed.

(** X25: [flush_buffer] returns only after it has read an empty line: what
    it did is a run of reads of lines that are not empty, then one of an
    empty line, with nothing written and nothing logged. *)
Theorem flush_buffer_returns_after_empty_line (fuel : nat) (s s' : state P) :
  flush_buffer fuel s = Some s' ->
  exists lines,
    cwire s' = cwire s ++ map Rd lines ++ [Rd []] /\
    Forall (fun line => line <> []) lines /\
    List.length lines < fuel /\
    clog s' = clog s.
Proof.
  revert s; induction fuel as [|fuel IH]; intros s; simpl; [discriminate|].
  unfold read_line. destruct (helper_readline (cport s)) as [line p1].
  rewrite len_pos. destruct (bytes_eqb line []) eqn:E; simpl.
  - apply bytes_eqb_eq in E; subst. intros H; inversion H; subst; simpl.
    exists []. split; [reflexivity|]. split; [apply Forall_nil|].
    split; [simpl; lia | reflexivity].
  - intros H. apply IH in H as (lines & W & Hne & Hlen & L). simpl in W, L.
    exists (line :: lines). rewrite W, <- app_assoc. simpl.
    split; [reflexivity|].
    split; [apply Forall_cons; [apply bytes_eqb_neq; exact E | exact Hne]|].
    split; [simpl; lia | exact L].
Qed.

(** The loop of [get_status] on the wire: each query written, and the
    reply to it read, in turn. *)
Lemma status_loop_wire (queries : list (bytes * string)) (acc result : list string)
  (s s' : state P) :
  status_loop queries acc s = (Ok result, s') ->
  exists replies : list (bytes * string),
    List.length replies = List.length queries /\
    Forall (fun r => py_decode (fst r) = Some (snd r)) replies /\
    cwire s'
    = cwire s ++ List.concat (map (fun qr => [Wr (fst (fst qr)); Rd (fst (snd qr))])
                             (combine queries replies)) /\
    clog s' = clog s /\
    result = acc ++ map (fun qr => (snd (fst qr) ++ " " ++ snd (snd qr))%string)
                        (combine queries replies).
Proof.
  revert acc s; induction queries as [|[cmd stat] queries IH]; intros acc s; simpl.
  - unfold ret. intros H; inversion H; subst. exists []. simpl.
    rewrite !app_nil_r. repeat split; constructor.
  - intros H. apply bind_ok in H as (response & s1 & E1 & H).
    apply bind_ok in H as (text & s2 & E2 & H).
    unfold decode_text in E2.
    destruct (py_decode response) as [t|] eqn:Ed; [|discriminate E2].
    unfold ret in E2. inversion E2; subst t s2; clear E2.
    destruct (send_effect cmd s) as (line & p & E1').
    rewrite E1' in E1. inversion E1; subst line s1; clear E1.
    destruct (IH _ _ H) as (replies & Hlen & Hdec & W2 & L2 & Hres).
    cbn [cwire clog] in W2, L2.
    exists ((response, text) :: replies). simpl.
    split; [congruence|]. split; [constructor; [exact Ed | exact Hdec]|].
    split; [rewrite W2, <- app_assoc; reflexivity|].
    split; [exact L2|]. rewrite Hres, <- app_assoc. reflexivity.
Qed.

(** X26: [enable] writes [l1], reads a line, writes [l?] and reads a line,
    and returns True exactly when this last line is [1].  Then it has
    logged two lines; otherwise it goes on to the five status queries, each
    followed by the read of its reply, and logs the error line and then the
    list of the five status lines, each a label, a blank and the decoded
    reply. *)
Theorem enable_outcome (r : bool) (s s' : state P) :
  enable s = (Ok r, s') ->
  exists reply text answer,
    py_decode reply = Some text /\
    r = bytes_eqb answer (b "1") /\
    if r then
      cwire s' = cwire s ++ [Wr (b "l1"); Rd reply; Wr (b "l?"); Rd answer] /\
      clog s' = clog s ++ [Info "Turning laser ON."; Info ("l1: [" ++ text ++ "]")]
    else
      exists l1 l2 l3 l4 l5 t1 t2 t3 t4 t5,
        cwire s'
        = cwire s ++ [Wr (b "l1"); Rd reply; Wr (b "l?"); Rd answer;
                      Wr (b "l?"); Rd l1; Wr (b "p?"); Rd l2; Wr (b "pa?"); Rd l3;
                      Wr (b "f?"); Rd l4; Wr (b "hrs?"); Rd l5] /\
        Forall2 (fun line text => py_decode line = Some text)
                [l1; l2; l3; l4; l5] [t1; t2; t3; t4; t5] /\
        clog s'
        = clog s ++ [Info "Turning laser ON."; Info ("l1: [" ++ text ++ "]");
                     Error ("Failed to turn on. Current status:" ++ newline);
                     ErrorList [("Emission on? " ++ t1)%string;
                                ("Target power: " ++ t2)%string;
                                ("Measured power: " ++ t3)%string;
                                ("Fault? " ++ t4)%string;
                                ("Head operating hours: " ++ t5)%string]].
Proof.
  intros H. unfold enable, lock_comms in H.
  apply bind_ok in H as ([] & s0 & E0 & H).
  unfold log in E0. inversion E0; subst s0; clear E0.
  apply bind_ok in H as (reply & s1 & E1 & H).
  apply bind_ok in H as (text & s2 & E2 & H).
  unfold decode_text in E2.
  destruct (py_decode reply) as [t|] eqn:Ed; [|discriminate E2].
  unfold ret in E2. inversion E2; subst t s2; clear E2.
  apply bind_ok in H as ([] & s3 & E3 & H).
  unfold log in E3. inversion E3; subst s3; clear E3.
  apply bind_ok in H as (on & s4 & E4 & H).
  unfold get_is_on, lock_comms in E4.
  apply bind_ok in E4 as (answer & s5 & E5 & E4).
  unfold ret in E4. inversion E4; subst on s5; clear E4.
  match type of E1 with
  | send ?c ?s0 = _ =>
      destruct (send_effect c s0) as (line1 & p1 & E1'); rewrite E1' in E1;
      inversion E1; subst line1 s1; clear E1 E1'
  end.
  match type of E5 with
  | send ?c ?s0 = _ =>
      destruct (send_effect c s0) as (line5 & p5 & E5'); rewrite E5' in E5;
      inversion E5; subst line5 s4; clear E5 E5'
  end.
  cbn [cwire clog cport] in H.
  exists reply, text, answer. split; [exact Ed|].
  change (bytes_eqb answer _) with (bytes_eqb answer (b "1")) in H.
  destruct (bytes_eqb answer (b "1")); cbn [negb] in H.
  - unfold ret in H. inversion H; subst. split; [reflexivity|].
    cbn [cwire clog]. rewrite <- !app_assoc. split; reflexivity.
  - apply bind_ok in H as ([] & s6 & E6 & H).
    unfold log in E6. inversion E6; subst s6; clear E6.
    apply bind_ok in H as (status & s7 & E7 & H).
    apply bind_ok in H as ([] & s8 & E8 & H).
    unfold log in E8. inversion E8; subst s8; clear E8.
    unfold ret in H. inversion H; subst. split; [reflexivity|].
    unfold get_status, lock_comms in E7.
    destruct (status_loop_wire _ _ _ E7) as (replies & Hlen & Hdec & W7 & L7 & Hres).
    cbn [cwire clog] in W7, L7.
    destruct replies
      as [|[l1 t1] [|[l2 t2] [|[l3 t3] [|[l4 t4] [|[l5 t5] [|r6 replies]]]]]];
      try discriminate Hlen.
    exists l1, l2, l3, l4, l5, t1, t2, t3, t4, t5.
    cbn [cwire clog]. rewrite W7, L7, Hres, <- !app_assoc.
    split; [reflexivity|]. split; [|reflexivity].
    repeat match goal with
           | Hd : Forall _ (_ :: _) |- _ => inversion Hd; subst; clear Hd
           end.
    repeat constructor; assumption.
Qed.

End CoboltFacts.

Lemma power_of_a_laser_that_is_off_witness :
  Cobolt.get_power_mw (PY := Sim.decimal_builtins) (Cobolt.playing [b "0"; b "0.05"])
  = (Ok (Cobolt.Int _ 0),
     Cobolt.State (Cobolt.Scripted [b "0.05"]) [Wr (b "l?"); Rd (b "0")] []) /\
  Cobolt.csent (Cobolt.State (Cobolt.Scripted [b "0.05"]) [Wr (b "l?"); Rd (b "0")] [])
  = Cobolt.csent (Cobolt.playing [b "0"; b "0.05"]) ++ [b "l?"].
Proof.
  apply (@power_of_a_laser_that_is_off _ _ Sim.decimal_builtins _ (b "0")).
  - reflexivity.
  - discriminate.
Defined.


Lemma flush_buffer_stops_at_empty_line_witness :
  Cobolt.flush_buffer 5 (Cobolt.playing [b "OK"; b "0.05"])
  = Some (Cobolt.State (Cobolt.Scripted [])
            (Cobolt.cwire (Cobolt.playing [b "OK"; b "0.05"])
             ++ map Rd [b "OK"; b "0.05"] ++ [Rd []])
            (Cobolt.clog (Cobolt.playing [b "OK"; b "0.05"]))).
Proof.
  apply (@flush_buffer_stops_at_empty_line _ _ 2 5 (Cobolt.playing [b "OK"; b "0.05"])
           [b "OK"; b "0.05"] (Cobolt.Scripted [])).
  - reflexivity.
  - repeat constructor; discriminate.
  - reflexivity.
  - lia.
Defined.

Lemma flush_buffer_returns_after_empty_line_witness :
  exists lines,
    [Rd (b "OK"); Rd (b "0.05"); Rd []]
    = Cobolt.cwire (Cobolt.playing [b "OK"; b "0.05"; []; b "late"])
      ++ map Rd lines ++ [Rd []] /\
    Forall (fun line => line <> []) lines /\
    List.length lines < 5 /\
    @nil Cobolt.log_record
    = Cobolt.clog (Cobolt.playing [b "OK"; b "0.05"; []; b "late"]).
Proof.
  apply (@flush_buffer_returns_after_empty_line _ _ 5
           (Cobolt.playing [b "OK"; b "0.05"; []; b "late"])
           (Cobolt.State (Cobolt.Scripted [b "late"])
              [Rd (b "OK"); Rd (b "0.05"); Rd []] [])).
  reflexivity.
Defined.

Lemma enable_outcome_witness :
  exists reply text answer,
    py_decode (PyBuiltins := Sim.decimal_builtins) reply = Some text /\
    false = bytes_eqb answer (b "1") /\
    exists l1 l2 l3 l4 l5 t1 t2 t3 t4 t5,
      Cobolt.cwire
        (snd (Cobolt.enable (PY := Sim.decimal_builtins)
                (Cobolt.playing [b "OK"; b "0"; b "0"; b "0.05"; b "0.0"; b "1"; b "12"])))
      = Cobolt.cwire (Cobolt.playing [b "OK"; b "0"; b "0"; b "0.05"; b "0.0"; b "1"; b "12"])
        ++ [Wr (b "l1"); Rd reply; Wr (b "l?"); Rd answer;
            Wr (b "l?"); Rd l1; Wr (b "p?"); Rd l2; Wr (b "pa?"); Rd l3;
            Wr (b "f?"); Rd l4; Wr (b "hrs?"); Rd l5] /\
      Forall2 (fun line text =>
                 py_decode (PyBuiltins := Sim.decimal_builtins) line = Some text)
              [l1; l2; l3; l4; l5] [t1; t2; t3; t4; t5] /\
      Cobolt.clog
        (snd (Cobolt.enable (PY := Sim.decimal_builtins)
                (Cobolt.playing [b "OK"; b "0"; b "0"; b "0.05"; b "0.0"; b "1"; b "12"])))
      = Cobolt.clog (Cobolt.playing [b "OK"; b "0"; b "0"; b "0.05"; b "0.0"; b "1"; b "12"])
        ++ [Cobolt.Info "Turning laser ON."; Cobolt.Info ("l1: [" ++ text ++ "]");
            Cobolt.Error ("Failed to turn on. Current status:" ++ Cobolt.newline);
            Cobolt.ErrorList [("Emission on? " ++ t1)%string;
                              ("Target power: " ++ t2)%string;
                              ("Measured power: " ++ t3)%string;
                              ("Fault? " ++ t4)%string;
                              ("Head operating hours: " ++ t5)%string]].
Proof.
  assert (H : Cobolt.enable (PY := Sim.decimal_builtins)
                (Cobolt.playing [b "OK"; b "0"; b "0"; b "0.05"; b "0.0"; b "1"; b "12"])
              = (Ok false,
                 snd (Cobolt.enable (PY := Sim.decimal_builtins)
                        (Cobolt.playing
                           [b "OK"; b "0"; b "0"; b "0.05"; b "0.0"; b "1"; b "12"]))))
    by (apply outcome_of_fst; reflexivity).
  exact (@enable_outcome _ _ _ _ _ _ H).
Defined.
